(** * Ashtadhyayi.com scraper: a shallow embedding of the extraction pipeline

    Source: [src/scraper/ashtadhyayi_scraper.py].

    Python [str] values are sequences of Unicode code points, so a string is
    a [list N] here; the methods of [str] the scraper calls are written out
    below with the behaviour CPython gives them.  Parsed markup (what
    BeautifulSoup hands to the scraper) is a tree of elements and strings,
    and the browser is an oracle of page loads threaded through the run. *)

From Stdlib Require Import NArith ZArith List Bool Lia String Ascii Arith.
From Stdlib Require Import DecimalString.
From Stdlib Require DecimalNat.
Import ListNotations.

Set Implicit Arguments.
Set Warnings "-register-all".

(* ================================================================== *)
(** * Python strings *)
(* ================================================================== *)

Module PyStr.

Local Open Scope N_scope.

Definition char := N.
Definition str := list char.

(** An ASCII literal of the source as a code-point string. *)
Definition lit (s : string) : str := map N_of_ascii (list_ascii_of_string s).

Fixpoint str_eqb (a b : str) : bool :=
  match a, b with
  | [], [] => true
  | x :: a', y :: b' => N.eqb x y && str_eqb a' b'
  | _, _ => false
  end.

(** [c in chars] for a string used as a set of characters. *)
Definition mem (c : char) (chars : str) : bool := existsb (N.eqb c) chars.

(** [s.startswith(p)] *)
Fixpoint startswith (p s : str) : bool :=
  match p, s with
  | [], _ => true
  | x :: p', y :: s' => N.eqb x y && startswith p' s'
  | _ :: _, [] => false
  end.

(** [needle in hay] *)
Fixpoint contains (needle hay : str) : bool :=
  startswith needle hay ||
  match hay with
  | [] => false
  | _ :: r => contains needle r
  end.

(** [sep.join(parts)] *)
Fixpoint join (sep : str) (parts : list str) : str :=
  match parts with
  | [] => []
  | [p] => p
  | p :: ps => p ++ sep ++ join sep ps
  end.

(** [s.split(sep)] for a non-empty separator: the pieces between the
    non-overlapping occurrences of [sep], found left to right.  The result
    is never empty; it is returned as first piece and remaining pieces.
    [skip] counts the characters of a separator still to be passed over. *)
Fixpoint split_from (sep : str) (skip : nat) (s : str) : str * list str :=
  match s with
  | [] => ([], [])
  | c :: r =>
      match skip with
      | S k => split_from sep k r
      | O =>
          if startswith sep s
          then ([], let (p, ps) := split_from sep (List.length sep - 1)%nat r in p :: ps)
          else let (p, ps) := split_from sep 0 r in (c :: p, ps)
      end
  end.

Definition split (sep s : str) : list str :=
  let (p, ps) := split_from sep 0 s in p :: ps.

(** [s.split(sep, 1)]: cut at the first occurrence only. *)
Fixpoint split_first (sep s : str) : str * option str :=
  match s with
  | [] => ([], None)
  | c :: r =>
      if startswith sep s then ([], Some (skipn (List.length sep) s))
      else let (p, q) := split_first sep r in (c :: p, q)
  end.

Definition split1 (sep s : str) : list str :=
  match split_first sep s with
  | (p, None) => [p]
  | (p, Some q) => [p; q]
  end.

(** [s.replace(old, "", 1)] for a non-empty [old]. *)
Fixpoint remove_first (old s : str) : str :=
  match s with
  | [] => []
  | c :: r =>
      if startswith old s then skipn (List.length old) s
      else c :: remove_first old r
  end.

(** Characters for which [str.isspace] holds; [str.strip()] and the regular
    expression class [\s] (on [str] patterns) use the same set. *)
Definition isspace (c : char) : bool :=
  ((9 <=? c) && (c <=? 13)) || ((28 <=? c) && (c <=? 32))
  || (c =? 133) || (c =? 160) || (c =? 5760)
  || ((8192 <=? c) && (c <=? 8202))
  || (c =? 8232) || (c =? 8233) || (c =? 8239) || (c =? 8287)
  || (c =? 12288).

Fixpoint lstrip_by (drop : char -> bool) (s : str) : str :=
  match s with
  | [] => []
  | c :: r => if drop c then lstrip_by drop r else s
  end.

Definition rstrip_by (drop : char -> bool) (s : str) : str :=
  rev (lstrip_by drop (rev s)).

Definition strip_by (drop : char -> bool) (s : str) : str :=
  rstrip_by drop (lstrip_by drop s).

(** [s.strip()] *)
Definition strip : str -> str := strip_by isspace.
(** [s.strip(chars)], [s.rstrip(chars)] *)
Definition strip_chars (chars : str) : str -> str :=
  strip_by (fun c => mem c chars).
Definition rstrip_chars (chars : str) : str -> str :=
  rstrip_by (fun c => mem c chars).

(** [s.zfill(width)]: zeros on the left, after a leading sign if any. *)
Definition zfill (width : nat) (s : str) : str :=
  let pad := repeat 48 (width - List.length s)%nat in
  match s with
  | c :: r => if (c =? 43) || (c =? 45) then c :: pad ++ r else pad ++ s
  | [] => pad
  end.

(** What the interpreter's Unicode database decides: for a code point
    outside ASCII, whether it is a decimal digit (category Nd, accepted by
    [int()]) and whether [str.isdigit] holds for it. *)
Record UnicodeTables := {
  uni_decimal : char -> bool;
  uni_digit : char -> bool
}.

Definition ascii_digit (c : char) : bool := (48 <=? c) && (c <=? 57).

Definition isdecimal_char (U : UnicodeTables) (c : char) : bool :=
  ascii_digit c || ((128 <=? c) && uni_decimal U c).

Definition isdigit_char (U : UnicodeTables) (c : char) : bool :=
  ascii_digit c || ((128 <=? c) && uni_digit U c).

(** [s.isdigit()]: every character a digit, and at least one character. *)
Definition isdigit (U : UnicodeTables) (s : str) : bool :=
  negb (str_eqb s []) && forallb (isdigit_char U) s.

End PyStr.

Import PyStr.

Open Scope N_scope.

(** [int(s)] succeeds: optional surrounding white space, an optional sign,
    then decimal digits with single underscores allowed between digits.
    [int] accepts every [isspace] character except the ASCII separators
    U+001C..U+001F.  CPython (3.11, and the security releases of the older
    branches) refuses a literal of more than 4300 digits with the same
    [ValueError]; the underscores, the sign and the white space do not
    count. *)
Module PyInt.

Definition MAX_STR_DIGITS : nat := 4300.

Definition int_space (c : char) : bool :=
  ((9 <=? c) && (c <=? 13)) || (c =? 32) || ((128 <=? c) && isspace c).

Fixpoint int_body (U : UnicodeTables) (s : str) : bool :=
  match s with
  | [] => false
  | c :: r =>
      isdecimal_char U c &&
      match r with
      | [] => true
      | d :: r' => if d =? 95 then int_body U r' else int_body U r
      end
  end.

(** The digits of a literal: its characters other than the underscore. *)
Definition digit_count (s : str) : nat :=
  List.length (filter (fun c => negb (c =? 95)) s).

Definition int_literal (U : UnicodeTables) (s : str) : bool :=
  int_body U s && (digit_count s <=? MAX_STR_DIGITS)%nat.

Definition int_ok (U : UnicodeTables) (s : str) : bool :=
  match strip_by int_space s with
  | [] => false
  | c :: r =>
      if (c =? 43) || (c =? 45) then int_literal U r else int_literal U (c :: r)
  end.

End PyInt.

Import PyInt.

(* ================================================================== *)
(** * Parsed markup *)
(* ================================================================== *)

(** The tree BeautifulSoup builds: strings and elements.  An element has a
    name, the tokens of its [class] attribute, its other attributes and its
    children.  The strings are the ordinary ones, which [get_text] returns:
    the pages and fragments described here have no comment or declaration
    and no [script], [style] or [template] element, whose strings
    [get_text] leaves out. *)
Module Dom.

Inductive node :=
| Text (s : str)
| Elem (name : str) (classes : list str) (attrs : list (str * str))
       (children : list node).

(** [tag.get(key, default)] on the attributes. *)
Fixpoint attr_get (key : str) (attrs : list (str * str)) : option str :=
  match attrs with
  | [] => None
  | (k, v) :: r => if str_eqb k key then Some v else attr_get key r
  end.

Definition has_class (c : str) (classes : list str) : bool :=
  existsb (str_eqb c) classes.

Definition endswith (p s : str) : bool := startswith (rev p) (rev s).

(** ** Selectors

    A compound selector is a conjunction of simple tests on one element; a
    complex selector chains compounds with the descendant or the child
    combinator; a selector list (the commas) is a union. *)
Inductive simple :=
| STag (n : str)                 (* [a]            *)
| SClass (c : str)               (* [.badge]       *)
| SNotClass (c : str)            (* [:not(.badge)] *)
| SId (i : str)                  (* [#region]      *)
| SHasAttr (a : str)             (* [[href]]       *)
| SAttrPrefix (a v : str)        (* [[href^='v']]  *)
| SAttrSuffix (a v : str).       (* [[id$='v']]    *)

Definition compound := list simple.

Inductive complex :=
| Last (c : compound)
| Descendant (anc : compound) (rest : complex)   (* [anc rest]   *)
| Child (par : compound) (rest : complex).       (* [par > rest] *)

Definition selector := list complex.

(** The head of an element: all a selector looks at. *)
Record head := { h_name : str; h_classes : list str; h_attrs : list (str * str) }.

Definition simple_ok (h : head) (s : simple) : bool :=
  match s with
  | STag n => str_eqb (h_name h) n
  | SClass c => has_class c (h_classes h)
  | SNotClass c => negb (has_class c (h_classes h))
  | SId i => match attr_get (lit "id") (h_attrs h) with
             | Some v => str_eqb v i | None => false end
  | SHasAttr a => match attr_get a (h_attrs h) with
                  | Some _ => true | None => false end
  | SAttrPrefix a v => match attr_get a (h_attrs h) with
                       | Some x => startswith v x | None => false end
  | SAttrSuffix a v => match attr_get a (h_attrs h) with
                       | Some x => endswith v x | None => false end
  end.

Definition compound_ok (h : head) (c : compound) : bool :=
  forallb (simple_ok h) c.

(** The compounds of a complex selector, rightmost first, each with the
    combinator that links it to the compound on its right. *)
Inductive link := ByDescent | ByChild.

Fixpoint unfold_complex (c : complex) (acc : list (compound * link))
  : compound * list (compound * link) :=
  match c with
  | Last k => (k, acc)
  | Descendant a rest => unfold_complex rest ((a, ByDescent) :: acc)
  | Child p rest => unfold_complex rest ((p, ByChild) :: acc)
  end.

(** Does the chain of ancestors (nearest first) satisfy the remaining
    compounds (nearest required first)? *)
Fixpoint ancestors_ok (need : list (compound * link)) (up : list head)
         {struct up} : bool :=
  match need with
  | [] => true
  | (k, l) :: need' =>
      match up with
      | [] => false
      | h :: up' =>
          match l with
          | ByChild => compound_ok h k && ancestors_ok need' up'
          | ByDescent =>
              (compound_ok h k && ancestors_ok need' up')
              || ancestors_ok need up'
          end
      end
  end.

Definition complex_ok (up : list head) (h : head) (c : complex) : bool :=
  let (k, need) := unfold_complex c [] in
  compound_ok h k && ancestors_ok need up.

Definition selector_ok (sel : selector) (up : list head) (h : head) : bool :=
  existsb (complex_ok up h) sel.

(** An element found in a tree, with what the scraper may ask of it later:
    its ancestors and the siblings that follow it. *)
Record located := {
  here : node;
  up : list head;
  after : list node
}.

Definition head_of (n : node) : option head :=
  match n with
  | Text _ => None
  | Elem name cls attrs _ => Some {| h_name := name; h_classes := cls; h_attrs := attrs |}
  end.

(** All elements below a list of siblings, in document order. *)
Fixpoint walk (anc : list head) (n : node) (following : list node) : list located :=
  match n with
  | Text _ => []
  | Elem name cls attrs ch =>
      let h := {| h_name := name; h_classes := cls; h_attrs := attrs |} in
      {| here := n; up := anc; after := following |}
      :: (fix walk_list (l : list node) : list located :=
            match l with
            | [] => []
            | x :: r => walk (h :: anc) x r ++ walk_list r
            end) ch
  end.

Fixpoint walk_list (anc : list head) (l : list node) : list located :=
  match l with
  | [] => []
  | x :: r => walk anc x r ++ walk_list anc r
  end.

(** The elements strictly below a located element. *)
Definition below (e : located) : list located :=
  match here e with
  | Text _ => []
  | Elem name cls attrs ch =>
      walk_list ({| h_name := name; h_classes := cls; h_attrs := attrs |} :: up e) ch
  end.

Definition matches (sel : selector) (e : located) : bool :=
  match head_of (here e) with
  | Some h => selector_ok sel (up e) h
  | None => false
  end.

(** [soup.select(sel)] and [soup.select_one(sel)] on a document. *)
Definition select (sel : selector) (doc : list node) : list located :=
  filter (matches sel) (walk_list [] doc).

Definition select_one (sel : selector) (doc : list node) : option located :=
  hd_error (select sel doc).

(** [tag.select(sel)] and [tag.select_one(sel)] on an element. *)
Definition select_in (sel : selector) (e : located) : list located :=
  filter (matches sel) (below e).

Definition select_one_in (sel : selector) (e : located) : option located :=
  hd_error (select_in sel e).

(** The strings below a node, in document order. *)
Fixpoint strings (n : node) : list str :=
  match n with
  | Text s => [s]
  | Elem _ _ _ ch =>
      (fix strings_list (l : list node) : list str :=
         match l with
         | [] => []
         | x :: r => strings x ++ strings_list r
         end) ch
  end.

Fixpoint strings_list (l : list node) : list str :=
  match l with
  | [] => []
  | x :: r => strings x ++ strings_list r
  end.

Definition nonempty (s : str) : bool :=
  match s with [] => false | _ => true end.

(** [get_text(strip=True)]: every string stripped, the empty ones dropped,
    the rest concatenated. *)
Definition text_of_strings (l : list str) : str :=
  List.concat (filter nonempty (map strip l)).

Definition get_text_strip (n : node) : str := text_of_strings (strings n).

(** [soup.get_text(separator=' ')] on a document. *)
Definition get_text_sep (sep : str) (doc : list node) : str :=
  join sep (strings_list doc).

(** [tag.find_next_sibling()]: the next sibling that is an element, with the
    siblings after it. *)
Fixpoint next_element (l : list node) : option (node * list node) :=
  match l with
  | [] => None
  | Text _ :: r => next_element r
  | (Elem _ _ _ _ as n) :: r => Some (n, r)
  end.

End Dom.

Import Dom.

(** [BeautifulSoup(tag.decode_contents(), 'html.parser')]: the children of
    an element written out and parsed again.  Writing drops empty strings
    and runs adjacent strings together; on the pages described here, which
    also have no [pre] or [textarea] element (where the parser keeps the
    white space it shortens elsewhere), nothing else changes. *)
Module Reparse.

Fixpoint glue (l : list node) : list node :=
  match l with
  | [] => []
  | Text a :: r =>
      match a, glue r with
      | [], g => g
      | _, Text b :: g => Text (a ++ b) :: g
      | _, g => Text a :: g
      end
  | x :: r => x :: glue r
  end.

Fixpoint reparse (n : node) : node :=
  match n with
  | Text s => Text s
  | Elem name cls attrs ch => Elem name cls attrs (glue (map reparse ch))
  end.

Definition decode_contents (n : node) : list node :=
  match n with
  | Text _ => []
  | Elem _ _ _ ch => glue (map reparse ch)
  end.

End Reparse.

Import Reparse.

(* ================================================================== *)
(** * Data classes and book configurations *)
(* ================================================================== *)

(** A Python [dict] with string keys: insertion order is kept, assignment to
    a present key replaces its value in place. *)
Module Dict.

Definition dict (V : Type) := list (str * V).

Fixpoint get {V} (d : dict V) (k : str) : option V :=
  match d with
  | [] => None
  | (k', v) :: r => if str_eqb k' k then Some v else get r k
  end.

Fixpoint set {V} (d : dict V) (k : str) (v : V) : dict V :=
  match d with
  | [] => [(k, v)]
  | (k', v') :: r => if str_eqb k' k then (k', v) :: r else (k', v') :: set r k v
  end.

Definition values {V} (d : dict V) : list V := map snd d.

End Dict.

Record EntryInfo := {
  number : str;
  title : str;
  url : str;
  content : str;
  sections : Dict.dict str;
  notes : list str;
  metadata : Dict.dict str
}.

Record ChapterInfo := {
  ch_number : str;
  ch_name : str;
  ch_url : str;
  entries : list EntryInfo
}.

Inductive BookType :=
| shivasutra | sutraani | dhatu | pratyahara | ganapatha | unadipatha
| linganushasanam | shiksha.

Inductive Organize := flat | adhyaya_pada | gana.

Record BookInfo := {
  name : BookType;
  sanskrit_name : str;
  header_shlokas : list str;
  footer_title : str;
  base_url : str;
  book_type : BookType;
  chapters : list ChapterInfo
}.

Record BookConfig := {
  cfg_url : str;
  detail_url_pattern : option str;
  has_infinite_scroll : bool;
  organize_by : Organize;
  expected_count : nat
}.

Definition BOOK_CONFIGS (b : BookType) : BookConfig :=
  match b with
  | shivasutra =>
      {| cfg_url := lit "https://ashtadhyayi.com/shivasutra/";
         detail_url_pattern := Some (lit "/shivasutra/{num}");
         has_infinite_scroll := false; organize_by := flat;
         expected_count := 14 |}
  | sutraani =>
      {| cfg_url := lit "https://ashtadhyayi.com/sutraani";
         detail_url_pattern := Some (lit "/sutraani/{a}/{p}/{s}");
         has_infinite_scroll := true; organize_by := adhyaya_pada;
         expected_count := 3981 |}
  | dhatu =>
      {| cfg_url := lit "https://ashtadhyayi.com/dhatu/";
         detail_url_pattern := Some (lit "/dhatu/{id}");
         has_infinite_scroll := true; organize_by := gana;
         expected_count := 2000 |}
  | pratyahara =>
      {| cfg_url := lit "https://ashtadhyayi.com/pratyahara";
         detail_url_pattern := None;
         has_infinite_scroll := false; organize_by := flat;
         expected_count := 44 |}
  | ganapatha =>
      {| cfg_url := lit "https://ashtadhyayi.com/ganapath/";
         detail_url_pattern := Some (lit "/ganapath/{id}");
         has_infinite_scroll := true; organize_by := flat;
         expected_count := 450 |}
  | unadipatha =>
      {| cfg_url := lit "https://ashtadhyayi.com/unaadi/";
         detail_url_pattern := Some (lit "/unaadi/{id}");
         has_infinite_scroll := true; organize_by := flat;
         expected_count := 750 |}
  | linganushasanam =>
      {| cfg_url := lit "https://ashtadhyayi.com/linganushasanam";
         detail_url_pattern := Some (lit "/linganushasanam/{id}");
         has_infinite_scroll := false; organize_by := flat;
         expected_count := 200 |}
  | shiksha =>
      {| cfg_url := lit "https://ashtadhyayi.com/shiksha";
         detail_url_pattern := Some (lit "/shiksha/{id}");
         has_infinite_scroll := false; organize_by := flat;
         expected_count := 60 |}
  end.

Definition BASE_URL : str := lit "https://ashtadhyayi.com".

(* ================================================================== *)
(** * Identifier and path model *)
(* ================================================================== *)

(** Devanagari (U+0966..U+096F) and Gujarati (U+0AE6..U+0AEF) digits. *)
Definition DEVA_TO_ENG : list (char * char) :=
  [ (2406, 48); (2407, 49); (2408, 50); (2409, 51); (2410, 52);
    (2411, 53); (2412, 54); (2413, 55); (2414, 56); (2415, 57);
    (2790, 48); (2791, 49); (2792, 50); (2793, 51); (2794, 52);
    (2795, 53); (2796, 54); (2797, 55); (2798, 56); (2799, 57) ].

(** [DEVA_TO_ENG.get(c, c)] *)
Fixpoint table_get (t : list (char * char)) (c : char) (default : char) : char :=
  match t with
  | [] => default
  | (k, v) :: r => if k =? c then v else table_get r c default
  end.

Definition deva_to_english (text : str) : str :=
  map (fun c => table_get DEVA_TO_ENG c c) text.

(** [_get_entry_filename] *)
Definition get_entry_filename (U : UnicodeTables) (entry : EntryInfo) : str :=
  let eng_num := deva_to_english (number entry) in
  let eng_num :=
    if mem 46 eng_num then
      join (lit "_") (map (zfill 2) (split (lit ".") eng_num))
    else if isdigit U eng_num then zfill 2 eng_num
    else eng_num in
  lit "entry_" ++ eng_num ++ lit ".md".

(** [base / segment] of [pathlib], POSIX flavour, for a segment that does
    not start with a slash: the segment is cut at every slash, and the
    empty pieces and the pieces [.] are left out. *)
Definition path_components (segment : str) : list str :=
  filter (fun piece => nonempty piece && negb (str_eqb piece (lit ".")))
         (split (lit "/") segment).

(** The segments [save_to_markdown] joins to the book directory, one after
    the other, to get the file path of an entry. *)
Definition path_segments (U : UnicodeTables) (org : Organize) (entry : EntryInfo)
  : list str :=
  match org with
  | adhyaya_pada =>
      if mem 46 (number entry) then
        let parts := split (lit ".") (deva_to_english (number entry)) in
        match parts with
        | p0 :: p1 :: p2 :: _ =>
            [ lit "adhyaya_" ++ p0; lit "pada_" ++ p1;
              lit "sutra_" ++ zfill 3 p2 ++ lit ".md" ]
        | _ => [ get_entry_filename U entry ]
        end
      else [ get_entry_filename U entry ]
  | _ => [ get_entry_filename U entry ]
  end.

(** The file path [save_to_markdown] gives an entry, as the path components
    below the book directory. *)
Definition entry_path (U : UnicodeTables) (org : Organize) (entry : EntryInfo)
  : list str :=
  flat_map path_components (path_segments U org entry).

(** The path of an entry of a book, and how it prints. *)
Definition book_entry_path (U : UnicodeTables) (b : BookType) (entry : EntryInfo)
  : list str :=
  entry_path U (organize_by (BOOK_CONFIGS b)) entry.

Definition render_path (p : list str) : str := join (lit "/") p.

(* ================================================================== *)
(** * Markup-to-text transformer ([_html_to_markdown]) *)
(* ================================================================== *)

Module Markdown.

Definition NL : char := 10.
Definition STAR : char := 42.
Definition ARROW : char := 8594.                 (* U+2192 *)
Definition SENTINEL : str := 12304 :: lit "PARA" ++ [12305].  (* U+3010 PARA U+3011 *)
Definition PARA_BREAK : str := [NL; NL] ++ SENTINEL ++ [NL; NL].
Definition LINE_BREAK : str := [NL].

(** ** First pass: rewriting the tree

    [for x in soup.select(sel): ... x.replace_with(new)] visits the matches
    in document order, so an element is replaced before anything below it is
    looked at, and what is below a replaced element leaves the tree with
    it. *)
Fixpoint rewrite (sel : selector) (f : node -> option str) (n : node) : node :=
  match n with
  | Text _ => n
  | Elem name cls attrs ch =>
      let kept := Elem name cls attrs (map (rewrite sel f) ch) in
      if selector_ok sel [] {| h_name := name; h_classes := cls; h_attrs := attrs |}
      then match f n with
           | Some s => Text s
           | None => kept
           end
      else kept
  end.

Definition cls (c : string) : complex := Last [SClass (lit c)].
Definition tag (t : string) : complex := Last [STag (lit t)].
Definition tag_cls (t c : string) : complex := Last [STag (lit t); SClass (lit c)].

(** [text = x.get_text(strip=True); if text: x.replace_with(fmt(text))] *)
Definition with_text (fmt : str -> str) (n : node) : option str :=
  let text := get_text_strip n in
  if nonempty text then Some (fmt text) else None.

Definition link_text (n : node) : option str :=
  let text := get_text_strip n in
  let href := match n with
              | Elem _ _ attrs _ =>
                  match attr_get (lit "href") attrs with Some h => h | None => [] end
              | Text _ => []
              end in
  if nonempty text && nonempty href
  then Some (lit "[" ++ text ++ lit "](" ++ href ++ lit ")")
  else if nonempty text then Some text
  else None.

Definition passes : list (selector * (node -> option str)) :=
  [ ([cls "prakriya"; cls "derivation"; cls "prakriya-box"],
     with_text (fun t => PARA_BREAK ++ lit "> " ++ t ++ PARA_BREAK));
    ([cls "section-header"; tag "h3"; tag "h4"; tag "h5"],
     with_text (fun t => PARA_BREAK ++ lit "### " ++ t ++ PARA_BREAK));
    ([tag "b"; tag "strong"],
     with_text (fun t => lit "**" ++ t ++ lit "**"));
    ([cls "font-weight-bold"; cls "bigtext-font"],
     with_text (fun t => lit "**" ++ t ++ lit "**"));
    ([tag "i"; tag "em"],
     with_text (fun t => lit "*" ++ t ++ lit "*"));
    ([tag "br"], fun _ => Some LINE_BREAK);
    ([cls "section-separator"; tag "hr"],
     fun _ => Some (PARA_BREAK ++ lit "---" ++ PARA_BREAK));
    ([tag_cls "div" "mt-3"; tag_cls "div" "mt-4"; tag_cls "div" "mb-3";
      tag_cls "div" "mb-4"],
     with_text (fun t => PARA_BREAK ++ t ++ PARA_BREAK));
    ([tag "a"], link_text) ].

Definition rewrite_all (doc : list node) : list node :=
  fold_left (fun d p => map (rewrite (fst p) (snd p)) d) passes doc.

(** ** Second pass: cleaning the text *)

Definition is_blank (c : char) : bool := (c =? 32) || (c =? 9).

(** [re.sub(r'[ \t]+', ' ', text)]; [in_run] says the previous character was
    part of the run being replaced. *)
Fixpoint collapse_blanks_from (in_run : bool) (s : str) : str :=
  match s with
  | [] => []
  | c :: r =>
      if is_blank c
      then if in_run then collapse_blanks_from true r
           else 32 :: collapse_blanks_from true r
      else c :: collapse_blanks_from false r
  end.

Definition collapse_blanks : str -> str := collapse_blanks_from false.

(** [for i, step in enumerate(steps)]: strip, drop the empty ones, put the
    arrow back before every step but the one at index 0. *)
Fixpoint format_steps (first : bool) (steps : list str) : list str :=
  match steps with
  | [] => []
  | step :: r =>
      let step := strip step in
      (if nonempty step
       then [ if first then step else ARROW :: 32 :: step ]
       else [])
      ++ format_steps false r
  end.

Definition format_paragraph (para : str) : str :=
  if mem ARROW para && negb (startswith (lit ">") para) then
    let steps := split [ARROW] para in
    if (1 <? List.length steps)%nat
    then join [NL; NL] (format_steps true steps)
    else para
  else para.

Fixpoint result_paragraphs (paragraphs : list str) : list str :=
  match paragraphs with
  | [] => []
  | para :: r =>
      let para := strip para in
      if nonempty para
      then format_paragraph para :: result_paragraphs r
      else result_paragraphs r
  end.

(** [re.sub(r'\n{3,}', '\n\n', text)]; [seen] counts the newlines of the
    current run already written (at most two are). *)
Fixpoint squeeze_newlines_from (seen : nat) (s : str) : str :=
  match s with
  | [] => []
  | c :: r =>
      if c =? NL
      then if (2 <=? seen)%nat then squeeze_newlines_from seen r
           else c :: squeeze_newlines_from (S seen) r
      else c :: squeeze_newlines_from 0 r
  end.

Definition squeeze_newlines : str -> str := squeeze_newlines_from 0.

(** A match of [\*\*\s*\*\*] at the start of [s], and its length. *)
Definition empty_bold_at (s : str) : option nat :=
  match s with
  | a :: b :: r =>
      if (a =? STAR) && (b =? STAR) then
        let w := lstrip_by isspace r in
        match w with
        | c :: d :: _ =>
            if (c =? STAR) && (d =? STAR)
            then Some (4 + (List.length r - List.length w))%nat
            else None
        | _ => None
        end
      else None
  | _ => None
  end.

(** [re.sub(r'\*\*\s*\*\*', '', text)]: matches are taken left to right and
    do not overlap; [skip] counts the characters of a match still to be
    dropped. *)
Fixpoint remove_empty_bold_from (skip : nat) (s : str) : str :=
  match s with
  | [] => []
  | c :: r =>
      match skip with
      | S k => remove_empty_bold_from k r
      | O =>
          match empty_bold_at s with
          | Some n => remove_empty_bold_from (n - 1) r
          | None => c :: remove_empty_bold_from 0 r
          end
      end
  end.

Definition remove_empty_bold : str -> str := remove_empty_bold_from 0.

(** U+0964, U+0965 (danda, double danda) and [, ; : .] *)
Definition is_punct (c : char) : bool :=
  (c =? 2404) || (c =? 2405) || (c =? 44) || (c =? 59) || (c =? 58) || (c =? 46).

(** The white space at the front of [s] is followed by a punctuation mark. *)
Definition punct_ahead (s : str) : bool :=
  match lstrip_by isspace s with
  | p :: _ => is_punct p
  | [] => false
  end.

(** [re.sub(r'\s+([।॥,;:.])', r'\1', text)]: a run of white space goes when
    a punctuation mark follows it. *)
Fixpoint fix_punct (s : str) : str :=
  match s with
  | [] => []
  | c :: r =>
      if isspace c && punct_ahead r then fix_punct r
      else c :: fix_punct r
  end.

Definition clean_text (text : str) : str :=
  let text := collapse_blanks text in
  let paragraphs := split SENTINEL text in
  let text := join [NL; NL] (result_paragraphs paragraphs) in
  let text := squeeze_newlines text in
  let text := remove_empty_bold text in
  let text := fix_punct text in
  strip text.

(** [_html_to_markdown], on the parsed fragment. *)
Definition html_to_markdown (doc : list node) : str :=
  clean_text (get_text_sep (lit " ") (rewrite_all doc)).

(** A string with neither [<] nor [&] in it starts no tag and no character
    reference: the parser returns it as one string. *)
Definition plain (text : str) : list node := [Text text].

End Markdown.

Import Markdown.

(* ================================================================== *)
(** * Pagination crawler ([_scroll_to_load_all]) *)
(* ================================================================== *)

(** [self.limit]: [None], or the integer given on the command line.  Python
    takes [None] and [0] for false. *)
Definition limit_reached (limit : option Z) (n : nat) : bool :=
  match limit with
  | None => false
  | Some l => negb (l =? 0)%Z && (l <=? Z.of_nat n)%Z
  end.

Module Scroll.

Record state := {
  last_count : nat;
  scroll_count : nat;
  no_change_count : nat
}.

Definition initial : state :=
  {| last_count := 0; scroll_count := 0; no_change_count := 0 |}.

Inductive flow := Break (st : state) | Next (st : state).

(** One turn of the [while] body, given the number of items just counted. *)
Definition iteration (limit : option Z) (current_count : nat) (st : state) : flow :=
  let stalled := Nat.eqb current_count (last_count st) in
  let st1 :=
    if stalled
    then {| last_count := last_count st; scroll_count := scroll_count st;
            no_change_count := S (no_change_count st) |}
    else {| last_count := current_count; scroll_count := scroll_count st;
            no_change_count := 0 |} in
  if stalled && (5 <=? no_change_count st1)%nat then Break st1
  else if limit_reached limit current_count then Break st1
  else Next {| last_count := last_count st1;
               scroll_count := S (scroll_count st1);
               no_change_count := no_change_count st1 |}.

(** [while scroll_count < max_scrolls]; [remaining] is
    [max_scrolls - scroll_count].  [counts k] is what the page shows when it
    is measured after [k] scrolls. *)
Fixpoint loop (limit : option Z) (counts : nat -> nat) (remaining : nat)
         (st : state) : state :=
  match remaining with
  | O => st
  | S remaining' =>
      match iteration limit (counts (scroll_count st)) st with
      | Break st' => st'
      | Next st' => loop limit counts remaining' st'
      end
  end.

Definition max_scrolls_default : nat := 500.

Definition run (limit : option Z) (counts : nat -> nat) (max_scrolls : nat) : state :=
  loop limit counts (max_scrolls - scroll_count initial) initial.

(** The value the method returns. *)
Definition scroll_to_load_all (limit : option Z) (counts : nat -> nat)
           (max_scrolls : nat) : nat :=
  last_count (run limit counts max_scrolls).

End Scroll.

(* ================================================================== *)
(** * Listing parser ([_parse_entry_links], [_parse_single_entry]) *)
(* ================================================================== *)

Module Listing.

(** The dictionary [_parse_single_entry] returns.  [path_parts] holds the
    keys [adhyaya], [pada], [sutra] the segmented-path variant adds. *)
Record summary := {
  s_number : str;
  s_title : str;
  s_url : str;
  s_notes : list str;
  s_metadata : Dict.dict str;
  path_parts : option (str * str * str)
}.

Definition KAUMUDI : str := [2325; 2380; 2350; 2369; 2342; 2368].
Definition BULLET : char := 8226.

Definition text_of (e : option located) : option str :=
  option_map (fun x => get_text_strip (here x)) e.

Definition or_empty (o : option str) : str :=
  match o with Some s => s | None => [] end.

Definition href_of (e : located) : option str :=
  match here e with
  | Elem _ _ attrs _ => attr_get (lit "href") attrs
  | Text _ => None
  end.

Definition name_of (n : node) : str :=
  match n with
  | Elem name _ _ _ => name
  | Text _ => []
  end.

(** [while sibling and sibling.name != 'a']: the bullet notes that follow an
    anchor, up to the next anchor. *)
Fixpoint sibling_notes (following : list node) : list str :=
  match following with
  | [] => []
  | Text _ :: r => sibling_notes r
  | (Elem name _ _ _ as sib) :: r =>
      if str_eqb name (lit "a") then []
      else
        let text := get_text_strip sib in
        (if startswith [BULLET] text then [text] else []) ++ sibling_notes r
  end.

Definition SUTRAANI_PREFIX : str := lit "/sutraani/".

(** The path segments of an anchor's target: [href.strip('/').split('/')]. *)
Definition href_parts (href : str) : list str :=
  split (lit "/") (strip_chars (lit "/") href).

Definition parse_sutraani (U : UnicodeTables) (item : located) : option summary :=
  if str_eqb (name_of (here item)) (lit "a")
     && startswith SUTRAANI_PREFIX (or_empty (href_of item))
  then
    let href := or_empty (href_of item) in
    match href_parts href with
    | [_; adhyaya; pada; sutra_num] =>
        if int_ok U adhyaya && int_ok U pada && int_ok U sutra_num then
          let badge := select_one_in [cls "badge"; cls "font-weight-bold"] item in
          let number :=
            match text_of badge with
            | Some t => t
            | None => adhyaya ++ lit "." ++ pada ++ lit "." ++ sutra_num
            end in
          let title_elem :=
            select_one_in
              [cls "sutra-text"; cls "list-item-title";
               Last [STag (lit "div"); SNotClass (lit "badge");
                     SNotClass (lit "float-right")]] item in
          let title := or_empty (text_of title_elem) in
          let kaumudi_elem :=
            select_one_in [cls "float-right"; cls "text-right"; cls "text-dark"] item in
          let kaumudi :=
            match text_of kaumudi_elem with
            | Some text => if contains KAUMUDI text then text else []
            | None => []
            end in
          let title :=
            if nonempty title then title
            else
              let full_text := get_text_strip (here item) in
              let full_text :=
                if nonempty number then remove_first number full_text else full_text in
              let full_text :=
                if nonempty kaumudi then remove_first kaumudi full_text else full_text in
              strip full_text in
          Some {| s_number := number;
                  s_title := title;
                  s_url := BASE_URL ++ href;
                  s_notes := sibling_notes (after item);
                  s_metadata :=
                    if nonempty kaumudi then [(lit "kaumudi", kaumudi)] else [];
                  path_parts := Some (adhyaya, pada, sutra_num) |}
        else None
    | _ => None
    end
  else None.

Definition classes_of (n : node) : list str :=
  match n with
  | Elem _ c _ _ => c
  | Text _ => []
  end.

Definition parse_simple (item : located) : option summary :=
  if has_class (lit "bg-light") (classes_of (here item)) then None
  else
    match select_one_in [Last [STag (lit "a"); SHasAttr (lit "href")]] item with
    | None => None
    | Some link =>
        let href := or_empty (href_of link) in
        if negb (nonempty href) || str_eqb href (lit "#") then None
        else
          let number := or_empty (text_of (select_one_in [cls "badge"] item)) in
          let title := or_empty (text_of (select_one_in [cls "list-item-title"] item)) in
          let full_url :=
            if startswith (lit "/") href then BASE_URL ++ href
            else if startswith (lit "http") href then href
            else BASE_URL ++ lit "/" ++ href in
          let notes :=
            filter nonempty
              (map (fun x => get_text_strip (here x))
                   (select_in [cls "list-item-text"; cls "text-primary"] item)) in
          Some {| s_number := number; s_title := title; s_url := full_url;
                  s_notes := notes; s_metadata := []; path_parts := None |}
    end.

Definition parse_single_entry (U : UnicodeTables) (item : located)
           (book : BookType) : option summary :=
  match book with
  | sutraani => parse_sutraani U item
  | _ => parse_simple item
  end.

(** The anchors or list items a book's listing is read from. *)
Definition entry_items (soup : list node) (book : BookType) : list located :=
  match book with
  | sutraani =>
      select [ Last [STag (lit "a"); SClass (lit "d-block");
                     SAttrPrefix (lit "href") SUTRAANI_PREFIX];
               Last [STag (lit "a"); SAttrPrefix (lit "href") SUTRAANI_PREFIX;
                     SClass (lit "href")] ] soup
  | dhatu =>
      select [ Last [STag (lit "a"); SAttrPrefix (lit "href") (lit "/dhatu/")] ] soup
  | _ =>
      select [ Descendant [SId (lit "list-group-content")]
                          (Last [SClass (lit "list-group-item")]) ] soup
  end.

(** The [for item in items] loop; [found] is [len(results)] so far. *)
Fixpoint collect (U : UnicodeTables) (limit : option Z) (book : BookType)
         (found : nat) (items : list located) : list summary :=
  match items with
  | [] => []
  | item :: r =>
      match parse_single_entry U item book with
      | Some entry_data =>
          entry_data ::
          (if limit_reached limit (S found) then []
           else collect U limit book (S found) r)
      | None => collect U limit book found r
      end
  end.

Definition parse_entry_links (U : UnicodeTables) (limit : option Z)
           (soup : list node) (book : BookType) : list summary :=
  collect U limit book 0 (entry_items soup book).

End Listing.

(* ================================================================== *)
(** * Detail extractor ([_parse_detail_page]) *)
(* ================================================================== *)

(** What the browser answers.  [load n url] is the rendered page of the
    [n]-th page load of the run when it succeeds and the page is not empty,
    [None] when the driver raises or returns nothing; [item_count k] is the
    number of entry anchors present after [k] scrolls, and [scrolled k] the
    page source read back then.  The source counts the anchors, scrolls and
    reads the page back outside every [try]: the sessions described here
    are those in which these calls return. *)
Record World := {
  driver_starts : bool;
  load : nat -> str -> option (list node);
  item_count : nat -> nat;
  scrolled : nat -> list node
}.

Module Detail.

Record detail := {
  d_number : str;
  d_title : str;
  d_content : str;
  d_sections : Dict.dict str
}.

(** "सूत्र-विवरण (Summary)" *)
Definition SUMMARY_KEY : str :=
  [2360; 2370; 2340; 2381; 2352; 45; 2357; 2367; 2357; 2352; 2339]
  ++ lit " (Summary)".

(** The title element's text, and its split at the first space. *)
Definition page_title (soup : list node) : str :=
  match select_one [cls "title-font"; cls "list-group-title"] soup with
  | Some e => get_text_strip (here e)
  | None => []
  end.

Definition title_parts (title : str) : list str :=
  if nonempty title then split1 (lit " ") title else [ []; [] ].

Definition number_of_title (title : str) : str :=
  match title_parts title with
  | p0 :: _ => strip p0
  | [] => []
  end.

Definition entry_title_of (title : str) : str :=
  match title_parts title with
  | _ :: p1 :: _ => strip p1
  | _ => title
  end.

(** One row of the summary region. *)
Definition summary_item (item : located) : list str :=
  let label_elem :=
    select_one_in [cls "col-3"; cls "col-4"; cls "text-muted"; tag "label"] item in
  let value_elem := select_one_in [cls "col-9"; cls "col-8"] item in
  match label_elem, value_elem with
  | Some l, Some v =>
      let label := rstrip_chars (lit ":") (get_text_strip (here l)) in
      let value := get_text_strip (here v) in
      if nonempty label && nonempty value
      then [ lit "**" ++ label ++ lit ":** " ++ value ]
      else []
  | _, _ =>
      let text := get_text_strip (here item) in
      if nonempty text && (List.length text <? 200)%nat then [text] else []
  end.

Definition summary_content (soup : list node) : str :=
  match select_one [Last [SId (lit "sutra-summary-region")]] soup with
  | Some region =>
      let summary_items :=
        flat_map summary_item (select_in [cls "list-group-item"; cls "row"] region) in
      match summary_items with
      | [] => []
      | _ => join [NL; NL] summary_items
      end
  | None => []
  end.

Definition id_of (e : located) : str :=
  match here e with
  | Elem _ _ attrs _ =>
      match attr_get (lit "id") attrs with Some i => i | None => [] end
  | Text _ => []
  end.

(** One turn of the loop over the commentary regions. *)
Definition add_commentary (sections : Dict.dict str) (region : located)
  : Dict.dict str :=
  if contains (lit "sutrartha") (id_of region) then sections
  else
    let section_name :=
      match select_one_in [cls "list-item-title-color"] region with
      | Some t => get_text_strip (here t)
      | None => []
      end in
    if negb (nonempty section_name) then sections
    else
      match select_one_in [cls "sutra-commentary"] region with
      | Some content_elem =>
          let content_text := html_to_markdown (decode_contents (here content_elem)) in
          if nonempty (strip content_text)
          then Dict.set sections section_name content_text
          else sections
      | None => sections
      end.

(** The body of [_parse_detail_page], once the page is there. *)
Definition parse_page (soup : list node) : detail :=
  let title := page_title soup in
  let number := number_of_title title in
  let entry_title := entry_title_of title in
  let summary_content := summary_content soup in
  let short_meaning :=
    match select_one [cls "bigtext-font"; cls "sutra-meaning-short"] soup with
    | Some e => lit "**" ++ get_text_strip (here e) ++ lit "**"
    | None => []
    end in
  let main_content :=
    match select_one
            [Descendant [SId (lit "sutra-commentary-sutrartha-region")]
                        (Last [SClass (lit "sutra-commentary")])] soup with
    | Some sutrartha => html_to_markdown (decode_contents (here sutrartha))
    | None => []
    end in
  let main_content :=
    if nonempty short_meaning && nonempty main_content
    then short_meaning ++ [NL; NL] ++ main_content
    else if nonempty short_meaning then short_meaning
    else main_content in
  let sections :=
    if nonempty summary_content then [(SUMMARY_KEY, summary_content)] else [] in
  let commentary_regions :=
    select [Last [SAttrPrefix (lit "id") (lit "sutra-commentary-");
                  SAttrSuffix (lit "id") (lit "-region")]] soup in
  let sections := fold_left add_commentary commentary_regions sections in
  let main_content :=
    if nonempty main_content then main_content
    else
      match select_one [cls "bigtext-font"; cls "font-weight-bold"] soup with
      | Some first_content => get_text_strip (here first_content)
      | None => main_content
      end in
  {| d_number := number; d_title := entry_title;
     d_content := main_content; d_sections := sections |}.

(** [_parse_detail_page]: the [req]-th page load of the run. *)
Definition parse_detail_page (W : World) (req : nat) (url : str) : option detail :=
  match load W req url with
  | None => None
  | Some soup => Some (parse_page soup)
  end.

End Detail.

(* ================================================================== *)
(** * The run ([scrape_book]) *)
(* ================================================================== *)

Module Run.

Import Listing Detail.

Inductive result (A : Type) :=
| Ok (a : A)
| Raised (msg : str).
Arguments Ok {A} a.
Arguments Raised {A} msg.

(** [str(i)] *)
Definition str_of_nat (i : nat) : str :=
  lit (NilEmpty.string_of_uint (Nat.to_uint i)).

(** [if self.limit and i > self.limit] *)
Definition limit_passed (limit : option Z) (i : nat) : bool :=
  match limit with
  | None => false
  | Some l => negb (l =? 0)%Z && (l <? Z.of_nat i)%Z
  end.

(** The entry built from a listing summary and the detail result. *)
Definition make_entry (i : nat) (data : summary) (detail : option detail)
  : EntryInfo :=
  let entry_number :=
    if nonempty (s_number data) then s_number data
    else match detail with
         | Some d => d_number d
         | None => str_of_nat i
         end in
  let entry_title :=
    if nonempty (s_title data) then s_title data
    else match detail with
         | Some d => d_title d
         | None => []
         end in
  {| number := entry_number;
     title := entry_title;
     url := s_url data;
     content := match detail with Some d => d_content d | None => [] end;
     sections := match detail with Some d => d_sections d | None => [] end;
     notes := s_notes data;
     metadata := s_metadata data |}.

(** [for i, data in enumerate(entries_data, 1)]; [req] numbers the page
    loads of the run. *)
Fixpoint scrape_entries (limit : option Z) (W : World) (i req : nat)
         (entries_data : list summary) : list EntryInfo :=
  match entries_data with
  | [] => []
  | data :: r =>
      if limit_passed limit i then []
      else
        make_entry i data (parse_detail_page W req (s_url data))
        :: scrape_entries limit W (S i) (S req) r
  end.

Definition parse_main_page_header (soup : list node) : str * list str * str :=
  let main_title :=
    match select_one [cls "list-group-title"] soup with
    | Some e => get_text_strip (here e)
    | None => []
    end in
  let header_items :=
    select
      [ Child [SId (lit "list-group-content")]
              (Last [SClass (lit "bg-light"); SClass (lit "list-group-item")]);
        Child [SId (lit "list-group-content")]
              (Last [SClass (lit "list-group-item"); SClass (lit "bg-light")]);
        Last [SClass (lit "list-group-item"); SClass (lit "text-center");
              SClass (lit "bg-light")] ] soup in
  let header_shlokas :=
    flat_map
      (fun item =>
         let text := get_text_strip (here item) in
         match select_one_in [Last [STag (lit "a"); SHasAttr (lit "href")]] item with
         | None => if nonempty text then [text] else []
         | Some _ => []
         end) header_items in
  let footer_title :=
    match select_one [cls "list-group-end-title"] soup with
    | Some e => get_text_strip (here e)
    | None => []
    end in
  (main_title, header_shlokas, footer_title).

Definition book_key (b : BookType) : str :=
  match b with
  | shivasutra => lit "shivasutra" | sutraani => lit "sutraani"
  | dhatu => lit "dhatu" | pratyahara => lit "pratyahara"
  | ganapatha => lit "ganapatha" | unadipatha => lit "unadipatha"
  | linganushasanam => lit "linganushasanam" | shiksha => lit "shiksha"
  end.

(** The listing as it is parsed: read back after the scrolling when the
    book needs it, else the page first loaded. *)
Definition listing_page (limit : option Z) (W : World) (config : BookConfig)
           (html : list node) : list node :=
  if has_infinite_scroll config
  then scrolled W (Scroll.scroll_count
                     (Scroll.run limit (item_count W) Scroll.max_scrolls_default))
  else html.

Definition scrape_book (U : UnicodeTables) (limit : option Z) (W : World)
           (book_name : BookType) : result BookInfo :=
  let config := BOOK_CONFIGS book_name in
  if negb (driver_starts W) then Raised (lit "driver")
  else
    match load W 0 (cfg_url config) with
    | None => Raised (lit "Failed to load main page")
    | Some html =>
        let soup := listing_page limit W config html in
        let '(sanskrit_name, header_shlokas, footer_title) :=
          parse_main_page_header soup in
        let entries_data := parse_entry_links U limit soup book_name in
        let chapter :=
          {| ch_number := lit "1"; ch_name := book_key book_name;
             ch_url := cfg_url config;
             entries := scrape_entries limit W 1 1 entries_data |} in
        Ok {| name := book_name;
              sanskrit_name := sanskrit_name;
              header_shlokas := header_shlokas;
              footer_title := footer_title;
              base_url := cfg_url config;
              book_type := book_name;
              chapters := [chapter] |}
    end.

End Run.

Import Listing Detail Run.

(** The digit tables of Unicode 14.0, the version CPython 3.11 ships: the
    zero of every run of ten decimal digits (the mathematical digits at
    U+1D7CE are five runs), and the other characters for which
    [str.isdigit] holds, as inclusive ranges. *)
Definition decimal_zeros : list N :=
  [ 1632; 1776; 1984; 2406; 2534; 2662; 2790; 2918; 3046; 3174; 3302; 3430;
    3558; 3664; 3792; 3872; 4160; 4240; 6112; 6160; 6470; 6608; 6784; 6800;
    6992; 7088; 7232; 7248; 42528; 43216; 43264; 43472; 43504; 43600; 44016;
    65296; 66720; 68912; 69734; 69872; 69942; 70096; 70384; 70736; 70864;
    71248; 71360; 71472; 71904; 72016; 72784; 73040; 73120; 92768; 92864;
    93008; 120782; 120792; 120802; 120812; 120822; 123200; 123632; 125264;
    130032 ].

Definition other_digits : list (N * N) :=
  [ (178, 179); (185, 185); (4969, 4977); (6618, 6618); (8304, 8304);
    (8308, 8313); (8320, 8329); (9312, 9320); (9332, 9340); (9352, 9360);
    (9450, 9450); (9461, 9469); (9471, 9471); (10102, 10110);
    (10112, 10120); (10122, 10130); (68160, 68163); (69216, 69224);
    (69714, 69722); (127232, 127242) ].

Definition unicode_14 : UnicodeTables :=
  let decimal c := existsb (fun z => (z <=? c) && (c <? z + 10)) decimal_zeros in
  {| uni_decimal := decimal;
     uni_digit := fun c =>
       decimal c || existsb (fun r => (fst r <=? c) && (c <=? snd r)) other_digits |}.

(* ================================================================== *)
(** * Vocabulary of the properties *)
(* ================================================================== *)

(** An entry with a given number and nothing else of interest. *)
Definition entry_numbered (n : str) : EntryInfo :=
  {| number := n; title := []; url := []; content := []; sections := [];
     notes := []; metadata := [] |}.

(** Numeral normalisation as the specification words it: a Devanagari or
    Gujarati digit becomes the ASCII digit of the same value, any other
    character stays. *)
Definition digit_value (c : char) : option N :=
  if (2406 <=? c) && (c <=? 2415) then Some (c - 2406)
  else if (2790 <=? c) && (c <=? 2799) then Some (c - 2790)
  else None.

Definition ascii_equivalent (c : char) : char :=
  match digit_value c with
  | Some d => 48 + d
  | None => c
  end.

(** A string with something other than white space in it. *)
Definition nonblank (s : str) : bool := nonempty (strip s).

(** One part of a well-formed number: ASCII digits, at least one, the first
    not a zero. *)
Definition wf_part (p : str) : bool :=
  match p with
  | [] => false
  | c :: _ => negb (c =? 48) && forallb ascii_digit p
  end.

(** A well-formed number for an organisation mode: once its digits are
    normalised, dot-separated well-formed parts; three at most where the
    third part names the file. *)
Definition well_formed (org : Organize) (n : str) : bool :=
  let parts := split (lit ".") (deva_to_english n) in
  forallb wf_part parts &&
  match org with
  | adhyaya_pada => (List.length parts <=? 3)%nat
  | _ => true
  end.

(** The count the crawler compares with: that of the turn before, zero at
    the first turn. *)
Definition previous_count (counts : nat -> nat) (k : nat) : nat :=
  match k with
  | O => 0%nat
  | S j => counts j
  end.

(** Turn [k] is the fifth of five turns in a row that measured the count
    of the turn before. *)
Definition stalled_at (counts : nat -> nat) (k : nat) : Prop :=
  (4 <= k)%nat
  /\ forall i, (i < 5)%nat -> counts (k - i)%nat = previous_count counts (k - i).

(** An anchor of the segmented-path listing whose target has exactly four
    segments, the last three of them integers. *)
Definition valid_sutra_href (U : UnicodeTables) (href : str) : bool :=
  match href_parts href with
  | [_; a; p; s] => int_ok U a && int_ok U p && int_ok U s
  | _ => false
  end.

Definition is_sutraani_anchor (item : located) : bool :=
  str_eqb (name_of (here item)) (lit "a")
  && startswith SUTRAANI_PREFIX (or_empty (href_of item)).

(** [limit] puts no bound on a run. *)
Definition unlimited (limit : option Z) : bool :=
  match limit with
  | None => true
  | Some l => (l =? 0)%Z
  end.

(** Nothing for [strip] to take at the front of a string, and at either
    end. *)
Definition solid_head (drop : char -> bool) (s : str) : Prop :=
  match s with
  | [] => True
  | c :: _ => drop c = false
  end.

Definition solid (drop : char -> bool) (s : str) : Prop :=
  solid_head drop s /\ solid_head drop (rev s).

(** A page whose title element reads "1.1.1" and nothing more. *)
Definition page_titled_1_1_1 : list node :=
  [ Elem (lit "div") [lit "title-font"] [] [Text (lit " 1.1.1 ")] ].

Definition world_of_page (page : list node) : World :=
  {| driver_starts := true;
     load := fun _ _ => Some page;
     item_count := fun _ => 0%nat;
     scrolled := fun _ => page |}.

Definition values_nonblank (d : Dict.dict str) : Prop :=
  Forall (fun kv => nonblank (snd kv) = true) d.

(** What a summary line starts with. *)
Definition solid_start (s : str) : Prop :=
  match s with
  | [] => False
  | c :: _ => isspace c = false
  end.

(** A page with a summary row and one commentary region. *)
Definition page_with_sections : list node :=
  [ Elem (lit "div") [] [(lit "id", lit "sutra-summary-region")]
      [ Elem (lit "div") [lit "row"] []
          [ Elem (lit "div") [lit "col-3"] [] [Text (lit "pada:")];
            Elem (lit "div") [lit "col-9"] [] [Text (lit "vrddhih")] ] ];
    Elem (lit "div") [] [(lit "id", lit "sutra-commentary-kashika-region")]
      [ Elem (lit "span") [lit "list-item-title-color"] [] [Text (lit "Kashika")];
        Elem (lit "div") [lit "sutra-commentary"] []
          [ Text (lit "first "); Elem (lit "b") [] [] [Text (lit "word")] ] ] ].


(** The state a turn of the crawl loop leaves, whether it breaks or goes
    on. *)
Definition state_after (f : Scroll.flow) : Scroll.state :=
  match f with
  | Scroll.Break st => st
  | Scroll.Next st => st
  end.

(** Item counts that only go down: a thousand at first, one less at every
    turn. *)
Definition shrinking_counts (k : nat) : nat := (1000 - k)%nat.

(** Item counts that grow for five turns and then stay. *)
Definition settling_counts (k : nat) : nat := (10 * Nat.min k 5)%nat.

(** What the crawl loop keeps true: the count it compares with is the one
    measured at the turn before. *)
Definition remembers (counts : nat -> nat) (st : Scroll.state) : Prop :=
  Scroll.last_count st = previous_count counts (Scroll.scroll_count st).

(** What the stall counter counts: the turns just before the present one
    that measured the count of the turn before them. *)
Definition counted (counts : nat -> nat) (st : Scroll.state) : Prop :=
  remembers counts st
  /\ (Scroll.no_change_count st <= Scroll.scroll_count st)%nat
  /\ forall i, (i < Scroll.no_change_count st)%nat ->
                counts (Scroll.scroll_count st - 1 - i)%nat
                = previous_count counts (Scroll.scroll_count st - 1 - i).

(** A limit that makes sense: none, or not negative. *)
Definition limit_sound (limit : option Z) : Prop :=
  match limit with
  | Some l => (0 <= l)%Z
  | None => True
  end.

(** The entries of the book a run returns. *)
Definition book_entries (r : result BookInfo) : list EntryInfo :=
  match r with
  | Ok book => flat_map entries (chapters book)
  | Raised _ => []
  end.

(** The entry kept for a listing summary whose detail page did not load. *)
Definition entry_without_detail (i : nat) (data : summary) : EntryInfo :=
  {| number := if nonempty (s_number data) then s_number data else str_of_nat i;
     title := s_title data;
     url := s_url data;
     content := [];
     sections := [];
     notes := s_notes data;
     metadata := s_metadata data |}.

(** A flat listing of one item that carries no number badge, served by a
    browser that loads the listing and fails on every page after it. *)
Definition listing_without_badge : list node :=
  [ Elem (lit "div") [] [(lit "id", lit "list-group-content")]
      [ Elem (lit "div") [lit "list-group-item"] []
          [ Elem (lit "a") [] [(lit "href", lit "/shivasutra/1")]
              [ Elem (lit "span") [lit "list-item-title"] [] [Text (lit "a i u N")] ] ] ] ].

Definition world_failing_details (listing : list node) : World :=
  {| driver_starts := true;
     load := fun n _ => match n with O => Some listing | S _ => None end;
     item_count := fun _ => 0%nat;
     scrolled := fun _ => listing |}.

(** The target of an anchor, the empty string when it has none. *)
Definition href (item : located) : str := or_empty (href_of item).

(** Two anchors of the segmented-path listing styled as entries, and a third
    that has the same kind of target and no style class. *)
Definition sutra_anchor (classes : list str) (target : string) : node :=
  Elem (lit "a") classes [(lit "href", lit target)] [Text (lit "sutra")].

Definition listing_of_three : list node :=
  [ sutra_anchor [lit "d-block"] "/sutraani/1/1/1";
    sutra_anchor [lit "d-block"] "/sutraani/1/1/2";
    sutra_anchor [] "/sutraani/1/1/3" ].

(** The three anchors as they are found in the listing. *)
Definition first_anchor : located :=
  {| here := sutra_anchor [lit "d-block"] "/sutraani/1/1/1"; up := [];
     after := [ sutra_anchor [lit "d-block"] "/sutraani/1/1/2";
                sutra_anchor [] "/sutraani/1/1/3" ] |}.

Definition second_anchor : located :=
  {| here := sutra_anchor [lit "d-block"] "/sutraani/1/1/2"; up := [];
     after := [ sutra_anchor [] "/sutraani/1/1/3" ] |}.

Definition third_anchor : located :=
  {| here := sutra_anchor [] "/sutraani/1/1/3"; up := []; after := [] |}.

(** The file name the flat scheme gives the parts of a number. *)
Definition flat_name (parts : list str) : str :=
  lit "entry_" ++ join (lit "_") (map (zfill 2) parts) ++ lit ".md".

(** A listing summary that carries a number and a URL and nothing else. *)
Definition summary_numbered (n : str) (target : string) : summary :=
  {| s_number := n; s_title := []; s_url := lit target; s_notes := [];
     s_metadata := []; path_parts := None |}.

(** The path components the parts of a number lead to. *)
Definition path_of_parts (org : Organize) (parts : list str) : list str :=
  match org, parts with
  | adhyaya_pada, [p0; p1; p2] =>
      [ lit "adhyaya_" ++ p0; lit "pada_" ++ p1;
        lit "sutra_" ++ zfill 3 p2 ++ lit ".md" ]
  | _, _ => [ flat_name parts ]
  end.

(** The path components a number leads to, by the parts of its normalised
    form: three parts or more under the hierarchical mode give the
    directories of the first two and the file of the third, anything else
    the file name of the flat scheme. *)
Definition path_by_parts (U : UnicodeTables) (org : Organize) (entry : EntryInfo)
  : list str :=
  match org, split (lit ".") (deva_to_english (number entry)) with
  | adhyaya_pada, p0 :: p1 :: p2 :: _ =>
      [ lit "adhyaya_" ++ p0; lit "pada_" ++ p1;
        lit "sutra_" ++ zfill 3 p2 ++ lit ".md" ]
  | _, _ => [ get_entry_filename U entry ]
  end.

(** The number 1.2.15 written with Devanagari digits. *)
Definition deva_1_2_15 : str := [2407; 46; 2408; 46; 2407; 2411].

(** A pattern with no newline and no punctuation mark in it, and not
    empty. *)
Definition steady (P : str) : bool :=
  nonempty P && forallb (fun c => negb (c =? NL) && negb (is_punct c)) P.

Definition NNN : str := [NL; NL; NL].

(** White space stands before a punctuation mark somewhere in a string. *)
Fixpoint space_before_punct (s : str) : bool :=
  match s with
  | [] => false
  | c :: r => (isspace c && punct_ahead r) || space_before_punct r
  end.

Definition no_newline (P : str) : bool := forallb (fun c => negb (c =? NL)) P.
Definition no_punct (P : str) : bool := forallb (fun c => negb (is_punct c)) P.


(** A derivation followed by a quoted derivation: the second pass sees one
    paragraph and splits the quotation too. *)
Definition quoted_derivation : list node :=
  [ Elem (lit "div") [lit "mt-3"] []
      [ Text (lit "a " ++ [ARROW] ++ lit " b") ];
    Elem (lit "div") [lit "prakriya"] []
      [ Text (lit "x " ++ [ARROW] ++ lit " y") ] ].

(** A fragment with a heading, a quotation, a rule, bold text and a link. *)
Definition structured_fragment : list node :=
  [ Elem (lit "h3") [] [] [ Text (lit "Title") ];
    Text (lit "  some   text ,  here ");
    Elem (lit "div") [lit "prakriya"] [] [ Text (lit "quoted  words") ];
    Elem (lit "hr") [] [] [];
    Elem (lit "b") [] [] [ Text (lit "bold") ];
    Elem (lit "a") [] [(lit "href", lit "/x")] [ Text (lit "link") ] ].

(** The text as the removal of empty bold pairs finds it: blanks collapsed,
    paragraphs formatted and joined, newlines squeezed. *)
Definition squeezed_text (text : str) : str :=
  squeeze_newlines
    (join [NL; NL] (result_paragraphs (split SENTINEL (collapse_blanks text)))).

(** A match of the empty bold pair starts somewhere in a string. *)
Fixpoint has_empty_bold (s : str) : bool :=
  match s with
  | [] => false
  | _ :: r =>
      match empty_bold_at s with Some _ => true | None => false end
      || has_empty_bold r
  end.

(* ================================================================== *)
(** * The index of the README ([_create_readme], the loop over entries) *)
(* ================================================================== *)

Module Readme.

(** [entry.metadata.get(key)] taken as a condition, and
    [entry.metadata.get(key, default)]. *)
Definition has_value (d : Dict.dict str) (key : string) : bool :=
  match Dict.get d (lit key) with
  | Some v => nonempty v
  | None => false
  end.

Definition get_or (d : Dict.dict str) (key : string) (default : str) : str :=
  match Dict.get d (lit key) with
  | Some v => v
  | None => default
  end.

(** The link target the index gives an entry. *)
Definition index_filepath (U : UnicodeTables) (org : Organize) (entry : EntryInfo)
  : str :=
  let eng_num := deva_to_english (number entry) in
  let hierarchical := match org with adhyaya_pada => true | _ => false end in
  if hierarchical && has_value (metadata entry) "adhyaya" then
    let adhyaya := get_or (metadata entry) "adhyaya" (lit "1") in
    let pada := get_or (metadata entry) "pada" (lit "1") in
    let sutra := get_or (metadata entry) "sutra" (lit "1") in
    lit "adhyaya_" ++ adhyaya ++ lit "/pada_" ++ pada
    ++ lit "/sutra_" ++ zfill 3 sutra ++ lit ".md"
  else if mem 46 eng_num && hierarchical then
    match split (lit ".") eng_num with
    | p0 :: p1 :: p2 :: _ =>
        lit "adhyaya_" ++ p0 ++ lit "/pada_" ++ p1
        ++ lit "/sutra_" ++ zfill 3 p2 ++ lit ".md"
    | _ => get_entry_filename U entry
    end
  else get_entry_filename U entry.

(** The row of the index table for an entry. *)
Definition index_row (U : UnicodeTables) (org : Organize) (entry : EntryInfo) : str :=
  let filepath := index_filepath U org entry in
  let extra :=
    if has_value (metadata entry) "kaumudi"
    then lit " (" ++ get_or (metadata entry) "kaumudi" [] ++ lit ")"
    else [] in
  lit "| " ++ number entry ++ lit " | **" ++ title entry ++ lit "**" ++ extra
  ++ lit " | [" ++ filepath ++ lit "](./" ++ filepath ++ lit ") |" ++ [NL].

(** The rows of the index: chapter after chapter, entry after entry. *)
Definition index_rows (U : UnicodeTables) (book : BookInfo) : str :=
  let org := organize_by (BOOK_CONFIGS (book_type book)) in
  List.concat
    (map (index_row U org) (flat_map entries (chapters book))).

End Readme.

Import Readme.

(* ------------------------------------------------------------------ *)
(** ** [_create_entry_markdown]: the document written for an entry      *)
(* ------------------------------------------------------------------ *)

Module EntryPage.

(** The opening of the document, up to the number. *)
Definition HEAD : str := lit "<div align=" ++ [34] ++ lit "center" ++ [34; 62; NL; NL; 35; 32].

(** The label of the source link. *)
Definition SOURCE_LABEL : str :=
  [128214; 32; 42; 42; 2360; 2381; 2352; 2379; 2340; 2307; 58; 42; 42; 32; 91].

(** The heading of the explanation. *)
Definition EXPLANATION_HEAD : str :=
  [41; NL; NL] ++ lit "</div>" ++ [NL; NL] ++ lit "---" ++ [NL; NL]
  ++ lit "## " ++ [128220; 32; 2357; 2367; 2357; 2352; 2339; 2350; 2381; 32]
  ++ lit "(Explanation)" ++ [NL; NL].

(** What stands for an explanation that is missing. *)
Definition NO_CONTENT : str :=
  [42; 2357; 2367; 2357; 2352; 2339; 2306; 32; 2309; 2344; 2369; 2346; 2354;
   2348; 2381; 2343; 2350; 2381; 42].

(** The heading of the notes. *)
Definition NOTES_HEAD : str :=
  lit "---" ++ [NL; NL] ++ lit "## "
  ++ [128221; 32; 2335; 2367; 2346; 2381; 2346; 2339; 2368; 32]
  ++ lit "(Notes)" ++ [NL; NL].

(** The opening of a section, up to its name. *)
Definition SECTION_HEAD : str :=
  lit "---" ++ [NL; NL] ++ lit "## " ++ [128214; 32].

(** The navigation footer. *)
Definition FOOTER : str :=
  lit "---" ++ [NL; NL] ++ lit "<div align=" ++ [34] ++ lit "center" ++ [34; 62; NL; NL]
  ++ [91; 127968; 32; 2350; 2369; 2326; 2381; 2351; 2346; 2371; 2359; 2381;
      2336; 2350; 2381; 93]
  ++ lit "(./README.md)" ++ [NL; NL] ++ lit "</div>" ++ [NL].

(** [section_content.strip() and not section_name.startswith("Additional_")] *)
Definition renders (section : str * str) : bool :=
  nonempty (strip (snd section))
  && negb (startswith (lit "Additional_") (fst section)).

(** The sections the document shows, in the order of the mapping. *)
Definition rendered_sections (entry : EntryInfo) : list (str * str) :=
  filter renders (sections entry).

Definition section_block (section : str * str) : str :=
  SECTION_HEAD ++ fst section ++ [NL; NL] ++ snd section ++ [NL; NL].

Definition note_line (note : str) : str := lit "- " ++ note ++ [NL].

Definition create_entry_markdown (entry : EntryInfo) (book : BookInfo) : str :=
  let md := HEAD ++ number entry ++ lit ". " ++ title entry ++ [NL; NL] in
  let md :=
    if has_value (metadata entry) "kaumudi"
    then md ++ lit "**" ++ get_or (metadata entry) "kaumudi" [] ++ lit "**" ++ [NL; NL]
    else md in
  let md :=
    md ++ SOURCE_LABEL ++ url entry ++ lit "](" ++ url entry ++ EXPLANATION_HEAD
    ++ (if nonempty (content entry) then content entry else NO_CONTENT)
    ++ [NL; NL] in
  let md :=
    match notes entry with
    | [] => md
    | _ :: _ => md ++ NOTES_HEAD ++ List.concat (map note_line (notes entry)) ++ [NL]
    end in
  let md := md ++ List.concat (map section_block (rendered_sections entry)) in
  md ++ FOOTER.

End EntryPage.

Import EntryPage.

(** The sections of an entry whose name does not mark them as additional. *)
Definition named_sections (entry : EntryInfo) : list (str * str) :=
  filter (fun section => negb (startswith (lit "Additional_") (fst section)))
         (sections entry).

(** An entry with its number written anew. *)
Definition renumbered (e : EntryInfo) (n : str) : EntryInfo :=
  {| number := n; title := title e; url := url e; content := content e;
     sections := sections e; notes := notes e; metadata := metadata e |}.

(** A listing of the segmented-path book with one entry anchor that carries
    a citation, served by a browser that loads every page. *)
Definition listing_with_citation : list node :=
  [ Elem (lit "a") [lit "d-block"] [(lit "href", lit "/sutraani/1/1/1")]
      [ Elem (lit "span") [lit "badge"] [] [ Text [2407; 46; 2407; 46; 2407] ];
        Elem (lit "span") [lit "sutra-text"] [] [ Text (lit "vrddhir adaic") ];
        Elem (lit "span") [lit "float-right"] [] [ Text (KAUMUDI ++ lit " 16") ] ];
    Elem (lit "div") [] [] [ Text (BULLET :: lit " note") ] ].

(** The metadata a listing summary may carry: nothing, or the citation
    under the key [kaumudi]. *)
Definition citation_only (m : Dict.dict str) : Prop :=
  m = [] \/ exists k, m = [(lit "kaumudi", k)] /\ contains KAUMUDI k = true.

(** A browser that loads the given listing first and the given page for
    every entry. *)
Definition world_of (listing page : list node) : World :=
  {| driver_starts := true;
     load := fun n _ => match n with O => Some listing | S _ => Some page end;
     item_count := fun _ => 1%nat;
     scrolled := fun _ => listing |}.

(** How the flat-list variant makes a link target absolute. *)
Definition resolved (target : str) : str :=
  if startswith (lit "/") target then BASE_URL ++ target
  else if startswith (lit "http") target then target
  else BASE_URL ++ lit "/" ++ target.

(** The book is read as a flat list: every book but the segmented-path
    one. *)
Definition flat_listed (b : BookType) : bool :=
  match b with
  | sutraani => false
  | _ => true
  end.

(** A flat listing: the preamble item, an item without link, an item whose
    link goes nowhere, and two entries. *)
Definition flat_listing : list node :=
  [ Elem (lit "div") [] [(lit "id", lit "list-group-content")]
      [ Elem (lit "div") [lit "list-group-item"; lit "bg-light"] []
          [ Elem (lit "a") [] [(lit "href", lit "/shiksha/0")] [Text (lit "preamble")] ];
        Elem (lit "div") [lit "list-group-item"] [] [ Text (lit "no link") ];
        Elem (lit "div") [lit "list-group-item"] []
          [ Elem (lit "a") [] [(lit "href", lit "#")] [Text (lit "nowhere")] ];
        Elem (lit "div") [lit "list-group-item"] []
          [ Elem (lit "span") [lit "badge"] [] [Text (lit "1")];
            Elem (lit "a") [] [(lit "href", lit "/shiksha/1")]
              [ Elem (lit "span") [lit "list-item-title"] [] [Text (lit "one")] ];
            Elem (lit "span") [lit "list-item-text"] [] [Text (lit " a note ")];
            Elem (lit "span") [lit "text-primary"] [] [Text (lit "  ")] ];
        Elem (lit "div") [lit "list-group-item"] []
          [ Elem (lit "a") [] [(lit "href", lit "shiksha/2")] [Text (lit "two")] ] ] ].

(** The entries built from the summaries of a listing, one after another:
    the summary at position [i] with the detail result of page load
    [req]. *)
Fixpoint merge_all (W : World) (i req : nat) (listing : list summary)
  : list EntryInfo :=
  match listing with
  | [] => []
  | data :: r =>
      make_entry i data (parse_detail_page W req (s_url data))
      :: merge_all W (S i) (S req) r
  end.

(** The regions a detail page is searched for, as the extractor names
    them. *)
Definition short_meaning_region : selector :=
  [cls "bigtext-font"; cls "sutra-meaning-short"].
Definition explanation_region : selector :=
  [Descendant [SId (lit "sutra-commentary-sutrartha-region")]
              (Last [SClass (lit "sutra-commentary")])].
Definition summary_region : selector := [Last [SId (lit "sutra-summary-region")]].
Definition commentary_regions : selector :=
  [Last [SAttrPrefix (lit "id") (lit "sutra-commentary-");
         SAttrSuffix (lit "id") (lit "-region")]].
Definition fallback_region : selector :=
  [cls "bigtext-font"; cls "font-weight-bold"].

(** The names under which a dictionary holds values. *)
Definition keys {V : Type} (d : Dict.dict V) : list str := map fst d.

(** What a commentary region gives the sections: its title and the text of
    its commentary, when the region is not the explanation, has a title
    and has a commentary that is not blank. *)
Definition commentary_pair (region : located) : option (str * str) :=
  if contains (lit "sutrartha") (id_of region) then None
  else
    match select_one_in [cls "list-item-title-color"] region,
          select_one_in [cls "sutra-commentary"] region with
    | Some t, Some content_elem =>
        let text := html_to_markdown (decode_contents (here content_elem)) in
        if nonempty (get_text_strip (here t)) && nonempty (strip text)
        then Some (get_text_strip (here t), text)
        else None
    | _, _ => None
    end.

(** A region gives a value to a name. *)
Definition names (name : str) (region : located) : Prop :=
  exists value, commentary_pair region = Some (name, value).

(** A page whose title reads a number, a space and a phrase, with a
    commentary region named twice. *)
Definition page_two_regions : list node :=
  [ Elem (lit "div") [lit "title-font"] [] [Text (lit "1.1.1 vrddhir adaic")];
    Elem (lit "div") [] [(lit "id", lit "sutra-commentary-kashika-region")]
      [ Elem (lit "span") [lit "list-item-title-color"] [] [Text (lit "Kashika")];
        Elem (lit "div") [lit "sutra-commentary"] [] [Text (lit "first")] ];
    Elem (lit "div") [] [(lit "id", lit "sutra-commentary-nyasa-region")]
      [ Elem (lit "span") [lit "list-item-title-color"] [] [Text (lit "Kashika")];
        Elem (lit "div") [lit "sutra-commentary"] [] [Text (lit "second")] ] ].

(** Its two commentary regions as the selection finds them. *)
Definition first_region : located :=
  nth 0 (select commentary_regions page_two_regions)
      {| here := Text []; up := []; after := [] |}.

Definition second_region : located :=
  nth 1 (select commentary_regions page_two_regions)
      {| here := Text []; up := []; after := [] |}.

(** The text of a fragment as the cleaning finds it: the tree rewritten and
    flattened with single spaces. *)
Definition flattened (doc : list node) : str :=
  get_text_sep (lit " ") (rewrite_all doc).

(** A string of white space, the empty string included. *)
Definition white (s : str) : Prop := forallb isspace s = true.

(** Some element of a tree, at any depth, has a head that passes a test. *)
Fixpoint some_element (p : head -> bool) (n : node) : bool :=
  match n with
  | Text _ => false
  | Elem name cls attrs ch =>
      p {| h_name := name; h_classes := cls; h_attrs := attrs |}
      || existsb (some_element p) ch
  end.

(** The elements the transformer writes a rule for. *)
Definition is_rule (h : head) : bool :=
  selector_ok [cls "section-separator"; tag "hr"] [] h.

(** What a pass writes for an element whose text is white space, when the
    element is not a rule, is white space. *)
Definition harmless (sel : selector) (f : node -> option str) : Prop :=
  forall name cls attrs ch,
    Forall white (strings (Elem name cls attrs ch)) ->
    is_rule {| h_name := name; h_classes := cls; h_attrs := attrs |} = false ->
    selector_ok sel [] {| h_name := name; h_classes := cls; h_attrs := attrs |} = true ->
    match f (Elem name cls attrs ch) with
    | Some s => white s
    | None => True
    end.

(** A fragment with nothing but white space in it. *)
Definition blank_fragment : list node :=
  [ Elem (lit "p") [] [] [ Text (lit "   ") ]; Text [9; 10; 160] ].

(** A paragraph of derivation steps, one of them blank. *)
Definition derivation_text : str :=
  lit "bhU " ++ [ARROW] ++ lit " bhav a " ++ [ARROW] ++ lit "  " ++ [ARROW]
  ++ lit " bhavati".


(** ** The output of the transformer, cut at its arrows *)

(** The first character of a string is a punctuation mark. *)
Definition punct_at (s : str) : bool :=
  match s with
  | c :: _ => is_punct c
  | [] => false
  end.

(** A text with a space put after every arrow that a punctuation mark
    follows. *)
Fixpoint respaced (s : str) : str :=
  match s with
  | [] => []
  | c :: r =>
      if (c =? ARROW) && punct_at r then c :: 32 :: respaced r
      else c :: respaced r
  end.

(** A text that is not empty, starts and ends with something other than
    white space, and has no arrow in it. *)
Definition firm (y : str) : Prop :=
  (exists c r, y = c :: r /\ isspace c = false)
  /\ (exists z d, y = z ++ [d] /\ isspace d = false)
  /\ mem ARROW y = false.

(** A line of the joined paragraphs: nothing, a firm text, or the arrow and
    a space before a firm text. *)
Inductive line : str -> Prop :=
| line_none : line []
| line_text (y : str) : firm y -> line y
| line_step (y : str) : firm y -> line (ARROW :: 32 :: y).












(** Item counts that grow by three at every turn. *)
Definition growing_counts (k : nat) : nat := (3 * S k)%nat.

(** A run of ASCII digits, at least one. *)
Definition digits (s : str) : bool := nonempty s && forallb ascii_digit s.

(** A digit run the interpreter converts: 4300 digits at most. *)
Definition short (s : str) : bool := (List.length s <=? PyInt.MAX_STR_DIGITS)%nat.

(** The target the configuration gives the page of a sutra. *)
Definition sutra_target (a p s : str) : str :=
  lit "/sutraani/" ++ a ++ lit "/" ++ p ++ lit "/" ++ s.

(** The order of strings, character by character, that sorts file names. *)
Fixpoint str_ltb (a b : str) : bool :=
  match a, b with
  | [], [] => false
  | [], _ :: _ => true
  | _ :: _, [] => false
  | x :: a', y :: b' => (x <? y) || ((x =? y) && str_ltb a' b')
  end.

(** The flat file name of a number written in decimal. *)
Definition flat_name_of_nat (U : UnicodeTables) (i : nat) : str :=
  get_entry_filename U (entry_numbered (str_of_nat i)).

(** The header texts of the book a run returns. *)
Definition book_header (r : result BookInfo) : list str :=
  match r with
  | Ok book => header_shlokas book
  | Raised _ => []
  end.

(** A detail page with two commentary regions, the title of the second one
    starting with [Additional_]. *)
Definition page_with_additional : list node :=
  [ Elem (lit "div") [] [(lit "id", lit "sutra-commentary-kashika-region")]
      [ Elem (lit "span") [lit "list-item-title-color"] [] [Text (lit "Kashika")];
        Elem (lit "div") [lit "sutra-commentary"] [] [ Text (lit "first") ] ];
    Elem (lit "div") [] [(lit "id", lit "sutra-commentary-more-region")]
      [ Elem (lit "span") [lit "list-item-title-color"] []
          [Text (lit "Additional_1")];
        Elem (lit "div") [lit "sutra-commentary"] [] [ Text (lit "second") ] ] ].


(* ================================================================== *)
(** * Properties of the identifier and path model *)
(* ================================================================== *)

Lemma table_get_ascii_equivalent (c : char) :
  table_get DEVA_TO_ENG c c = ascii_equivalent c.
Proof.
  unfold DEVA_TO_ENG, table_get, ascii_equivalent, digit_value.
  repeat match goal with
         | |- context [N.eqb ?k c] =>
             destruct (N.eqb_spec k c) as [<- | ?]; [reflexivity |]
         end.
  destruct (N.leb_spec 2406 c), (N.leb_spec c 2415),
           (N.leb_spec 2790 c), (N.leb_spec c 2799); simpl; try reflexivity; lia.
Qed.

Lemma deva_to_english_normalises_chars (text : str) :
  deva_to_english text = map ascii_equivalent text.
Proof.
  unfold deva_to_english. apply map_ext. apply table_get_ascii_equivalent.
Qed.

(** C6. Numeral normalisation replaces every Devanagari or Gujarati digit
    of its input, whatever the mix of scripts, by the ASCII digit of the
    same value and leaves every other character as it is. *)
Theorem deva_to_english_normalises (text : str) :
  deva_to_english text = map ascii_equivalent text.
Proof. apply deva_to_english_normalises_chars. Qed.

(** C5. The number 1.2.15 goes to adhyaya_1/pada_2/sutra_015.md in the
    hierarchical mode (that of the sutraani book) and to entry_01_02_15.md
    in the flat mode. *)
Theorem path_of_1_2_15 (U : UnicodeTables) (t u c : str)
        (s m : Dict.dict str) (ns : list str) :
  let entry := {| number := lit "1.2.15"; title := t; url := u; content := c;
                  sections := s; notes := ns; metadata := m |} in
  render_path (entry_path U adhyaya_pada entry)
  = lit "adhyaya_1/pada_2/sutra_015.md"
  /\ render_path (book_entry_path U sutraani entry)
     = lit "adhyaya_1/pada_2/sutra_015.md"
  /\ get_entry_filename U entry = lit "entry_01_02_15.md"
  /\ render_path (entry_path U flat entry) = lit "entry_01_02_15.md".
Proof.
  repeat split; vm_compute; reflexivity.
Qed.

(* ================================================================== *)
(** * Properties of the transformer on given inputs *)
(* ================================================================== *)

(** C9. The text "a → b → c", which has no markup, becomes the three lines
    "a", "→ b", "→ c" with a blank line between one and the next. *)
Theorem arrows_become_steps :
  html_to_markdown
    (plain (lit "a " ++ [ARROW] ++ lit " b " ++ [ARROW] ++ lit " c"))
  = lit "a" ++ [NL; NL] ++ [ARROW] ++ lit " b" ++ [NL; NL] ++ [ARROW] ++ lit " c".
Proof. vm_compute. reflexivity. Qed.

(* ================================================================== *)
(** * Facts about stripping *)
(* ================================================================== *)

Section Stripping.

Variable drop : char -> bool.


Lemma lstrip_by_solid (s : str) : solid_head drop s -> lstrip_by drop s = s.
Proof.
  destruct s as [|c r]; simpl; [reflexivity | intros ->; reflexivity].
Qed.

Lemma lstrip_by_head (s : str) : solid_head drop (lstrip_by drop s).
Proof.
  induction s as [|c r IH]; simpl; [exact I |].
  destruct (drop c) eqn:E; [exact IH | simpl; exact E].
Qed.

Lemma lstrip_by_keeps_last (a : str) (c : char) :
  drop c = false -> exists w, lstrip_by drop (a ++ [c]) = w ++ [c].
Proof.
  intros Hc. induction a as [|x a IH]; simpl.
  - rewrite Hc. exists []. reflexivity.
  - destruct (drop x); [exact IH | exists (x :: a); reflexivity].
Qed.

Lemma strip_by_solid (s : str) : solid drop s -> strip_by drop s = s.
Proof.
  intros [Hh Hl]. unfold strip_by, rstrip_by.
  rewrite (lstrip_by_solid s Hh), (lstrip_by_solid (rev s) Hl).
  apply rev_involutive.
Qed.

Lemma strip_by_is_solid (s : str) : solid drop (strip_by drop s).
Proof.
  unfold solid, strip_by, rstrip_by. split.
  - pose proof (lstrip_by_head s) as Hh.
    destruct (lstrip_by drop s) as [|c r]; [exact I |].
    simpl in Hh. simpl rev.
    destruct (lstrip_by_keeps_last (rev r) Hh) as [w ->].
    rewrite rev_app_distr. simpl. exact Hh.
  - rewrite rev_involutive. apply lstrip_by_head.
Qed.

Lemma strip_by_idempotent (s : str) :
  strip_by drop (strip_by drop s) = strip_by drop s.
Proof. apply strip_by_solid, strip_by_is_solid. Qed.

Lemma solid_head_app (a b : str) :
  a <> [] -> solid_head drop a -> solid_head drop (a ++ b).
Proof. destruct a; [congruence | simpl; auto]. Qed.

Lemma solid_app (a b : str) :
  a <> [] -> b <> [] -> solid drop a -> solid drop b -> solid drop (a ++ b).
Proof.
  intros Ha Hb [Ha1 _] [_ Hb2]. split.
  - apply solid_head_app; assumption.
  - rewrite rev_app_distr. apply solid_head_app; [| assumption].
    intros E. apply Hb. apply (f_equal (@rev char)) in E.
    rewrite rev_involutive in E. exact E.
Qed.

Lemma solid_concat (ps : list str) :
  Forall (fun p => p <> [] /\ solid drop p) ps -> solid drop (List.concat ps).
Proof.
  induction 1 as [|p ps [Hne Hp] _ IH]; simpl.
  - split; exact I.
  - destruct (List.concat ps) as [|c r] eqn:E.
    + rewrite app_nil_r. exact Hp.
    + apply solid_app; [assumption | discriminate | assumption | assumption].
Qed.

End Stripping.

Lemma nonempty_true (s : str) : nonempty s = true <-> s <> [].
Proof. destruct s; simpl; split; congruence. Qed.

(** The text [get_text(strip=True)] returns has nothing left to strip. *)
Lemma text_of_strings_solid (l : list str) : solid isspace (text_of_strings l).
Proof.
  unfold text_of_strings. apply solid_concat.
  apply Forall_forall. intros p Hp.
  apply filter_In in Hp. destruct Hp as [Hin Hne].
  apply in_map_iff in Hin. destruct Hin as [s [<- _]].
  split; [apply nonempty_true; exact Hne | apply strip_by_is_solid].
Qed.

Lemma strip_get_text_strip (n : node) : strip (get_text_strip n) = get_text_strip n.
Proof. apply strip_by_solid, text_of_strings_solid. Qed.

(** A string that starts with something other than white space is not
    blank. *)
Lemma solid_start_nonblank (c : char) (r : str) :
  isspace c = false -> nonblank (c :: r) = true.
Proof.
  intros Hc. unfold nonblank, strip, strip_by, rstrip_by.
  simpl lstrip_by. rewrite Hc. simpl rev.
  destruct (@lstrip_by_keeps_last isspace (rev r) c Hc) as [w ->].
  rewrite rev_app_distr. reflexivity.
Qed.

Lemma get_text_strip_nonblank (n : node) :
  nonempty (get_text_strip n) = true -> nonblank (get_text_strip n) = true.
Proof.
  intros H. unfold nonblank. fold (strip (get_text_strip n)).
  rewrite strip_get_text_strip. exact H.
Qed.

(* ================================================================== *)
(** * Properties of the detail extractor *)
(* ================================================================== *)

Lemma split_first_absent (c : char) (s : str) :
  mem c s = false -> split_first [c] s = (s, None).
Proof.
  unfold mem. induction s as [|x r IH]; [reflexivity |].
  cbn [existsb split_first startswith]. intros H.
  apply orb_false_iff in H. destruct H as [Hx Hr].
  rewrite Hx. cbn [andb]. rewrite (IH Hr). reflexivity.
Qed.

Lemma title_parts_no_space (title : str) :
  title <> [] -> mem 32 title = false -> title_parts title = [title].
Proof.
  intros Hne Hsp. unfold title_parts.
  apply nonempty_true in Hne. rewrite Hne.
  unfold split1.
  replace (split_first (lit " ") title) with (title, @None str)
    by (symmetry; exact (split_first_absent 32 title Hsp)).
  reflexivity.
Qed.

Lemma page_title_stripped (soup : list node) :
  strip (page_title soup) = page_title soup.
Proof.
  unfold page_title.
  destruct (select_one _ soup); [apply strip_get_text_strip | reflexivity].
Qed.

(** C10. When the text of the title element of a detail page has no space
    in it, the extractor returns the whole of that text both as the number
    and as the title of the entry. *)
Theorem title_without_space_is_number_and_title
        (W : World) (req : nat) (url : str) (soup : list node) :
  load W req url = Some soup ->
  mem 32 (page_title soup) = false ->
  exists d, parse_detail_page W req url = Some d
            /\ d_number d = page_title soup
            /\ d_title d = page_title soup.
Proof.
  intros Hload Hsp. unfold parse_detail_page. rewrite Hload.
  exists (parse_page soup). split; [reflexivity |].
  change (d_number (parse_page soup)) with (number_of_title (page_title soup)).
  change (d_title (parse_page soup)) with (entry_title_of (page_title soup)).
  unfold number_of_title, entry_title_of.
  destruct (page_title soup) as [|c r] eqn:E.
  - split; reflexivity.
  - rewrite title_parts_no_space by (assumption || discriminate).
    split; [| reflexivity].
    rewrite <- E. apply page_title_stripped.
Qed.

Lemma title_without_space_witness :
  exists d, parse_detail_page (world_of_page page_titled_1_1_1) 1 (lit "u") = Some d
            /\ d_number d = lit "1.1.1" /\ d_title d = lit "1.1.1".
Proof.
  exact (@title_without_space_is_number_and_title
           (world_of_page page_titled_1_1_1) 1%nat (lit "u") page_titled_1_1_1
           eq_refl eq_refl).
Defined.

Lemma dict_set_nonblank (d : Dict.dict str) (k v : str) :
  values_nonblank d -> nonblank v = true -> values_nonblank (Dict.set d k v).
Proof.
  unfold values_nonblank. intros Hd Hv.
  induction Hd as [|[k' v'] r Hkv Hr IH]; simpl.
  - constructor; [exact Hv | constructor].
  - destruct (str_eqb k' k); constructor; auto.
Qed.

Lemma add_commentary_nonblank (d : Dict.dict str) (region : located) :
  values_nonblank d -> values_nonblank (add_commentary d region).
Proof.
  intros Hd. unfold add_commentary.
  destruct (contains _ _); [exact Hd |].
  destruct (negb _); [exact Hd |].
  destruct (select_one_in _ region) as [e|]; [| exact Hd].
  destruct (nonempty (strip _)) eqn:E; [| exact Hd].
  apply dict_set_nonblank; [exact Hd | exact E].
Qed.

Lemma fold_commentary_nonblank (regions : list located) (d : Dict.dict str) :
  values_nonblank d -> values_nonblank (fold_left add_commentary regions d).
Proof.
  revert d. induction regions as [|r rs IH]; simpl; intros d Hd; [exact Hd |].
  apply IH, add_commentary_nonblank, Hd.
Qed.

Lemma summary_item_solid (item : located) (x : str) :
  In x (summary_item item) -> solid_start x.
Proof.
  unfold summary_item.
  set (text := get_text_strip (here item)).
  assert (Htext : nonempty text = true -> forall y, In y [text] -> solid_start y).
  { intros Hne y [<- | []].
    pose proof (text_of_strings_solid (strings (here item))) as [Hh _].
    fold (get_text_strip (here item)) in Hh. fold text in Hh.
    destruct text; [discriminate | exact Hh]. }
  destruct (select_one_in _ item) as [l|];
    [destruct (select_one_in _ item) as [v|] |].
  - destruct (_ && _); [| intros []].
    intros [<- | []]. reflexivity.
  - destruct (nonempty text) eqn:E; simpl; [| intros []].
    destruct (_ <? _)%nat; [apply Htext; reflexivity | intros []].
  - destruct (nonempty text) eqn:E; simpl; [| intros []].
    destruct (_ <? _)%nat; [apply Htext; reflexivity | intros []].
Qed.

Lemma join_solid_start (sep : str) (items : list str) :
  items <> [] -> (forall x, In x items -> solid_start x) ->
  solid_start (join sep items).
Proof.
  destruct items as [|x r]; [congruence |]. intros _ H.
  pose proof (H x (or_introl eq_refl)) as Hx.
  destruct x as [|c x']; [destruct Hx |].
  simpl. destruct r; exact Hx.
Qed.

Lemma summary_content_nonblank (soup : list node) :
  nonempty (summary_content soup) = true ->
  nonblank (summary_content soup) = true.
Proof.
  unfold summary_content.
  destruct (select_one _ soup) as [region|]; [| discriminate].
  destruct (flat_map summary_item _) as [|x r] eqn:E; [discriminate |].
  intros _.
  assert (Hs : solid_start (join [NL; NL] (x :: r))).
  { apply join_solid_start; [discriminate |].
    intros y Hy. rewrite <- E in Hy. apply in_flat_map in Hy.
    destruct Hy as [item [_ Hy]]. exact (summary_item_solid item y Hy). }
  destruct (join [NL; NL] (x :: r)) as [|c s]; [destruct Hs |].
  apply solid_start_nonblank. exact Hs.
Qed.

Lemma parse_page_sections_nonblank (soup : list node) :
  values_nonblank (d_sections (parse_page soup)).
Proof.
  unfold parse_page. simpl d_sections.
  apply fold_commentary_nonblank.
  destruct (nonempty (summary_content soup)) eqn:E; [| constructor].
  constructor; [| constructor].
  simpl. apply summary_content_nonblank, E.
Qed.

(** C8. Whatever the detail page, no value stored in the sections mapping
    the extractor returns is empty or made of white space only; this holds
    for the summary section as for the commentary sections. *)
Theorem sections_never_blank
        (W : World) (req : nat) (url : str) (d : detail) (key value : str) :
  parse_detail_page W req url = Some d ->
  In (key, value) (d_sections d) ->
  nonblank value = true.
Proof.
  unfold parse_detail_page. intros Hd Hin.
  destruct (load W req url) as [soup|]; [| discriminate].
  injection Hd as <-.
  pose proof (parse_page_sections_nonblank soup) as H.
  unfold values_nonblank in H. rewrite Forall_forall in H.
  exact (H (key, value) Hin).
Qed.

Lemma sections_never_blank_witness :
  nonblank (lit "first **word**") = true.
Proof.
  apply (@sections_never_blank (world_of_page page_with_sections) 1%nat (lit "u")
           (parse_page page_with_sections) (lit "Kashika") (lit "first **word**")).
  - reflexivity.
  - vm_compute. right. left. reflexivity.
Defined.

(* ================================================================== *)
(** * Properties of the pagination crawler *)
(* ================================================================== *)

Section Crawl.

Import Scroll.

Variable limit : option Z.
Variable counts : nat -> nat.


Lemma iteration_shape (st : state) :
  match iteration limit (counts (scroll_count st)) st with
  | Break st' => scroll_count st' = scroll_count st
  | Next st' =>
      scroll_count st' = S (scroll_count st)
      /\ last_count st' = counts (scroll_count st)
      /\ limit_reached limit (counts (scroll_count st)) = false
      /\ (counts (scroll_count st) = last_count st ->
          no_change_count st' = S (no_change_count st)
          /\ (no_change_count st < 4)%nat)
  end.
Proof.
  unfold iteration.
  destruct (Nat.eqb_spec (counts (scroll_count st)) (last_count st)) as [E | E];
    cbn [andb no_change_count last_count scroll_count].
  - destruct (Nat.leb_spec 5 (S (no_change_count st))); cbn [andb].
    + reflexivity.
    + destruct (limit_reached limit _) eqn:L; cbn; [reflexivity |].
      repeat split; auto; lia.
  - destruct (limit_reached limit _) eqn:L; cbn; [reflexivity |].
    repeat split; auto; contradiction.
Qed.

Lemma loop_bounds (remaining : nat) (st : state) :
  (scroll_count st <= scroll_count (loop limit counts remaining st)
   <= scroll_count st + remaining)%nat.
Proof.
  revert st. induction remaining as [|r IH]; intros st; cbn [loop]; [lia |].
  pose proof (iteration_shape st) as H.
  destruct (iteration limit (counts (scroll_count st)) st) as [st' | st'].
  - lia.
  - destruct H as [H _]. specialize (IH st'). lia.
Qed.

(** From a turn [k] on, five turns that measure the count of the turn
    before end the loop. *)
Lemma loop_stalls (k remaining : nat) (st : state) :
  (forall i, (i < 5)%nat -> counts (k + i) = previous_count counts (k + i)) ->
  remembers counts st ->
  (scroll_count st <= k + 4)%nat ->
  (scroll_count st - k <= no_change_count st)%nat ->
  (scroll_count (loop limit counts remaining st) <= k + 4)%nat.
Proof.
  intros Hflat. revert st.
  induction remaining as [|r IH]; intros st Hrem Hle Hnc; cbn [loop]; [exact Hle |].
  pose proof (iteration_shape st) as H.
  destruct (iteration limit (counts (scroll_count st)) st) as [st' | st'].
  - lia.
  - destruct H as (Hs & Hl & _ & Hstall).
    assert (Hrem' : remembers counts st').
    { unfold remembers. rewrite Hs, Hl. reflexivity. }
    destruct (Nat.lt_ge_cases (scroll_count st) k) as [Hlt | Hge].
    + apply IH; [exact Hrem' | lia | lia].
    + assert (E : counts (scroll_count st) = last_count st).
      { replace (scroll_count st) with (k + (scroll_count st - k))%nat at 1 by lia.
        rewrite Hflat by lia.
        replace (k + (scroll_count st - k))%nat with (scroll_count st) by lia.
        symmetry. exact Hrem. }
      destruct (Hstall E) as [Hn Hlt4].
      apply IH; [exact Hrem' | lia | lia].
Qed.

Lemma loop_limited (k remaining : nat) (st : state) :
  limit_reached limit (counts k) = true ->
  (scroll_count st <= k)%nat ->
  (scroll_count (loop limit counts remaining st) <= k)%nat.
Proof.
  intros Hlim. revert st.
  induction remaining as [|r IH]; intros st Hle; cbn [loop]; [exact Hle |].
  pose proof (iteration_shape st) as H.
  destruct (iteration limit (counts (scroll_count st)) st) as [st' | st'].
  - lia.
  - destruct H as (Hs & _ & Hno & _).
    apply IH. destruct (Nat.eq_dec (scroll_count st) k) as [E | E]; [| lia].
    rewrite E in Hno. congruence.
Qed.

Lemma change_resets (current : nat) (st : state) :
  current <> last_count st ->
  no_change_count (state_after (iteration limit current st)) = 0%nat
  /\ last_count (state_after (iteration limit current st)) = current.
Proof.
  intros Hne. unfold iteration.
  destruct (Nat.eqb_spec current (last_count st)) as [E | E]; [contradiction |].
  cbn [andb]. destruct (limit_reached limit current); split; reflexivity.
Qed.

Lemma repeat_counts (current : nat) (st : state) :
  current = last_count st ->
  no_change_count (state_after (iteration limit current st))
  = S (no_change_count st).
Proof.
  intros E. unfold iteration.
  destruct (Nat.eqb_spec current (last_count st)) as [_ | N]; [| contradiction].
  cbn [andb no_change_count]. destruct (5 <=? _)%nat; [reflexivity |].
  destruct (limit_reached limit current); reflexivity.
Qed.

(** A loop that ends before its scrolls run out ends at a turn that reaches
    the limit or is the fifth of five turns in a row without a change. *)
Lemma loop_stop_reason (remaining : nat) (st : state) :
  counted counts st ->
  (scroll_count (loop limit counts remaining st) < scroll_count st + remaining)%nat ->
  limit_reached limit (counts (scroll_count (loop limit counts remaining st))) = true
  \/ stalled_at counts (scroll_count (loop limit counts remaining st)).
Proof.
  revert st. induction remaining as [|r IH]; intros st Hinv Hlt; cbn [loop] in *;
    [lia |].
  destruct Hinv as (Hrem & Hle & Hrun).
  unfold iteration in *.
  destruct (Nat.eqb_spec (counts (scroll_count st)) (last_count st)) as [E | E];
    cbn [andb no_change_count last_count scroll_count] in *.
  - destruct (Nat.leb_spec 5 (S (no_change_count st))) as [H5 | H5];
      cbn [scroll_count] in *.
    + right. split; [lia |]. intros i Hi. destruct i as [|i].
      * rewrite Nat.sub_0_r, E. exact Hrem.
      * replace (scroll_count st - S i)%nat with (scroll_count st - 1 - i)%nat by lia.
        apply Hrun. lia.
    + destruct (limit_reached limit (counts (scroll_count st))) eqn:L;
        cbn [scroll_count] in *; [left; exact L |].
      apply IH; cbn [scroll_count]; [| lia].
      split; [| split]; cbn [scroll_count last_count no_change_count].
      * unfold remembers. cbn [scroll_count last_count previous_count].
        symmetry. exact E.
      * lia.
      * intros i Hi. destruct i as [|i].
        -- replace (S (scroll_count st) - 1 - 0)%nat with (scroll_count st) by lia.
           rewrite E. exact Hrem.
        -- replace (S (scroll_count st) - 1 - S i)%nat
             with (scroll_count st - 1 - i)%nat by lia.
           apply Hrun. lia.
  - destruct (limit_reached limit (counts (scroll_count st))) eqn:L;
      cbn [scroll_count] in *; [left; exact L |].
    apply IH; cbn [scroll_count]; [| lia].
    split; [| split]; cbn [scroll_count last_count no_change_count].
    + unfold remembers. reflexivity.
    + lia.
    + intros i Hi. lia.
Qed.

End Crawl.

(** C4. The crawl loop is a total function of the item counts it is shown
    and makes at most [max_scrolls] scrolls, five hundred as it is called.
    It stops by the fifth of five turns in a row that measure the same
    count as the turn before, hence within five turns of the last change
    of a count that then stays; it stops at the turn that measures a count
    at or above a configured limit; and it stops before its scrolls run out
    for no other reason.  A turn that measures a count different from that
    of the turn before, higher or lower, sets the stall counter to zero
    and takes the count as the one to compare with; a turn that measures
    the same count adds one to the stall counter. *)
Theorem pagination_stops (limit : option Z) (counts : nat -> nat) (max_scrolls : nat) :
  let final := Scroll.run limit counts max_scrolls in
  (Scroll.scroll_count (Scroll.run limit counts Scroll.max_scrolls_default) <= 500)%nat
  /\ (Scroll.scroll_count final <= max_scrolls)%nat
  /\ (forall k,
        (forall i, (i < 5)%nat -> counts (k + i)%nat = previous_count counts (k + i)) ->
        (Scroll.scroll_count final <= k + 4)%nat)
  /\ (forall c,
        (forall j, (c <= j)%nat -> counts j = counts c) ->
        (Scroll.scroll_count final <= c + 5)%nat)
  /\ (forall k,
        limit_reached limit (counts k) = true ->
        (Scroll.scroll_count final <= k)%nat)
  /\ ((Scroll.scroll_count final < max_scrolls)%nat ->
      limit_reached limit (counts (Scroll.scroll_count final)) = true
      \/ stalled_at counts (Scroll.scroll_count final))
  /\ (forall current st,
        current <> Scroll.last_count st ->
        Scroll.no_change_count (state_after (Scroll.iteration limit current st)) = 0%nat
        /\ Scroll.last_count (state_after (Scroll.iteration limit current st))
           = current)
  /\ (forall current st,
        current = Scroll.last_count st ->
        Scroll.no_change_count (state_after (Scroll.iteration limit current st))
        = S (Scroll.no_change_count st)).
Proof.
  assert (Hstall : forall k,
             (forall i, (i < 5)%nat -> counts (k + i)%nat = previous_count counts (k + i)) ->
             (Scroll.scroll_count (Scroll.run limit counts max_scrolls) <= k + 4)%nat).
  { intros k Hk. unfold Scroll.run.
    apply loop_stalls; [exact Hk | reflexivity | simpl; lia | simpl; lia]. }
  cbv zeta. split; [| split; [| split; [| split; [| split; [| split; [| split]]]]]].
  - pose proof (loop_bounds limit counts (500 - 0) Scroll.initial) as H.
    unfold Scroll.run, Scroll.max_scrolls_default. simpl in *. lia.
  - pose proof (loop_bounds limit counts (max_scrolls - 0) Scroll.initial) as H.
    unfold Scroll.run. simpl in *. lia.
  - exact Hstall.
  - intros c Hc. replace (c + 5)%nat with (S c + 4)%nat by lia.
    apply Hstall. intros i Hi. cbn [Nat.add previous_count].
    rewrite (Hc (S (c + i))%nat), (Hc (c + i)%nat) by lia. reflexivity.
  - intros k Hk. unfold Scroll.run. apply loop_limited; [exact Hk | simpl; lia].
  - intros Hlt. unfold Scroll.run in *.
    change (Scroll.scroll_count Scroll.initial) with 0%nat in *.
    apply loop_stop_reason.
    + split; [reflexivity |]. split; [apply Nat.le_refl |].
      intros i Hi. cbn in Hi. lia.
    + change (Scroll.scroll_count Scroll.initial) with 0%nat. lia.
  - intros current st Hne. apply change_resets, Hne.
  - intros current st E. apply repeat_counts, E.
Qed.

Lemma pagination_stops_witness :
  (Scroll.scroll_count (Scroll.run None settling_counts 500) <= 5 + 5)%nat
  /\ (Scroll.scroll_count (Scroll.run (Some 30%Z) settling_counts 500) <= 3)%nat.
Proof.
  split.
  - apply (proj1 (proj2 (proj2 (proj2
             (pagination_stops None settling_counts 500)))) 5%nat).
    intros j Hj. unfold settling_counts.
    rewrite (Nat.min_r j 5) by lia. reflexivity.
  - apply (proj1 (proj2 (proj2 (proj2 (proj2
             (pagination_stops (Some 30%Z) settling_counts 500))))) 3%nat).
    reflexivity.
Defined.

(** With counts that shrink at every turn the count never grows after the
    first turn, and the loop still scrolls five hundred times: what ends
    the loop is a count that stays, not a count that fails to grow. *)
Lemma shrinking_counts_never_stall :
  (forall i, (i < 5)%nat ->
             (shrinking_counts (1 + i) <= previous_count shrinking_counts (1 + i))%nat)
  /\ ~ (Scroll.scroll_count
          (Scroll.run None shrinking_counts Scroll.max_scrolls_default) <= 1 + 4)%nat.
Proof.
  split.
  - intros i _.
    change (previous_count shrinking_counts (1 + i)) with (shrinking_counts i).
    unfold shrinking_counts. lia.
  - assert (E : Scroll.scroll_count
                  (Scroll.run None shrinking_counts Scroll.max_scrolls_default)
                = 500%nat) by (vm_compute; reflexivity).
    rewrite E. lia.
Qed.

(* ================================================================== *)
(** * Properties of the run *)
(* ================================================================== *)

Lemma limit_passed_sound (limit : option Z) (i bound : nat) :
  (match limit with
   | Some l => (l = 0)%Z \/ (Z.of_nat bound <= l)%Z
   | None => True
   end) ->
  (i <= bound)%nat -> limit_passed limit i = false.
Proof.
  destruct limit as [l|]; simpl; [| reflexivity].
  intros [-> | H] Hi; [reflexivity |].
  destruct (Z.eqb_spec l 0); [reflexivity |]. simpl.
  apply Z.ltb_ge. lia.
Qed.

Lemma scrape_entries_nth (limit : option Z) (W : World)
      (entries_data : list summary) (i req k : nat) (data : summary) :
  (forall j, (j <= k)%nat -> limit_passed limit (i + j) = false) ->
  nth_error entries_data k = Some data ->
  nth_error (scrape_entries limit W i req entries_data) k
  = Some (make_entry (i + k) data (parse_detail_page W (req + k) (s_url data))).
Proof.
  revert i req k. induction entries_data as [|d r IH]; intros i req k Hlim Hk.
  - destruct k; discriminate.
  - cbn [scrape_entries].
    pose proof (Hlim 0%nat (Nat.le_0_l k)) as H0. rewrite Nat.add_0_r in H0.
    rewrite H0. destruct k as [|k].
    + injection Hk as ->. rewrite !Nat.add_0_r. reflexivity.
    + cbn [nth_error] in *.
      rewrite (IH (S i) (S req) k).
      * replace (S i + k)%nat with (i + S k)%nat by lia.
        replace (S req + k)%nat with (req + S k)%nat by lia. reflexivity.
      * intros j Hj. replace (S i + j)%nat with (i + S j)%nat by lia.
        apply Hlim. lia.
      * exact Hk.
Qed.

(** The listing parser returns no more summaries than a positive limit
    allows. *)
Lemma collect_length (U : UnicodeTables) (l : Z) (book : BookType)
      (items : list located) (found : nat) :
  (Z.of_nat found < l)%Z ->
  (Z.of_nat (found + List.length (Listing.collect U (Some l) book found items)) <= l)%Z.
Proof.
  revert found. induction items as [|item r IH]; intros found Hf; cbn [Listing.collect].
  - simpl. lia.
  - destruct (parse_single_entry U item book); [| apply IH, Hf].
    unfold limit_reached.
    destruct (Z.eqb_spec l 0); [lia |]. cbn [negb andb].
    destruct (Z.leb_spec l (Z.of_nat (S found))).
    + simpl List.length. lia.
    + cbn [List.length]. specialize (IH (S found)).
      replace (found + S (List.length (Listing.collect U (Some l) book (S found) r)))%nat
        with (S found + List.length (Listing.collect U (Some l) book (S found) r))%nat
        by lia.
      apply IH. lia.
Qed.

Lemma make_entry_without_detail (i : nat) (data : summary) :
  make_entry i data None = entry_without_detail i data.
Proof.
  unfold make_entry, entry_without_detail. f_equal.
  destruct (s_title data); reflexivity.
Qed.

(** C7. When the detail page of an entry of the listing fails to load, the
    detail result is absent after that single load, the run still returns
    its book, and the book holds the entry at its place with empty content
    and no sections, its title, URL, notes and metadata those of the
    listing summary, and its number that of the listing summary when there
    is one and the entry's position, counted from one, when there is
    none. *)
Theorem failed_detail_page_keeps_entry
        (U : UnicodeTables) (limit : option Z) (W : World) (b : BookType)
        (html : list node) (k : nat) (data : summary) :
  limit_sound limit ->
  driver_starts W = true ->
  load W 0 (cfg_url (BOOK_CONFIGS b)) = Some html ->
  nth_error (parse_entry_links U limit (listing_page limit W (BOOK_CONFIGS b) html) b) k
  = Some data ->
  load W (S k) (s_url data) = None ->
  parse_detail_page W (S k) (s_url data) = None
  /\ exists book ch,
       scrape_book U limit W b = Ok book
       /\ chapters book = [ch]
       /\ nth_error (entries ch) k = Some (entry_without_detail (S k) data).
Proof.
  intros Hlim Hdrv Hmain Hk Hfail.
  assert (Hnone : parse_detail_page W (S k) (s_url data) = None).
  { unfold parse_detail_page. rewrite Hfail. reflexivity. }
  split; [exact Hnone |].
  unfold scrape_book. rewrite Hdrv, Hmain. cbn [negb].
  destruct (parse_main_page_header _) as [[sn hs] ft].
  eexists. eexists. split; [reflexivity |]. split; [reflexivity |].
  cbn [entries].
  rewrite (@scrape_entries_nth limit W _ 1 1 k data).
  - cbn [Nat.add]. rewrite Hnone, make_entry_without_detail. reflexivity.
  - intros j Hj.
    apply (@limit_passed_sound limit (1 + j) (S k)); [| lia].
    destruct limit as [l|]; [| exact I].
    destruct (Z.eq_dec l 0) as [E | E]; [left; exact E | right].
    assert (Hlen : (k < List.length
                      (parse_entry_links U (Some l)
                         (listing_page (Some l) W (BOOK_CONFIGS b) html) b))%nat).
    { apply nth_error_Some. rewrite Hk. discriminate. }
    unfold parse_entry_links in Hlen.
    pose proof (@collect_length U l b
                  (entry_items (listing_page (Some l) W (BOOK_CONFIGS b) html) b) 0%nat)
      as Hc.
    simpl in Hlim. cbn [Nat.add] in Hc. lia.
  - exact Hk.
Qed.

Lemma failed_detail_page_witness :
  parse_detail_page (world_failing_details listing_without_badge) 1
                    (lit "https://ashtadhyayi.com/shivasutra/1") = None
  /\ exists book ch,
       scrape_book unicode_14 (Some 5%Z) (world_failing_details listing_without_badge)
                   shivasutra = Ok book
       /\ chapters book = [ch]
       /\ nth_error (entries ch) 0
          = Some {| number := lit "1"; title := lit "a i u N";
                    url := lit "https://ashtadhyayi.com/shivasutra/1";
                    content := []; sections := []; notes := []; metadata := [] |}.
Proof.
  exact (@failed_detail_page_keeps_entry unicode_14 (Some 5%Z)
           (world_failing_details listing_without_badge) shivasutra
           listing_without_badge 0%nat
           {| s_number := []; s_title := lit "a i u N";
              s_url := lit "https://ashtadhyayi.com/shivasutra/1";
              s_notes := []; s_metadata := []; path_parts := None |}
           ltac:(simpl; lia) eq_refl eq_refl eq_refl eq_refl).
Defined.

(** The listing gives the one entry no number and its detail page fails:
    the entry of the book is numbered by its position, not by the listing
    summary. *)
Lemma failed_detail_number_from_position :
  map s_number (parse_entry_links unicode_14 None listing_without_badge shivasutra)
  = [ [] ]
  /\ map number (book_entries
                   (scrape_book unicode_14 None
                      (world_failing_details listing_without_badge) shivasutra))
     = [ lit "1" ].
Proof. split; vm_compute; reflexivity. Qed.

(* ================================================================== *)
(** * Properties of the listing parser *)
(* ================================================================== *)

Lemma parse_sutraani_none (U : UnicodeTables) (item : located) :
  valid_sutra_href U (href item) = false -> parse_sutraani U item = None.
Proof.
  unfold valid_sutra_href, parse_sutraani, href.
  destruct (_ && _); [| reflexivity].
  destruct (href_parts _) as [|x0 [|a [|p [|s [|? ?]]]]]; try reflexivity.
  intros ->. reflexivity.
Qed.

Lemma parse_sutraani_some (U : UnicodeTables) (item : located) :
  is_sutraani_anchor item = true ->
  valid_sutra_href U (href item) = true ->
  exists d, parse_sutraani U item = Some d /\ s_url d = BASE_URL ++ href item.
Proof.
  unfold valid_sutra_href, parse_sutraani, is_sutraani_anchor, href.
  intros ->.
  destruct (href_parts _) as [|x0 [|a [|p [|s [|? ?]]]]]; try discriminate.
  intros ->. eexists. split; reflexivity.
Qed.

Lemma parse_sutraani_inv (U : UnicodeTables) (item : located) (d : summary) :
  parse_sutraani U item = Some d ->
  is_sutraani_anchor item = true
  /\ valid_sutra_href U (href item) = true
  /\ s_url d = BASE_URL ++ href item.
Proof.
  unfold valid_sutra_href, parse_sutraani, is_sutraani_anchor, href.
  destruct (_ && _); [| discriminate].
  destruct (href_parts _) as [|x0 [|a [|p [|s [|? ?]]]]]; try discriminate.
  destruct (_ && _); [| discriminate].
  intros H. injection H as <-. repeat split; reflexivity.
Qed.

(** What the selector of the segmented-path listing lets through is an
    anchor whose target starts with the prefix. *)
Lemma entry_items_are_anchors (soup : list node) (item : located) :
  In item (entry_items soup sutraani) -> is_sutraani_anchor item = true.
Proof.
  unfold entry_items, select. intros H. apply filter_In in H.
  destruct H as [_ H]. unfold matches in H. unfold is_sutraani_anchor, href_of.
  destruct (here item) as [t | nm cl at_ ch]; [discriminate |].
  cbn [head_of name_of] in *.
  unfold selector_ok, complex_ok in H. cbn [existsb unfold_complex] in H.
  assert (Hanc : ancestors_ok [] (up item) = true) by (destruct (up item); reflexivity).
  rewrite Hanc in H.
  cbn [compound_ok forallb simple_ok h_name h_attrs h_classes] in H.
  unfold or_empty.
  destruct (str_eqb nm (lit "a")); [| simpl in H; discriminate].
  destruct (attr_get (lit "href") at_) as [v|].
  - destruct (startswith SUTRAANI_PREFIX v); [reflexivity |].
    rewrite ?andb_false_r in H. simpl in H.
    first [ discriminate H
          | repeat match type of H with
                   | context [has_class ?a ?b] => destruct (has_class a b)
                   end; discriminate H ].
  - rewrite ?andb_false_r in H. simpl in H.
    first [ discriminate H
          | repeat match type of H with
                   | context [has_class ?a ?b] => destruct (has_class a b)
                   end; discriminate H ].
Qed.

Lemma limit_reached_mono (limit : option Z) (m n : nat) :
  (m <= n)%nat -> limit_reached limit n = false -> limit_reached limit m = false.
Proof.
  unfold limit_reached. destruct limit as [l|]; [| reflexivity].
  destruct (Z.eqb_spec l 0); [reflexivity |]. cbn [negb andb].
  intros Hmn H. apply Z.leb_gt in H. apply Z.leb_gt. lia.
Qed.

(** Every summary the loop returns was parsed from one of the items. *)
Lemma collect_sound (U : UnicodeTables) (limit : option Z) (book : BookType)
      (items : list located) (found : nat) (d : summary) :
  In d (Listing.collect U limit book found items) ->
  exists item, In item items /\ parse_single_entry U item book = Some d.
Proof.
  revert found. induction items as [|item r IH]; intros found; cbn [Listing.collect].
  - intros [].
  - destruct (parse_single_entry U item book) as [e|] eqn:E.
    + intros [<- | H].
      * exists item. split; [left; reflexivity | exact E].
      * destruct (limit_reached limit (S found)); [destruct H |].
        destruct (IH _ H) as [it [Hin Hp]]. exists it. split; [right |]; assumption.
    + intros H. destruct (IH _ H) as [it [Hin Hp]].
      exists it. split; [right |]; assumption.
Qed.

(** An item that parses is returned when the limit is not reached by the
    summaries found before it and its own. *)
Lemma collect_complete (U : UnicodeTables) (limit : option Z) (book : BookType)
      (before after_ : list located) (item : located) (found : nat) (d : summary) :
  parse_single_entry U item book = Some d ->
  limit_reached limit
    (found + List.length (filter (fun x => match parse_single_entry U x book with
                                           | Some _ => true | None => false end)
                                 before)) = false ->
  In d (Listing.collect U limit book found (before ++ item :: after_)).
Proof.
  intros Hd. revert found.
  induction before as [|x r IH]; intros found Hlim; cbn [app Listing.collect].
  - rewrite Hd. left. reflexivity.
  - cbn [filter] in Hlim.
    destruct (parse_single_entry U x book) as [e|] eqn:E.
    + right. cbn [List.length] in Hlim.
      assert (Hnow : limit_reached limit (S found) = false).
      { revert Hlim. apply limit_reached_mono.
        rewrite Nat.add_succ_r. apply le_n_S, Nat.le_add_r. }
      rewrite Hnow. apply IH. rewrite Nat.add_succ_r in Hlim. exact Hlim.
    + apply IH. exact Hlim.
Qed.

(** C3. In the listing of the segmented-path book an anchor whose target
    does not have exactly four segments with the last three parseable as
    integers yields no summary, and every summary returned comes from an
    anchor the listing selects (an anchor of class d-block or href whose
    target starts with the prefix) whose target has that form.  Such an
    anchor, when the listing selects it, is among the results provided the
    configured limit is not reached by the number of such anchors selected
    before it; with no limit configured it always is. *)
Theorem sutraani_listing_filter
        (U : UnicodeTables) (limit : option Z) (soup : list node) :
  let results := parse_entry_links U limit soup sutraani in
  let parses x := match parse_single_entry U x sutraani with
                  | Some _ => true | None => false end in
  (forall item, valid_sutra_href U (href item) = false ->
                parse_single_entry U item sutraani = None)
  /\ (forall d, In d results ->
        exists item, In item (entry_items soup sutraani)
                     /\ is_sutraani_anchor item = true
                     /\ valid_sutra_href U (href item) = true
                     /\ s_url d = BASE_URL ++ href item)
  /\ (forall before item after_,
        entry_items soup sutraani = before ++ item :: after_ ->
        valid_sutra_href U (href item) = true ->
        limit_reached limit (List.length (filter parses before)) = false ->
        exists d, In d results /\ s_url d = BASE_URL ++ href item)
  /\ (unlimited limit = true ->
      forall item, In item (entry_items soup sutraani) ->
                   valid_sutra_href U (href item) = true ->
                   exists d, In d results /\ s_url d = BASE_URL ++ href item).
Proof.
  cbv zeta.
  assert (Hpart : forall before item after_,
             entry_items soup sutraani = before ++ item :: after_ ->
             valid_sutra_href U (href item) = true ->
             limit_reached limit
               (List.length
                  (filter (fun x => match parse_single_entry U x sutraani with
                                    | Some _ => true | None => false end) before))
             = false ->
             exists d, In d (parse_entry_links U limit soup sutraani)
                       /\ s_url d = BASE_URL ++ href item).
  { intros before item after_ Hsplit Hvalid Hlim.
    assert (Hanchor : is_sutraani_anchor item = true).
    { apply (entry_items_are_anchors soup). rewrite Hsplit.
      apply in_or_app. right. left. reflexivity. }
    destruct (parse_sutraani_some U item Hanchor Hvalid) as [d [Hd Hurl]].
    exists d. split; [| exact Hurl].
    unfold parse_entry_links. rewrite Hsplit.
    apply collect_complete; [exact Hd | exact Hlim]. }
  repeat split.
  - intros item H. apply parse_sutraani_none, H.
  - intros d Hd. unfold parse_entry_links in Hd.
    destruct (collect_sound _ _ _ _ _ _ Hd) as [item [Hin Hp]].
    destruct (parse_sutraani_inv U item Hp) as (Ha & Hv & Hu).
    exists item. repeat split; assumption.
  - exact Hpart.
  - intros Hun item Hin Hvalid.
    destruct (in_split _ _ Hin) as [before [after_ Hsplit]].
    apply (Hpart before item after_ Hsplit Hvalid).
    destruct limit as [l|]; [| reflexivity].
    simpl in Hun. unfold limit_reached. rewrite Hun. reflexivity.
Qed.

Lemma sutraani_listing_filter_witness :
  exists d, In d (parse_entry_links unicode_14 (Some 2%Z) listing_of_three sutraani)
            /\ s_url d = lit "https://ashtadhyayi.com/sutraani/1/1/2".
Proof.
  exact (proj1 (proj2 (proj2
           (sutraani_listing_filter unicode_14 (Some 2%Z) listing_of_three)))
           [first_anchor] second_anchor [] eq_refl eq_refl eq_refl).
Defined.

(** With a limit of one the second of two entry anchors is left out, and
    without any limit the anchor that has no style class is: a target of
    the right form does not by itself put an anchor among the results. *)
Lemma valid_anchors_left_out :
  (In second_anchor (walk_list [] listing_of_three)
   /\ is_sutraani_anchor second_anchor = true
   /\ valid_sutra_href unicode_14 (href second_anchor) = true
   /\ ~ In (BASE_URL ++ href second_anchor)
          (map s_url (parse_entry_links unicode_14 (Some 1%Z) listing_of_three sutraani)))
  /\ (In third_anchor (walk_list [] listing_of_three)
      /\ is_sutraani_anchor third_anchor = true
      /\ valid_sutra_href unicode_14 (href third_anchor) = true
      /\ ~ In (BASE_URL ++ href third_anchor)
             (map s_url (parse_entry_links unicode_14 None listing_of_three sutraani))).
Proof.
  split; (split; [| split; [| split]]).
  - vm_compute. right. left. reflexivity.
  - vm_compute. reflexivity.
  - vm_compute. reflexivity.
  - vm_compute. intros [H | []]. discriminate H.
  - vm_compute. right. right. left. reflexivity.
  - vm_compute. reflexivity.
  - vm_compute. reflexivity.
  - vm_compute. intros [H | [H | []]]; discriminate H.
Qed.

(* ================================================================== *)
(** * Splitting and joining on one character *)
(* ================================================================== *)

Section OneCharacter.

Variable c : char.

Lemma split_from_cons (x : char) (r : str) :
  split_from [c] 0 (x :: r)
  = if c =? x
    then ([], let (p, ps) := split_from [c] 0 r in p :: ps)
    else let (p, ps) := split_from [c] 0 r in (x :: p, ps).
Proof.
  cbn [split_from startswith List.length Nat.sub].
  destruct (c =? x); reflexivity.
Qed.

Lemma join_cons (p : str) (ps : list str) :
  ps <> [] -> join [c] (p :: ps) = p ++ c :: join [c] ps.
Proof. destruct ps; [congruence | reflexivity]. Qed.

(** Joining the pieces of a split gives the string back. *)
Lemma join_split (s : str) : join [c] (split [c] s) = s.
Proof.
  unfold split. induction s as [|x r IH]; [reflexivity |].
  rewrite split_from_cons.
  destruct (split_from [c] 0 r) as [p ps]. cbv beta iota in IH.
  destruct (N.eqb_spec c x) as [<- | Hne].
  - rewrite join_cons by discriminate. cbn [app]. rewrite IH. reflexivity.
  - destruct ps as [|q qs].
    + simpl in *. rewrite IH. reflexivity.
    + rewrite join_cons by discriminate.
      rewrite join_cons in IH by discriminate.
      cbn [app]. rewrite IH. reflexivity.
Qed.

Lemma split_from_free (p : str) :
  mem c p = false -> split_from [c] 0 p = (p, []).
Proof.
  unfold mem. induction p as [|x r IH]; [reflexivity |].
  cbn [existsb]. intros H. apply orb_false_iff in H. destruct H as [Hx Hr].
  rewrite split_from_cons, Hx, (IH Hr). reflexivity.
Qed.

Lemma split_from_piece (p rest : str) :
  mem c p = false ->
  split_from [c] 0 (p ++ c :: rest)
  = (p, let (q, qs) := split_from [c] 0 rest in q :: qs).
Proof.
  unfold mem. induction p as [|x r IH].
  - intros _. cbn [app]. rewrite split_from_cons, N.eqb_refl. reflexivity.
  - cbn [existsb app]. intros H. apply orb_false_iff in H. destruct H as [Hx Hr].
    rewrite split_from_cons, Hx, (IH Hr). reflexivity.
Qed.

(** Splitting a join of pieces that are free of the separator gives the
    pieces back. *)
Lemma split_join (p : str) (ps : list str) :
  Forall (fun q => mem c q = false) (p :: ps) ->
  split [c] (join [c] (p :: ps)) = p :: ps.
Proof.
  unfold split. revert p. induction ps as [|q qs IH]; intros p H.
  - inversion H as [|? ? Hp _]. cbn [join].
    rewrite (split_from_free p Hp). reflexivity.
  - inversion H as [|? ? Hp Hrest]. subst.
    rewrite join_cons by discriminate.
    rewrite (split_from_piece p _ Hp).
    specialize (IH q Hrest).
    destruct (split_from [c] 0 (join [c] (q :: qs))) as [a b].
    rewrite IH. reflexivity.
Qed.

Lemma join_injective (ps qs : list str) :
  ps <> [] -> qs <> [] ->
  Forall (fun q => mem c q = false) ps ->
  Forall (fun q => mem c q = false) qs ->
  join [c] ps = join [c] qs -> ps = qs.
Proof.
  destruct ps as [|p ps]; [congruence |].
  destruct qs as [|q qs]; [congruence |].
  intros _ _ Hp Hq E.
  rewrite <- (split_join Hp), <- (split_join Hq), E. reflexivity.
Qed.

End OneCharacter.

(* ================================================================== *)
(** * Paths of well-formed numbers *)
(* ================================================================== *)

Lemma wf_part_digits (p : str) : wf_part p = true -> forallb ascii_digit p = true.
Proof.
  destruct p as [|x r]; [discriminate |]. unfold wf_part.
  intros H. apply andb_true_iff in H. apply H.
Qed.

Lemma zfill_plain (w : nat) (p : str) :
  forallb ascii_digit p = true ->
  zfill w p = repeat 48 (w - List.length p) ++ p.
Proof.
  destruct p as [|x r]; intros H; unfold zfill; [symmetry; apply app_nil_r |].
  cbn [forallb] in H. apply andb_true_iff in H. destruct H as [Hx _].
  unfold ascii_digit in Hx. apply andb_true_iff in Hx. destruct Hx as [Hlo _].
  apply N.leb_le in Hlo.
  destruct (N.eqb_spec x 43); [lia |]. destruct (N.eqb_spec x 45); [lia |].
  reflexivity.
Qed.

Lemma forallb_repeat_digit (n : nat) : forallb ascii_digit (repeat 48 n) = true.
Proof. induction n; [reflexivity | exact IHn]. Qed.

Lemma zfill_digits (w : nat) (p : str) :
  forallb ascii_digit p = true -> forallb ascii_digit (zfill w p) = true.
Proof.
  intros H. rewrite (zfill_plain w p H), forallb_app.
  apply andb_true_iff. split; [apply forallb_repeat_digit | exact H].
Qed.

Lemma digits_free_of (c : char) (p : str) :
  ascii_digit c = false -> forallb ascii_digit p = true -> mem c p = false.
Proof.
  intros Hc. unfold mem. induction p as [|x r IH]; [reflexivity |].
  cbn [forallb existsb]. intros H. apply andb_true_iff in H. destruct H as [Hx Hr].
  rewrite (IH Hr), orb_false_r.
  destruct (N.eqb_spec c x) as [-> | _]; [congruence | reflexivity].
Qed.

(** Zeros put before strings that do not start with a zero can be told
    from the strings. *)
Lemma padding_injective (a b : nat) (p q : str) :
  wf_part p = true -> wf_part q = true ->
  repeat 48 a ++ p = repeat 48 b ++ q -> p = q.
Proof.
  intros Hp Hq. revert b. induction a as [|a IH]; intros [|b] E; cbn [repeat app] in E.
  - exact E.
  - destruct p as [|x r]; [discriminate |]. injection E as -> _.
    unfold wf_part in Hp. rewrite N.eqb_refl in Hp. discriminate.
  - destruct q as [|x r]; [discriminate |]. injection E as <- _.
    unfold wf_part in Hq. rewrite N.eqb_refl in Hq. discriminate.
  - injection E as E. exact (IH b E).
Qed.

Lemma zfill_injective (w : nat) (p q : str) :
  wf_part p = true -> wf_part q = true -> zfill w p = zfill w q -> p = q.
Proof.
  intros Hp Hq.
  rewrite (zfill_plain w p (wf_part_digits p Hp)),
          (zfill_plain w q (wf_part_digits q Hq)).
  apply padding_injective; assumption.
Qed.

Lemma map_zfill_injective (w : nat) (ps qs : list str) :
  forallb wf_part ps = true -> forallb wf_part qs = true ->
  map (zfill w) ps = map (zfill w) qs -> ps = qs.
Proof.
  revert qs. induction ps as [|p ps IH]; intros [|q qs]; try discriminate.
  - reflexivity.
  - cbn [forallb map]. intros Hp Hq E.
    apply andb_true_iff in Hp. apply andb_true_iff in Hq.
    destruct Hp as [Hp Hps], Hq as [Hq Hqs]. injection E as E1 E2.
    f_equal; [exact (zfill_injective w p q Hp Hq E1) | exact (IH qs Hps Hqs E2)].
Qed.

Lemma zfilled_free_of_underscore (w : nat) (ps : list str) :
  forallb wf_part ps = true ->
  Forall (fun q => mem 95 q = false) (map (zfill w) ps).
Proof.
  induction ps as [|p ps IH]; cbn [forallb map]; [constructor |].
  intros H. apply andb_true_iff in H. destruct H as [Hp Hps].
  constructor; [| exact (IH Hps)].
  apply digits_free_of; [reflexivity |].
  apply zfill_digits, wf_part_digits, Hp.
Qed.

Lemma flat_name_injective (ps qs : list str) :
  ps <> [] -> qs <> [] ->
  forallb wf_part ps = true -> forallb wf_part qs = true ->
  flat_name ps = flat_name qs -> ps = qs.
Proof.
  intros Hp0 Hq0 Hp Hq E. unfold flat_name in E.
  apply app_inv_head, app_inv_tail in E.
  apply (map_zfill_injective 2 ps qs Hp Hq).
  apply (@join_injective 95).
  - destruct ps; [congruence | discriminate].
  - destruct qs; [congruence | discriminate].
  - apply zfilled_free_of_underscore, Hp.
  - apply zfilled_free_of_underscore, Hq.
  - exact E.
Qed.

Lemma split_nonempty (sep s : str) : split sep s <> [].
Proof. unfold split. destruct (split_from sep 0 s). discriminate. Qed.

Lemma ascii_equivalent_dot (c : char) : (46 =? ascii_equivalent c) = (46 =? c).
Proof.
  unfold ascii_equivalent, digit_value.
  destruct (N.leb_spec 2406 c), (N.leb_spec c 2415),
           (N.leb_spec 2790 c), (N.leb_spec c 2799); cbn [andb];
    try reflexivity;
    (destruct (N.eqb_spec 46 c); [lia |]; apply N.eqb_neq; lia).
Qed.

Lemma deva_to_english_dot (n : str) : mem 46 (deva_to_english n) = mem 46 n.
Proof.
  rewrite deva_to_english_normalises_chars. unfold mem.
  induction n as [|x r IH]; [reflexivity |].
  cbn [map existsb]. rewrite IH, ascii_equivalent_dot. reflexivity.
Qed.

Lemma wf_part_isdigit (U : UnicodeTables) (p : str) :
  wf_part p = true -> isdigit U p = true.
Proof.
  intros H. pose proof (wf_part_digits p H) as Hd. unfold isdigit.
  destruct p as [|x r]; [discriminate |]. cbn [str_eqb negb andb].
  apply forallb_forall. intros y Hy.
  unfold isdigit_char. rewrite forallb_forall in Hd. rewrite (Hd y Hy). reflexivity.
Qed.

(** ** Segments without a slash *)

Lemma mem_app (x : char) (a b : str) : mem x (a ++ b) = mem x a || mem x b.
Proof. unfold mem. apply existsb_app. Qed.

Lemma mem_repeat (x y : char) (n : nat) :
  (x =? y) = false -> mem x (repeat y n) = false.
Proof.
  intros H. unfold mem. induction n as [|n IH]; [reflexivity |].
  cbn [repeat existsb]. rewrite H, IH. reflexivity.
Qed.

Lemma mem_zfill (x : char) (w : nat) (s : str) :
  (x =? 48) = false -> mem x (zfill w s) = mem x s.
Proof.
  intros H. unfold zfill. destruct s as [|c r].
  - apply (mem_repeat x 48 _ H).
  - destruct ((c =? 43) || (c =? 45)).
    + change (mem x (c :: repeat 48 (w - List.length (c :: r)) ++ r))
        with ((x =? c) || mem x (repeat 48 (w - List.length (c :: r)) ++ r)).
      rewrite mem_app, (mem_repeat x 48 _ H). reflexivity.
    + rewrite mem_app, (mem_repeat x 48 _ H). reflexivity.
Qed.

Lemma mem_join (x : char) (sep : str) (ps : list str) :
  mem x sep = false -> Forall (fun q => mem x q = false) ps ->
  mem x (join sep ps) = false.
Proof.
  intros Hsep. induction 1 as [|q qs Hq _ IH]; [reflexivity |].
  destruct qs as [|q' qs]; [exact Hq |].
  change (join sep (q :: q' :: qs)) with (q ++ sep ++ join sep (q' :: qs)).
  rewrite !mem_app, Hq, Hsep, IH. reflexivity.
Qed.

Lemma split_keeps_free (c x : char) (s : str) :
  mem x s = false -> Forall (fun q => mem x q = false) (split [c] s).
Proof.
  unfold split. induction s as [|y r IH]; intros H.
  - repeat constructor.
  - change (mem x (y :: r)) with ((x =? y) || mem x r) in H.
    apply orb_false_iff in H. destruct H as [Hy Hr]. specialize (IH Hr).
    rewrite split_from_cons. destruct (split_from [c] 0 r) as [p ps].
    destruct (c =? y).
    + constructor; [reflexivity | exact IH].
    + apply Forall_cons_iff in IH. destruct IH as [Hp Hps].
      constructor; [| exact Hps].
      change (mem x (y :: p)) with ((x =? y) || mem x p). rewrite Hy, Hp. reflexivity.
Qed.

Lemma ascii_equivalent_slash (c : char) : (47 =? ascii_equivalent c) = (47 =? c).
Proof.
  unfold ascii_equivalent, digit_value.
  destruct (N.leb_spec 2406 c), (N.leb_spec c 2415),
           (N.leb_spec 2790 c), (N.leb_spec c 2799); cbn [andb];
    try reflexivity;
    (destruct (N.eqb_spec 47 c); [lia |]; apply N.eqb_neq; lia).
Qed.

Lemma deva_to_english_slash (n : str) : mem 47 (deva_to_english n) = mem 47 n.
Proof.
  rewrite deva_to_english_normalises_chars. unfold mem.
  induction n as [|x r IH]; [reflexivity |].
  cbn [map existsb]. rewrite IH, ascii_equivalent_slash. reflexivity.
Qed.

(** A segment without a slash that starts with a letter is one component of
    the path. *)
Lemma path_components_word (c : char) (r : str) :
  (47 =? c) = false -> (c =? 46) = false -> mem 47 r = false ->
  path_components (c :: r) = [c :: r].
Proof.
  intros Hslash Hdot Hr.
  assert (Hfree : mem 47 (c :: r) = false).
  { change (mem 47 (c :: r)) with ((47 =? c) || mem 47 r).
    rewrite Hslash, Hr. reflexivity. }
  pose proof (split_from_free 47 (c :: r) Hfree) as E.
  change (split_from (lit "/") 0 (c :: r) = (c :: r, [])) in E.
  unfold path_components, split. rewrite E.
  cbn [filter nonempty]. change (lit ".") with [46]. cbn [str_eqb].
  rewrite Hdot. reflexivity.
Qed.

Lemma get_entry_filename_slash (U : UnicodeTables) (e : EntryInfo) :
  mem 47 (number e) = false -> mem 47 (get_entry_filename U e) = false.
Proof.
  intros H. rewrite <- deva_to_english_slash in H.
  unfold get_entry_filename. rewrite !mem_app.
  change (mem 47 (lit "entry_")) with false. change (mem 47 (lit ".md")) with false.
  rewrite orb_false_r. cbn [orb].
  destruct (mem 46 (deva_to_english (number e))).
  - apply mem_join; [reflexivity |].
    apply Forall_forall. intros q Hq. apply in_map_iff in Hq.
    destruct Hq as [q0 [<- Hq0]]. rewrite mem_zfill by reflexivity.
    pose proof (split_keeps_free 46 47 _ H) as F. rewrite Forall_forall in F.
    exact (F q0 Hq0).
  - destruct (isdigit U _); [rewrite mem_zfill by reflexivity |]; exact H.
Qed.

(** For a number without a slash every segment is one component. *)
Lemma entry_path_plain (U : UnicodeTables) (org : Organize) (e : EntryInfo) :
  mem 47 (number e) = false ->
  entry_path U org e = path_segments U org e.
Proof.
  intros H. pose proof (get_entry_filename_slash U e H) as Hname.
  assert (Hflat : flat_map path_components [get_entry_filename U e]
                  = [get_entry_filename U e]).
  { cbn [flat_map]. rewrite app_nil_r.
    unfold get_entry_filename in *.
    change (lit "entry_") with (101 :: lit "ntry_") in *.
    rewrite <- app_comm_cons in *.
    change (mem 47 (101 :: ?r)) with ((47 =? 101) || mem 47 r) in Hname.
    apply path_components_word; [reflexivity | reflexivity | exact Hname]. }
  unfold entry_path, path_segments.
  destruct org; try exact Hflat.
  destruct (mem 46 (number e)); [| exact Hflat].
  rewrite <- deva_to_english_slash in H.
  pose proof (split_keeps_free 46 47 _ H) as F.
  change [46] with (lit ".") in F.
  destruct (split (lit ".") (deva_to_english (number e)))
    as [|p0 [|p1 [|p2 rest]]]; try exact Hflat.
  apply Forall_cons_iff in F. destruct F as [H0 F].
  apply Forall_cons_iff in F. destruct F as [H1 F].
  apply Forall_cons_iff in F. destruct F as [H2 _].
  cbn [flat_map]. rewrite app_nil_r.
  change (lit "adhyaya_") with (97 :: lit "dhyaya_").
  change (lit "pada_") with (112 :: lit "ada_").
  change (lit "sutra_") with (115 :: lit "utra_").
  rewrite <- !app_comm_cons.
  rewrite !path_components_word; try reflexivity.
  - rewrite !mem_app, mem_zfill, H2 by reflexivity. reflexivity.
  - rewrite mem_app, H1. reflexivity.
  - rewrite mem_app, H0. reflexivity.
Qed.

Lemma well_formed_slash (org : Organize) (n : str) :
  well_formed org n = true -> mem 47 n = false.
Proof.
  unfold well_formed. intros H. apply andb_true_iff in H. destruct H as [Hwf _].
  rewrite <- deva_to_english_slash, <- (join_split 46 (deva_to_english n)).
  apply mem_join; [reflexivity |].
  change [46] with (lit "."). rewrite forallb_forall in Hwf.
  apply Forall_forall. intros q Hq.
  apply digits_free_of; [reflexivity |]. apply wf_part_digits, Hwf, Hq.
Qed.

(** On a number whose parts are well formed the entry file name is the flat
    name of the parts. *)
Lemma get_entry_filename_wf (U : UnicodeTables) (e : EntryInfo) :
  forallb wf_part (split (lit ".") (deva_to_english (number e))) = true ->
  get_entry_filename U e
  = flat_name (split (lit ".") (deva_to_english (number e))).
Proof.
  intros Hwf. unfold get_entry_filename, flat_name.
  destruct (mem 46 (deva_to_english (number e))) eqn:Hdot; [reflexivity |].
  assert (Hs : split (lit ".") (deva_to_english (number e))
               = [deva_to_english (number e)]).
  { pose proof (split_from_free 46 _ Hdot) as E.
    change (split_from (lit ".") 0 (deva_to_english (number e))
            = (deva_to_english (number e), [])) in E.
    unfold split. rewrite E. reflexivity. }
  rewrite Hs in *. cbn [forallb map join] in *.
  rewrite andb_true_r in Hwf.
  rewrite (wf_part_isdigit U _ Hwf). reflexivity.
Qed.

Lemma entry_path_wf (U : UnicodeTables) (org : Organize) (e : EntryInfo) :
  well_formed org (number e) = true ->
  entry_path U org e
  = path_of_parts org (split (lit ".") (deva_to_english (number e))).
Proof.
  unfold well_formed. intros H. apply andb_true_iff in H. destruct H as [Hwf Hlen].
  pose proof (get_entry_filename_wf U e Hwf) as Hname.
  rewrite entry_path_plain
    by (apply (well_formed_slash org); unfold well_formed; rewrite Hwf, Hlen;
        reflexivity).
  unfold path_segments, path_of_parts.
  destruct org; try (rewrite Hname; reflexivity).
  rewrite <- deva_to_english_dot.
  destruct (mem 46 (deva_to_english (number e))) eqn:Hdot.
  - destruct (split (lit ".") (deva_to_english (number e)))
      as [|p0 [|p1 [|p2 [|p3 rest]]]]; try (rewrite Hname; reflexivity).
    + reflexivity.
    + discriminate Hlen.
  - pose proof (split_from_free 46 _ Hdot) as E.
    change (split_from (lit ".") 0 (deva_to_english (number e))
            = (deva_to_english (number e), [])) in E.
    unfold split in *. rewrite E in *. rewrite Hname. reflexivity.
Qed.

Lemma path_of_parts_injective (org : Organize) (ps qs : list str) :
  ps <> [] -> qs <> [] ->
  forallb wf_part ps = true -> forallb wf_part qs = true ->
  path_of_parts org ps = path_of_parts org qs -> ps = qs.
Proof.
  intros Hp0 Hq0 Hp Hq E.
  assert (Hflat : [flat_name ps] = [flat_name qs] -> ps = qs).
  { intros F. apply (f_equal (hd [])) in F. cbn [hd] in F.
    exact (flat_name_injective Hp0 Hq0 Hp Hq F). }
  unfold path_of_parts in E.
  destruct org; try exact (Hflat E).
  destruct ps as [|p0 [|p1 [|p2 [|p3 ps]]]], qs as [|q0 [|q1 [|q2 [|q3 qs]]]];
    try exact (Hflat E); try discriminate E.
  injection E as E0 E1 E2.
  apply app_inv_tail in E2.
  cbn [forallb] in Hp, Hq.
  repeat match goal with
         | H : _ && _ = true |- _ => apply andb_true_iff in H; destruct H
         end.
  subst. f_equal. f_equal. f_equal.
  eapply zfill_injective; eassumption.
Qed.

(** On well-formed numbers the path decides the normalised number. *)
Lemma entry_path_injective (U : UnicodeTables) (org : Organize) (e1 e2 : EntryInfo) :
  well_formed org (number e1) = true ->
  well_formed org (number e2) = true ->
  entry_path U org e1 = entry_path U org e2 ->
  deva_to_english (number e1) = deva_to_english (number e2).
Proof.
  intros H1 H2 E.
  rewrite (entry_path_wf U org e1 H1), (entry_path_wf U org e2 H2) in E.
  unfold well_formed in H1, H2.
  apply andb_true_iff in H1. apply andb_true_iff in H2.
  apply path_of_parts_injective in E;
    [| apply split_nonempty | apply split_nonempty | apply H1 | apply H2].
  rewrite <- (join_split 46 (deva_to_english (number e1))).
  rewrite <- (join_split 46 (deva_to_english (number e2))).
  change [46] with (lit "."). rewrite E. reflexivity.
Qed.

(** ** The decimal writing of a position *)

Lemma lit_cons (a : ascii) (s : string) :
  lit (String a s) = N_of_ascii a :: lit s.
Proof. reflexivity. Qed.

Lemma lit_injective (s t : string) : lit s = lit t -> s = t.
Proof.
  revert t. induction s as [|a s IH]; intros [|b t] E; try discriminate.
  - reflexivity.
  - rewrite !lit_cons in E. injection E as Ea Es.
    f_equal; [| exact (IH t Es)].
    rewrite <- (ascii_N_embedding a), <- (ascii_N_embedding b), Ea. reflexivity.
Qed.

Lemma str_of_nat_injective (i j : nat) : str_of_nat i = str_of_nat j -> i = j.
Proof.
  unfold str_of_nat. intros E. apply lit_injective in E.
  apply DecimalNat.Unsigned.to_uint_inj.
  pose proof (NilEmpty.usu (Nat.to_uint i)) as Hi.
  pose proof (NilEmpty.usu (Nat.to_uint j)) as Hj.
  rewrite E in Hi. rewrite Hi in Hj. injection Hj as Hj. exact Hj.
Qed.

Lemma uint_digits (d : Decimal.uint) :
  forallb ascii_digit (lit (NilEmpty.string_of_uint d)) = true.
Proof.
  induction d; cbn [NilEmpty.string_of_uint]; try reflexivity;
    rewrite lit_cons; cbn [forallb]; rewrite IHd; reflexivity.
Qed.

Lemma nzhead_shape (d : Decimal.uint) :
  Decimal.nzhead d = Decimal.Nil
  \/ wf_part (lit (NilEmpty.string_of_uint (Decimal.nzhead d))) = true.
Proof.
  induction d; cbn [Decimal.nzhead]; try exact IHd; [left; reflexivity | ..];
    right; cbn [NilEmpty.string_of_uint]; rewrite lit_cons;
    unfold wf_part; rewrite <- lit_cons;
    change (forallb ascii_digit (lit (NilEmpty.string_of_uint ?x)))
      with (forallb ascii_digit (lit (NilEmpty.string_of_uint x)));
    match goal with
    | |- context [lit (String ?a (NilEmpty.string_of_uint ?x))] =>
        pose proof (uint_digits x) as Hx;
        rewrite (lit_cons a (NilEmpty.string_of_uint x));
        cbn [forallb]; rewrite Hx; reflexivity
    end.
Qed.

Lemma str_of_nat_wf (i : nat) : (1 <= i)%nat -> wf_part (str_of_nat i) = true.
Proof.
  intros Hi. unfold str_of_nat.
  pose proof (DecimalNat.Unsigned.to_of (Nat.to_uint i)) as E.
  rewrite DecimalNat.Unsigned.of_to in E. rewrite E.
  unfold Decimal.unorm.
  destruct (nzhead_shape (Nat.to_uint i)) as [Hnil | Hwf].
  - exfalso.
    assert (Hz : Nat.to_uint i = Decimal.zero).
    { rewrite E. unfold Decimal.unorm. rewrite Hnil. reflexivity. }
    apply (f_equal Nat.of_uint) in Hz.
    rewrite DecimalNat.Unsigned.of_to in Hz.
    change (Nat.of_uint Decimal.zero) with 0%nat in Hz. lia.
  - destruct (Decimal.nzhead (Nat.to_uint i)); [discriminate Hwf | exact Hwf ..].
Qed.

Lemma deva_to_english_digits (s : str) :
  forallb ascii_digit s = true -> deva_to_english s = s.
Proof.
  rewrite deva_to_english_normalises_chars.
  induction s as [|x r IH]; [reflexivity |].
  cbn [forallb map]. intros H. apply andb_true_iff in H. destruct H as [Hx Hr].
  rewrite (IH Hr). f_equal.
  unfold ascii_digit in Hx. apply andb_true_iff in Hx. destruct Hx as [_ Hhi].
  apply N.leb_le in Hhi. unfold ascii_equivalent, digit_value.
  destruct (N.leb_spec 2406 x); [lia |]. destruct (N.leb_spec 2790 x); [lia |].
  reflexivity.
Qed.

(** A position written in decimal is a well-formed number in every
    mode. *)
Lemma position_well_formed (org : Organize) (i : nat) :
  (1 <= i)%nat ->
  well_formed org (str_of_nat i) = true
  /\ split (lit ".") (deva_to_english (str_of_nat i)) = [str_of_nat i].
Proof.
  intros Hi. pose proof (str_of_nat_wf Hi) as Hwf.
  pose proof (wf_part_digits _ Hwf) as Hd.
  assert (Hs : split (lit ".") (deva_to_english (str_of_nat i)) = [str_of_nat i]).
  { rewrite (deva_to_english_digits _ Hd).
    pose proof (split_from_free 46 (str_of_nat i)
                  (digits_free_of 46 (str_of_nat i) eq_refl Hd)) as E.
    change (split_from (lit ".") 0 (str_of_nat i) = (str_of_nat i, [])) in E.
    unfold split. rewrite E. reflexivity. }
  split; [| exact Hs].
  unfold well_formed. rewrite Hs. cbn [forallb]. rewrite Hwf.
  destruct org; reflexivity.
Qed.

(** C1. The output path of an entry is a function of the organisation mode
    of its book and of its number.  On numbers that are well formed (once
    the digits are normalised, dot-separated runs of ASCII digits without a
    leading zero, three at most in the hierarchical mode) the path decides
    the normalised number, so entries whose normalised numbers differ get
    different paths.  The derivation has no fallback for a number that is
    not well formed and never looks at the position: a number without a
    slash, well formed or not, gets the directories and the file of its
    first three parts when the mode is hierarchical and its normalised form
    has three dot-separated parts or more, and the flat file name made
    from the number itself otherwise.  The position enters where the entry
    is built: its number is that of the listing when the listing has one,
    else that of the detail page when the page loaded, else the position
    counted from one; so the path of an entry depends on its position only
    when the listing has no number for it and its detail page is absent.
    The number of a position is well formed, its path is the flat name
    made of the position padded to two digits, and two such entries at
    different positions get different paths. *)
Theorem entry_paths_of_numbers (U : UnicodeTables) (b : BookType) :
  let org := organize_by (BOOK_CONFIGS b) in
  (forall e1 e2, number e1 = number e2 ->
                 book_entry_path U b e1 = book_entry_path U b e2)
  /\ (forall e1 e2,
        well_formed org (number e1) = true ->
        well_formed org (number e2) = true ->
        book_entry_path U b e1 = book_entry_path U b e2 ->
        deva_to_english (number e1) = deva_to_english (number e2))
  /\ (forall e, mem 47 (number e) = false ->
                book_entry_path U b e = path_by_parts U org e)
  /\ (forall i data detail,
        number (make_entry i data detail)
        = if nonempty (s_number data) then s_number data
          else match detail with
               | Some d => d_number d
               | None => str_of_nat i
               end)
  /\ (forall i j data detail,
        nonempty (s_number data) = true \/ detail <> None ->
        book_entry_path U b (make_entry i data detail)
        = book_entry_path U b (make_entry j data detail))
  /\ (forall i data,
        (1 <= i)%nat -> s_number data = [] ->
        well_formed org (number (make_entry i data None)) = true
        /\ book_entry_path U b (make_entry i data None)
           = [ lit "entry_" ++ zfill 2 (str_of_nat i) ++ lit ".md" ])
  /\ (forall i j d1 d2,
        (1 <= i)%nat -> (1 <= j)%nat ->
        s_number d1 = [] -> s_number d2 = [] ->
        book_entry_path U b (make_entry i d1 None)
        = book_entry_path U b (make_entry j d2 None) ->
        i = j).
Proof.
  cbv zeta. unfold book_entry_path.
  assert (Hnum : forall i data, s_number data = [] ->
                                number (make_entry i data None) = str_of_nat i).
  { intros i data E. unfold make_entry. cbn [number]. rewrite E. reflexivity. }
  assert (Hsame : forall e1 e2, number e1 = number e2 ->
                                entry_path U (organize_by (BOOK_CONFIGS b)) e1
                                = entry_path U (organize_by (BOOK_CONFIGS b)) e2).
  { intros e1 e2 E. unfold entry_path, path_segments, get_entry_filename.
    rewrite E. reflexivity. }
  split; [exact Hsame |].
  split; [intros e1 e2; apply entry_path_injective |].
  split; [| split; [| split; [| split]]].
  - intros e H. rewrite (entry_path_plain U _ e H).
    unfold path_segments, path_by_parts.
    destruct (organize_by (BOOK_CONFIGS b)); try reflexivity.
    rewrite <- deva_to_english_dot.
    destruct (mem 46 (deva_to_english (number e))) eqn:Hdot; [reflexivity |].
    pose proof (split_from_free 46 _ Hdot) as E.
    change (split_from (lit ".") 0 (deva_to_english (number e))
            = (deva_to_english (number e), [])) in E.
    unfold split. rewrite E. reflexivity.
  - intros i data detail. reflexivity.
  - intros i j data detail H. apply Hsame. unfold make_entry. cbn [number].
    destruct (nonempty (s_number data)); [reflexivity |].
    destruct detail as [d|]; [reflexivity |].
    destruct H as [H | H]; [discriminate H | contradiction H; reflexivity].
  - intros i data Hi E.
    destruct (position_well_formed (organize_by (BOOK_CONFIGS b)) Hi) as [Hwf Hs].
    split; [rewrite (Hnum i data E); exact Hwf |].
    rewrite entry_path_wf by (rewrite (Hnum i data E); exact Hwf).
    rewrite (Hnum i data E), Hs.
    unfold path_of_parts. destruct (organize_by (BOOK_CONFIGS b)); reflexivity.
  - intros i j d1 d2 Hi Hj E1 E2 E.
    apply entry_path_injective in E.
    + rewrite (Hnum i d1 E1), (Hnum j d2 E2) in E.
      rewrite !deva_to_english_digits in E
        by (apply wf_part_digits, str_of_nat_wf; assumption).
      exact (str_of_nat_injective i j E).
    + rewrite (Hnum i d1 E1). apply position_well_formed, Hi.
    + rewrite (Hnum j d2 E2). apply position_well_formed, Hj.
Qed.

Lemma entry_paths_witness :
  deva_to_english (number (entry_numbered (lit "1.2.15")))
  = deva_to_english (number (entry_numbered deva_1_2_15))
  /\ book_entry_path unicode_14 sutraani (entry_numbered (lit "1.2.15.7"))
     = path_by_parts unicode_14 adhyaya_pada (entry_numbered (lit "1.2.15.7"))
  /\ book_entry_path unicode_14 sutraani
       (make_entry 3 (summary_numbered (lit "1.02") "a") None)
     = book_entry_path unicode_14 sutraani
         (make_entry 8 (summary_numbered (lit "1.02") "a") None)
  /\ (well_formed flat (number (make_entry 3 (summary_numbered [] "a") None)) = true
      /\ book_entry_path unicode_14 shivasutra
                         (make_entry 3 (summary_numbered [] "a") None)
         = [ lit "entry_03.md" ]).
Proof.
  split; [| split; [| split]].
  - exact (proj1 (proj2 (entry_paths_of_numbers unicode_14 sutraani))
             (entry_numbered (lit "1.2.15")) (entry_numbered deva_1_2_15)
             eq_refl eq_refl eq_refl).
  - exact (proj1 (proj2 (proj2 (entry_paths_of_numbers unicode_14 sutraani)))
             (entry_numbered (lit "1.2.15.7")) eq_refl).
  - exact (proj1 (proj2 (proj2 (proj2 (proj2
             (entry_paths_of_numbers unicode_14 sutraani)))))
             3%nat 8%nat (summary_numbered (lit "1.02") "a") None
             (or_introl eq_refl)).
  - exact (proj1 (proj2 (proj2 (proj2 (proj2 (proj2
             (entry_paths_of_numbers unicode_14 shivasutra))))))
             3%nat (summary_numbered [] "a") ltac:(lia) eq_refl).
Defined.

(** Two entries of the hierarchical book with different numbers, the second
    of them malformed, get the same path; and the path of the malformed one
    is the same at any position: path derivation does not look at the
    position. *)
Lemma malformed_numbers_collide :
  let first := make_entry 1 (summary_numbered (lit "1.2") "/sutraani/a") None in
  let second := make_entry 2 (summary_numbered (lit "1.02") "/sutraani/b") None in
  let moved := make_entry 7 (summary_numbered (lit "1.02") "/sutraani/b") None in
  number first <> number second
  /\ well_formed adhyaya_pada (number second) = false
  /\ book_entry_path unicode_14 sutraani first
     = book_entry_path unicode_14 sutraani second
  /\ book_entry_path unicode_14 sutraani second
     = book_entry_path unicode_14 sutraani moved.
Proof.
  cbv zeta. repeat split; try (vm_compute; reflexivity).
  vm_compute. discriminate.
Qed.

(* ================================================================== *)
(** * Occurrences of a pattern *)
(* ================================================================== *)

Lemma contains_cons (P : str) (c : char) (r : str) :
  contains P (c :: r) = startswith P (c :: r) || contains P r.
Proof. reflexivity. Qed.

Lemma contains_nil (P : str) : contains P [] = startswith P [].
Proof. simpl. apply orb_false_r. Qed.

Lemma startswith_app (P a b : str) :
  startswith P a = true -> startswith P (a ++ b) = true.
Proof.
  revert a. induction P as [|p P IH]; intros a; [reflexivity |].
  destruct a as [|x a]; [discriminate |]. cbn [startswith app].
  intros H. apply andb_true_iff in H. destruct H as [-> H].
  exact (IH a H).
Qed.

Lemma contains_empty_pattern (s : str) : contains [] s = true.
Proof. destruct s; reflexivity. Qed.

Lemma contains_prefix (P a b : str) :
  contains P a = true -> contains P (a ++ b) = true.
Proof.
  induction a as [|x a IH].
  - rewrite contains_nil. destruct P; [| discriminate].
    intros _. apply contains_empty_pattern.
  - cbn [app]. rewrite !contains_cons. intros H.
    apply orb_true_iff in H. apply orb_true_iff. destruct H as [H | H].
    + left. exact (startswith_app P (x :: a) b H).
    + right. exact (IH H).
Qed.

Lemma contains_suffix (P a b : str) :
  contains P b = true -> contains P (a ++ b) = true.
Proof.
  intros H. induction a as [|x a IH]; [exact H |].
  cbn [app]. rewrite contains_cons, IH. apply orb_true_r.
Qed.

Lemma mem_contains (x : char) (s : str) : mem x s = contains [x] s.
Proof.
  unfold mem. induction s as [|c r IH]; [reflexivity |].
  rewrite contains_cons. cbn [existsb startswith]. rewrite IH, andb_true_r.
  reflexivity.
Qed.

Lemma lstrip_by_suffix (drop : char -> bool) (s : str) :
  exists a, s = a ++ lstrip_by drop s.
Proof.
  induction s as [|c r [a IH]]; [exists []; reflexivity |].
  cbn [lstrip_by]. destruct (drop c).
  - exists (c :: a). cbn [app]. rewrite <- IH. reflexivity.
  - exists []. reflexivity.
Qed.

Lemma rstrip_by_prefix (drop : char -> bool) (s : str) :
  exists b, s = rstrip_by drop s ++ b.
Proof.
  unfold rstrip_by. destruct (lstrip_by_suffix drop (rev s)) as [a E].
  exists (rev a). rewrite <- rev_app_distr, <- E. symmetry. apply rev_involutive.
Qed.

Lemma contains_strip_by (drop : char -> bool) (P s : str) :
  contains P (strip_by drop s) = true -> contains P s = true.
Proof.
  unfold strip_by. intros H.
  destruct (lstrip_by_suffix drop s) as [a Ea].
  destruct (rstrip_by_prefix drop (lstrip_by drop s)) as [b Eb].
  rewrite Ea. apply contains_suffix. rewrite Eb. apply contains_prefix. exact H.
Qed.

(** ** The pieces of a split *)

Section Pieces.

Variable sep : str.
Hypothesis sep_nonempty : sep <> [].

Lemma split_from_prefix (s : str) (k : nat) :
  exists rest, skipn k s = fst (split_from sep k s) ++ rest.
Proof.
  revert k. induction s as [|c r IH]; intros k.
  - exists []. destruct k; reflexivity.
  - destruct k as [|k]; cbn [split_from skipn].
    + destruct (startswith sep (c :: r)).
      * exists (c :: r). reflexivity.
      * destruct (IH 0%nat) as [rest E]. cbn [skipn] in E.
        destruct (split_from sep 0 r) as [p ps]. cbn [fst] in *.
        exists rest. cbn [app]. rewrite <- E. reflexivity.
    + apply IH.
Qed.

(** No piece has the separator in it. *)
Lemma split_from_free_pieces (s : str) (k : nat) :
  Forall (fun q => contains sep q = false)
         (fst (split_from sep k s) :: snd (split_from sep k s)).
Proof.
  assert (Hnil : contains sep [] = false).
  { rewrite contains_nil. destruct sep; [congruence | reflexivity]. }
  revert k. induction s as [|c r IH]; intros k.
  - destruct k; cbn; repeat constructor; exact Hnil.
  - destruct k as [|k]; cbn [split_from]; [| apply IH].
    destruct (startswith sep (c :: r)) eqn:E.
    + specialize (IH (List.length sep - 1)%nat).
      destruct (split_from sep (List.length sep - 1) r) as [p ps].
      cbn [fst snd] in *. constructor; [exact Hnil | exact IH].
    + pose proof (IH 0%nat) as H. destruct (split_from_prefix r 0) as [rest Er].
      cbn [skipn] in Er.
      destruct (split_from sep 0 r) as [p ps]. cbn [fst snd] in *.
      apply Forall_cons_iff in H. destruct H as [Hp Hps].
      constructor; [| exact Hps].
      rewrite contains_cons, Hp, orb_false_r.
      destruct (startswith sep (c :: p)) eqn:F; [| reflexivity].
      rewrite <- E, Er. symmetry.
      exact (startswith_app sep (c :: p) rest F).
Qed.

(** What occurs in a piece occurs in the string. *)
Lemma split_from_pieces_within (P s : str) (k : nat) (q : str) :
  In q (fst (split_from sep k s) :: snd (split_from sep k s)) ->
  contains P q = true -> contains P s = true.
Proof.
  revert k q. induction s as [|c r IH]; intros k q.
  - destruct k; cbn; intros [<- | []]; auto.
  - destruct k as [|k]; cbn [split_from].
    + destruct (startswith sep (c :: r)) eqn:E.
      * specialize (IH (List.length sep - 1)%nat).
        destruct (split_from sep (List.length sep - 1) r) as [p ps].
        cbn [fst snd] in *. intros [<- | Hq] Hc.
        -- rewrite contains_nil in Hc. destruct P; [| discriminate].
           apply contains_empty_pattern.
        -- rewrite contains_cons, (IH q Hq Hc). apply orb_true_r.
      * pose proof (IH 0%nat) as H. destruct (split_from_prefix r 0) as [rest Er].
        cbn [skipn] in Er.
        destruct (split_from sep 0 r) as [p ps]. cbn [fst snd] in *.
        intros [<- | Hq] Hc.
        -- rewrite contains_cons in Hc. rewrite contains_cons.
           apply orb_true_iff in Hc. apply orb_true_iff. destruct Hc as [Hc | Hc].
           ++ left. rewrite Er. exact (startswith_app P (c :: p) rest Hc).
           ++ right. apply (H p); [left; reflexivity | exact Hc].
        -- rewrite contains_cons. rewrite (H q (or_intror Hq) Hc). apply orb_true_r.
    + intros Hq Hc. rewrite contains_cons, (IH k q Hq Hc). apply orb_true_r.
Qed.

Lemma split_pieces (s : str) :
  Forall (fun q => contains sep q = false) (split sep s)
  /\ (forall P q, In q (split sep s) -> contains P q = true -> contains P s = true).
Proof.
  unfold split. pose proof (split_from_free_pieces s 0) as H1.
  pose proof (fun P q => @split_from_pieces_within P s 0 q) as H2.
  destruct (split_from sep 0 s) as [p ps]. cbn [fst snd] in *.
  split; [exact H1 | exact H2].
Qed.

(** A string without the separator is its own single piece. *)
Lemma split_absent (s : str) : contains sep s = false -> split sep s = [s].
Proof.
  unfold split. induction s as [|c r IH]; [reflexivity |].
  rewrite contains_cons. intros H. apply orb_false_iff in H. destruct H as [H1 H2].
  cbn [split_from]. rewrite H1. specialize (IH H2).
  destruct (split_from sep 0 r) as [p ps]. injection IH as -> ->. reflexivity.
Qed.

End Pieces.

(* ================================================================== *)
(** * What the cleaning steps cannot bring about *)
(* ================================================================== *)

Lemma steady_parts (P : str) :
  steady P = true -> P <> [] /\ no_newline P = true /\ no_punct P = true.
Proof.
  unfold steady, no_newline, no_punct. intros H.
  apply andb_true_iff in H. destruct H as [Hne Hall].
  split; [apply nonempty_true, Hne |].
  rewrite forallb_forall in Hall.
  split; apply forallb_forall; intros c Hc;
    specialize (Hall c Hc); apply andb_true_iff in Hall; apply Hall.
Qed.

(** ** Joining paragraphs *)

Lemma startswith_before_newline (P a b : str) :
  no_newline P = true ->
  startswith P (a ++ NL :: b) = true -> startswith P a = true.
Proof.
  unfold no_newline. revert a. induction P as [|p P IH]; intros a HP; [reflexivity |].
  cbn [forallb] in HP. apply andb_true_iff in HP. destruct HP as [Hp HP].
  destruct a as [|x a]; cbn [app startswith].
  - apply negb_true_iff in Hp. rewrite Hp. discriminate.
  - intros H. apply andb_true_iff in H. destruct H as [-> H].
    exact (IH a HP H).
Qed.

Lemma contains_across_newline (P a b : str) :
  P <> [] -> no_newline P = true ->
  contains P (a ++ NL :: b) = true ->
  contains P a = true \/ contains P b = true.
Proof.
  intros Hne HP. induction a as [|x a IH]; cbn [app]; rewrite contains_cons.
  - intros H. apply orb_true_iff in H. destruct H as [H | H]; [| right; exact H].
    apply (startswith_before_newline P [] b HP) in H.
    destruct P; [congruence | discriminate].
  - intros H. apply orb_true_iff in H. destruct H as [H | H].
    + left. rewrite contains_cons.
      rewrite (startswith_before_newline P (x :: a) b HP H). reflexivity.
    + destruct (IH H) as [Ha | Hb]; [left | right; exact Hb].
      rewrite contains_cons, Ha. apply orb_true_r.
Qed.

Lemma contains_join (P : str) (qs : list str) :
  P <> [] -> no_newline P = true ->
  contains P (join [NL; NL] qs) = true ->
  exists q, In q qs /\ contains P q = true.
Proof.
  intros Hne HP. induction qs as [|q qs IH].
  - cbn [join]. rewrite contains_nil. destruct P; [congruence | discriminate].
  - destruct qs as [|q' qs].
    + cbn [join]. intros H. exists q. split; [left; reflexivity | exact H].
    + change (join [NL; NL] (q :: q' :: qs))
        with (q ++ NL :: NL :: join [NL; NL] (q' :: qs)).
      intros H. apply (@contains_across_newline P q _ Hne HP) in H.
      destruct H as [H | H]; [exists q; split; [left; reflexivity | exact H] |].
      apply (@contains_across_newline P [] _ Hne HP) in H.
      destruct H as [H | H].
      * rewrite contains_nil in H. destruct P; [congruence | discriminate].
      * destruct (IH H) as [z [Hz Hc]]. exists z. split; [right; exact Hz | exact Hc].
Qed.

(** ** Squeezing newlines *)

Lemma startswith_squeezed (P r : str) :
  no_newline P = true ->
  startswith P (squeeze_newlines_from 0 r) = true -> startswith P r = true.
Proof.
  unfold no_newline. revert r. induction P as [|p P IH]; intros r HP; [reflexivity |].
  cbn [forallb] in HP. apply andb_true_iff in HP. destruct HP as [Hp HP].
  apply negb_true_iff in Hp.
  destruct r as [|c r]; [discriminate |]. cbn [squeeze_newlines_from].
  destruct (N.eqb_spec c NL) as [-> | Hc]; cbn [Nat.leb startswith].
  - rewrite Hp. discriminate.
  - intros H. apply andb_true_iff in H. destruct H as [-> H].
    exact (IH r HP H).
Qed.

Lemma contains_squeezed (P r : str) (k : nat) :
  P <> [] -> no_newline P = true ->
  contains P (squeeze_newlines_from k r) = true -> contains P r = true.
Proof.
  intros Hne HP. revert k. induction r as [|c r IH]; intros k; [auto |].
  cbn [squeeze_newlines_from]. rewrite (contains_cons P c r).
  destruct (N.eqb_spec c NL) as [-> | Hc].
  - destruct (2 <=? k)%nat.
    + intros H. rewrite (IH k H). apply orb_true_r.
    + rewrite contains_cons. intros H. apply orb_true_iff in H.
      destruct H as [H | H]; [| rewrite (IH _ H); apply orb_true_r].
      destruct P as [|p P]; [congruence |].
      unfold no_newline in HP. cbn [forallb] in HP.
      apply andb_true_iff in HP. destruct HP as [Hp _].
      apply negb_true_iff in Hp. cbn [startswith] in H.
      rewrite Hp in H. discriminate.
  - rewrite contains_cons. intros H. apply orb_true_iff in H.
    destruct H as [H | H]; [| rewrite (IH _ H); apply orb_true_r].
    destruct P as [|p P]; [congruence |].
    cbn [startswith] in H |- *. apply andb_true_iff in H. destruct H as [-> H].
    unfold no_newline in HP. cbn [forallb] in HP.
    apply andb_true_iff in HP. destruct HP as [_ HP].
    rewrite (startswith_squeezed P r HP H). reflexivity.
Qed.

(** ** Closing up before punctuation *)

Lemma punct_ahead_cons (c : char) (r : str) :
  punct_ahead (c :: r) = if isspace c then punct_ahead r else is_punct c.
Proof. unfold punct_ahead. cbn [lstrip_by]. destruct (isspace c); reflexivity. Qed.


(** Where white space went, a punctuation mark stands first. *)
Lemma fix_punct_head (r : str) :
  punct_ahead r = true ->
  exists q rest, is_punct q = true /\ fix_punct r = q :: rest.
Proof.
  induction r as [|c r IH]; [discriminate |].
  rewrite punct_ahead_cons. cbn [fix_punct].
  destruct (isspace c) eqn:Hs.
  - intros H. rewrite H. cbn [andb]. exact (IH H).
  - intros H. cbn [andb]. exists c, (fix_punct r). split; [exact H | reflexivity].
Qed.

Lemma startswith_fixed (P r : str) :
  no_punct P = true ->
  startswith P (fix_punct r) = true -> startswith P r = true.
Proof.
  unfold no_punct. revert r. induction P as [|p P IH]; intros r HP; [reflexivity |].
  cbn [forallb] in HP. apply andb_true_iff in HP. destruct HP as [Hp HP].
  apply negb_true_iff in Hp.
  destruct r as [|c r]; [discriminate |]. cbn [fix_punct].
  destruct (isspace c && punct_ahead r) eqn:Hdel.
  - apply andb_true_iff in Hdel. destruct Hdel as [_ Hahead].
    destruct (fix_punct_head r Hahead) as [q [rest [Hq ->]]].
    cbn [startswith]. intros H. apply andb_true_iff in H. destruct H as [H _].
    apply N.eqb_eq in H. subst. congruence.
  - cbn [startswith]. intros H. apply andb_true_iff in H. destruct H as [-> H].
    exact (IH r HP H).
Qed.

Lemma contains_fixed (P r : str) :
  no_punct P = true ->
  contains P (fix_punct r) = true -> contains P r = true.
Proof.
  intros HP. induction r as [|c r IH]; [auto |].
  cbn [fix_punct]. rewrite (contains_cons P c r).
  destruct (isspace c && punct_ahead r).
  - intros H. rewrite (IH H). apply orb_true_r.
  - rewrite contains_cons. intros H. apply orb_true_iff in H.
    destruct H as [H | H]; [| rewrite (IH H); apply orb_true_r].
    destruct P as [|p P]; [reflexivity |].
    cbn [startswith] in H |- *. apply andb_true_iff in H. destruct H as [-> H].
    unfold no_punct in HP. cbn [forallb] in HP.
    apply andb_true_iff in HP. destruct HP as [_ HP].
    rewrite (startswith_fixed P r HP H). reflexivity.
Qed.

(** ** What each step settles *)


Lemma collapse_blanks_keeps (x : char) (s : str) (b : bool) :
  is_blank x = false ->
  mem x (collapse_blanks_from b s) = true -> mem x s = true.
Proof.
  intros Hx. unfold mem. revert b. induction s as [|c r IH]; intros b; [auto |].
  cbn [collapse_blanks_from existsb]. destruct (is_blank c) eqn:Hb.
  - destruct b.
    + intros H. rewrite (IH _ H). apply orb_true_r.
    + cbn [existsb]. intros H. apply orb_true_iff in H. destruct H as [H | H].
      * apply N.eqb_eq in H. subst x. discriminate Hx.
      * rewrite (IH _ H). apply orb_true_r.
  - cbn [existsb]. intros H. apply orb_true_iff in H. destruct H as [H | H].
    + rewrite H. reflexivity.
    + rewrite (IH _ H). apply orb_true_r.
Qed.


Lemma contains_NNN_padded (k : nat) (c : char) (z : str) :
  (k <= 2)%nat -> (c =? NL) = false ->
  contains NNN (repeat NL k ++ c :: z) = contains NNN z.
Proof.
  intros Hk Hc.
  destruct k as [|[|[|k]]]; [| | | lia];
    cbn [repeat app]; rewrite ?contains_cons; unfold NNN; cbn [startswith];
    rewrite ?N.eqb_refl, ?(N.eqb_sym NL c), ?Hc, ?andb_false_r; reflexivity.
Qed.

Lemma repeat_shift (k : nat) (z : str) :
  repeat NL k ++ NL :: z = repeat NL (S k) ++ z.
Proof. induction k; [reflexivity | cbn [repeat app]; rewrite IHk; reflexivity]. Qed.

Lemma squeeze_newlines_settled (s : str) (k : nat) :
  (k <= 2)%nat ->
  contains NNN (repeat NL k ++ squeeze_newlines_from k s) = false.
Proof.
  revert k. induction s as [|c r IH]; intros k Hk.
  - cbn [squeeze_newlines_from]. rewrite app_nil_r.
    destruct k as [|[|[|k]]]; [reflexivity | reflexivity | reflexivity | lia].
  - cbn [squeeze_newlines_from]. destruct (N.eqb_spec c NL) as [-> | Hc].
    + destruct (Nat.leb_spec 2 k); [apply IH, Hk |].
      rewrite repeat_shift. apply IH. lia.
    + rewrite contains_NNN_padded by (try apply N.eqb_neq; assumption).
      exact (IH 0%nat (Nat.le_0_l 2)).
Qed.


Lemma punct_ahead_fixed (r : str) : punct_ahead (fix_punct r) = punct_ahead r.
Proof.
  induction r as [|c r IH]; [reflexivity |].
  cbn [fix_punct]. rewrite (punct_ahead_cons c r).
  destruct (isspace c) eqn:Hs; cbn [andb].
  - destruct (punct_ahead r) eqn:Ha; [exact IH |].
    rewrite punct_ahead_cons, Hs. exact IH.
  - rewrite punct_ahead_cons, Hs. reflexivity.
Qed.

Lemma fix_punct_settled (s : str) : space_before_punct (fix_punct s) = false.
Proof.
  induction s as [|c r IH]; [reflexivity |].
  cbn [fix_punct]. destruct (isspace c && punct_ahead r) eqn:E; [exact IH |].
  cbn [space_before_punct]. rewrite punct_ahead_fixed, E, IH. reflexivity.
Qed.


Lemma punct_ahead_app (a b : str) :
  punct_ahead a = true -> punct_ahead (a ++ b) = true.
Proof.
  induction a as [|c a IH]; [discriminate |].
  cbn [app]. rewrite !punct_ahead_cons. destruct (isspace c); [exact IH | auto].
Qed.

Lemma space_before_punct_prefix (a b : str) :
  space_before_punct (a ++ b) = false -> space_before_punct a = false.
Proof.
  induction a as [|c a IH]; [reflexivity |].
  cbn [app space_before_punct]. intros H.
  apply orb_false_iff in H. destruct H as [H1 H2].
  rewrite (IH H2), orb_false_r.
  destruct (isspace c); [| reflexivity]. cbn [andb] in *.
  destruct (punct_ahead a) eqn:E; [| reflexivity].
  rewrite (punct_ahead_app a b E) in H1. discriminate H1.
Qed.

Lemma space_before_punct_suffix (a b : str) :
  space_before_punct (a ++ b) = false -> space_before_punct b = false.
Proof.
  induction a as [|c a IH]; [auto |].
  cbn [app space_before_punct]. intros H.
  apply orb_false_iff in H. apply IH, H.
Qed.

Lemma space_before_punct_strip (s : str) :
  space_before_punct s = false -> space_before_punct (strip s) = false.
Proof.
  unfold strip, strip_by. intros H.
  destruct (lstrip_by_suffix isspace s) as [a Ea].
  destruct (rstrip_by_prefix isspace (lstrip_by isspace s)) as [b Eb].
  rewrite Ea in H. apply space_before_punct_suffix in H.
  rewrite Eb in H. apply space_before_punct_prefix in H. exact H.
Qed.

(* ================================================================== *)
(** * The cleaning steps and what they keep *)
(* ================================================================== *)

Lemma mem_false_contains (x : char) (s : str) :
  mem x s = false <-> contains [x] s = false.
Proof. rewrite mem_contains. reflexivity. Qed.

(** What occurs in a paragraph of the text occurs in the text with its
    blanks collapsed. *)
Lemma pieces_from_text (P : str) (text q : str) :
  In q (split SENTINEL (collapse_blanks text)) ->
  contains P q = true -> contains P (collapse_blanks text) = true.
Proof.
  assert (Hs : SENTINEL <> []) by discriminate.
  exact (proj2 (split_pieces Hs (collapse_blanks text)) P q).
Qed.

(** ** Empty pairs of bold markers *)



Lemma remove_empty_bold_fixed (s : str) :
  has_empty_bold s = false -> remove_empty_bold s = s.
Proof.
  unfold remove_empty_bold. induction s as [|c r IH]; [reflexivity |].
  cbn [remove_empty_bold_from has_empty_bold].
  destruct (empty_bold_at (c :: r)); [discriminate |].
  intros H. rewrite (IH H). reflexivity.
Qed.









Lemma star_free_no_empty_bold (s : str) :
  mem STAR s = false -> has_empty_bold s = false.
Proof.
  unfold mem. induction s as [|c r IH]; [reflexivity |].
  cbn [existsb has_empty_bold]. intros H.
  apply orb_false_iff in H. destruct H as [Hc Hr].
  rewrite (IH Hr), orb_false_r. unfold empty_bold_at.
  rewrite N.eqb_sym in Hc. rewrite Hc. destruct r; reflexivity.
Qed.

(** ** The two passes *)

Lemma collapse_blanks_avoids (x : char) (text : str) :
  is_blank x = false -> mem x text = false ->
  contains [x] (collapse_blanks text) = false.
Proof.
  intros Hx Hm. apply mem_false_contains.
  destruct (mem x (collapse_blanks text)) eqn:F; [| reflexivity].
  rewrite <- Hm. symmetry. exact (collapse_blanks_keeps x text false Hx F).
Qed.

Lemma clean_text_stages (text : str) :
  clean_text text = strip (fix_punct (remove_empty_bold (squeezed_text text))).
Proof. reflexivity. Qed.


(* ================================================================== *)
(** * More on numbers and paths *)
(* ================================================================== *)

Lemma ascii_equivalent_settled (c : char) :
  digit_value (ascii_equivalent c) = None.
Proof.
  unfold ascii_equivalent, digit_value.
  destruct (N.leb_spec 2406 c), (N.leb_spec c 2415),
           (N.leb_spec 2790 c), (N.leb_spec c 2799); cbn [andb];
    repeat match goal with
           | |- context [N.leb ?a ?b] => destruct (N.leb_spec a b); try lia
           end; reflexivity.
Qed.

Lemma ascii_equivalent_idempotent (c : char) :
  ascii_equivalent (ascii_equivalent c) = ascii_equivalent c.
Proof.
  unfold ascii_equivalent at 1. rewrite ascii_equivalent_settled. reflexivity.
Qed.

Lemma deva_to_english_again (text : str) :
  deva_to_english (deva_to_english text) = deva_to_english text.
Proof.
  rewrite !deva_to_english_normalises_chars, map_map.
  apply map_ext. apply ascii_equivalent_idempotent.
Qed.

(** X1. Numeral normalisation keeps the length of a string, leaves no
    Devanagari or Gujarati digit in it, and changes nothing when it is
    applied again. *)
Theorem deva_to_english_settles (text : str) :
  List.length (deva_to_english text) = List.length text
  /\ (forall c, In c (deva_to_english text) -> digit_value c = None)
  /\ deva_to_english (deva_to_english text) = deva_to_english text.
Proof.
  split; [| split].
  - unfold deva_to_english. apply length_map.
  - rewrite deva_to_english_normalises_chars. intros c Hc.
    apply in_map_iff in Hc. destruct Hc as [x [<- _]].
    apply ascii_equivalent_settled.
  - apply deva_to_english_again.
Qed.

(** X2. The path of an entry does not depend on the script its number is
    written in: the number and its normalised form lead to the same
    path. *)
Theorem path_ignores_script (U : UnicodeTables) (org : Organize) (e : EntryInfo) :
  entry_path U org (renumbered e (deva_to_english (number e))) = entry_path U org e
  /\ get_entry_filename U (renumbered e (deva_to_english (number e)))
     = get_entry_filename U e.
Proof.
  unfold entry_path, path_segments, get_entry_filename, renumbered. cbn [number].
  rewrite deva_to_english_again, deva_to_english_dot. split; reflexivity.
Qed.

(* ================================================================== *)
(** * The entries of a book and their summaries *)
(* ================================================================== *)

Lemma parse_sutraani_metadata (U : UnicodeTables) (item : located) (d : summary) :
  parse_sutraani U item = Some d -> citation_only (s_metadata d).
Proof.
  unfold parse_sutraani.
  destruct (_ && _); [| discriminate].
  destruct (href_parts _) as [|x0 [|a [|p [|s [|? ?]]]]]; try discriminate.
  destruct (_ && _); [| discriminate].
  intros H. injection H as <-. cbn [s_metadata]. unfold citation_only.
  destruct (text_of (select_one_in _ item)) as [text|]; [| left; reflexivity].
  destruct (contains KAUMUDI text) eqn:E; [| left; reflexivity].
  destruct (nonempty text); [| left; reflexivity].
  right. exists text. split; [reflexivity | exact E].
Qed.

Lemma parse_simple_inv (item : located) (d : summary) :
  parse_simple item = Some d ->
  has_class (lit "bg-light") (classes_of (here item)) = false
  /\ s_metadata d = [] /\ path_parts d = None
  /\ exists link,
       select_one_in [Last [STag (lit "a"); SHasAttr (lit "href")]] item = Some link
       /\ href link <> [] /\ href link <> lit "#"
       /\ s_url d = (if startswith (lit "/") (href link) then BASE_URL ++ href link
                     else if startswith (lit "http") (href link) then href link
                     else BASE_URL ++ lit "/" ++ href link).
Proof.
  unfold parse_simple, href.
  destruct (has_class _ _); [discriminate |].
  destruct (select_one_in _ item) as [link|]; [| discriminate].
  destruct (nonempty (or_empty (href_of link))) eqn:Hne; [| discriminate].
  destruct (str_eqb (or_empty (href_of link)) (lit "#")) eqn:Hhash; [discriminate |].
  cbn [negb orb]. intros H. injection H as <-. cbn [s_metadata path_parts s_url].
  split; [reflexivity |]. split; [reflexivity |]. split; [reflexivity |].
  exists link. split; [reflexivity |]. split; [| split; [| reflexivity]].
  - apply nonempty_true, Hne.
  - intros E. rewrite E in Hhash. discriminate Hhash.
Qed.

Lemma summary_metadata (U : UnicodeTables) (item : located) (b : BookType)
      (d : summary) :
  parse_single_entry U item b = Some d -> citation_only (s_metadata d).
Proof.
  destruct b; cbn [parse_single_entry];
    try (intros H; apply parse_simple_inv in H; left; apply H).
  apply parse_sutraani_metadata.
Qed.

(** Every entry of the loop is built from one of the summaries. *)
Lemma scrape_entries_sound (limit : option Z) (W : World)
      (entries_data : list summary) (i req : nat) (e : EntryInfo) :
  In e (scrape_entries limit W i req entries_data) ->
  exists j data detail, In data entries_data /\ e = make_entry j data detail.
Proof.
  revert i req. induction entries_data as [|d r IH]; intros i req; cbn [scrape_entries].
  - intros [].
  - destruct (limit_passed limit i); [intros [] |].
    intros [<- | H].
    + exists i, d, (parse_detail_page W req (s_url d)).
      split; [left |]; reflexivity.
    + destruct (IH _ _ H) as (j & data & detail & Hin & ->).
      exists j, data, detail. split; [right; exact Hin | reflexivity].
Qed.

Lemma book_entries_sound (U : UnicodeTables) (limit : option Z) (W : World)
      (b : BookType) (e : EntryInfo) :
  In e (book_entries (scrape_book U limit W b)) ->
  exists j data detail item,
    parse_single_entry U item b = Some data /\ e = make_entry j data detail.
Proof.
  unfold scrape_book.
  destruct (negb (driver_starts W)); [intros [] |].
  destruct (load W 0 _) as [html|]; [| intros []].
  destruct (parse_main_page_header _) as [[sn hs] ft].
  cbn [book_entries chapters flat_map entries]. rewrite app_nil_r.
  intros H. apply scrape_entries_sound in H.
  destruct H as (j & data & detail & Hin & ->).
  unfold parse_entry_links in Hin. apply collect_sound in Hin.
  destruct Hin as [item [_ Hp]]. exists j, data, detail, item.
  split; [exact Hp | reflexivity].
Qed.

(** Without an [adhyaya] value in the metadata the index links to the path
    the file is written at. *)
Lemma index_filepath_agrees (U : UnicodeTables) (org : Organize) (e : EntryInfo) :
  has_value (metadata e) "adhyaya" = false ->
  mem 47 (number e) = false ->
  index_filepath U org e = render_path (entry_path U org e).
Proof.
  intros Hm Hslash. rewrite (entry_path_plain U org e Hslash).
  unfold index_filepath, path_segments. rewrite Hm, andb_false_r.
  rewrite deva_to_english_dot.
  destruct org; rewrite ?andb_false_r, ?andb_true_r; try reflexivity.
  destruct (mem 46 (number e)); [| reflexivity].
  destruct (split (lit ".") (deva_to_english (number e))) as [|p0 [|p1 [|p2 rest]]];
    reflexivity.
Qed.

(** X3. For every entry of a scraped book whose number holds no slash, the
    link the README index gives it is the path, below the book directory,
    that [save_to_markdown] derives for its file. *)
Theorem index_links_to_written_file
        (U : UnicodeTables) (limit : option Z) (W : World) (b : BookType)
        (e : EntryInfo) :
  In e (book_entries (scrape_book U limit W b)) ->
  mem 47 (number e) = false ->
  index_filepath U (organize_by (BOOK_CONFIGS b)) e
  = render_path (book_entry_path U b e).
Proof.
  intros H Hslash. apply book_entries_sound in H.
  destruct H as (j & data & detail & item & Hp & ->).
  apply index_filepath_agrees; [| exact Hslash].
  apply summary_metadata in Hp. unfold make_entry. cbn [metadata].
  destruct Hp as [-> | [k [-> _]]]; reflexivity.
Qed.

Lemma index_links_witness :
  index_filepath unicode_14 adhyaya_pada
    (make_entry 1
       {| s_number := [2407; 46; 2407; 46; 2407]; s_title := lit "vrddhir adaic";
          s_url := lit "https://ashtadhyayi.com/sutraani/1/1/1";
          s_notes := [BULLET :: lit " note"];
          s_metadata := [(lit "kaumudi", KAUMUDI ++ lit " 16")];
          path_parts := Some (lit "1", lit "1", lit "1") |}
       (Some (parse_page page_with_sections)))
  = lit "adhyaya_1/pada_1/sutra_001.md".
Proof.
  refine (@index_links_to_written_file unicode_14 None
            (world_of listing_with_citation page_with_sections) sutraani _ _ _).
  - vm_compute. left. reflexivity.
  - reflexivity.
Defined.

(* ================================================================== *)
(** * More on the listing parser *)
(* ================================================================== *)

Lemma parse_single_entry_flat (U : UnicodeTables) (item : located) (b : BookType) :
  flat_listed b = true -> parse_single_entry U item b = parse_simple item.
Proof. destruct b; [reflexivity | discriminate | reflexivity ..]. Qed.

(** X4. In the flat-list variant an item that carries the header style
    yields no summary, and every summary returned comes from an item of
    the listing without that style that holds a link whose target is
    neither empty nor [#]; the URL of the summary is that target made
    absolute, and the summary carries no metadata. *)
Theorem flat_listing_filter
        (U : UnicodeTables) (limit : option Z) (soup : list node) (b : BookType) :
  flat_listed b = true ->
  (forall item, has_class (lit "bg-light") (classes_of (here item)) = true ->
                parse_single_entry U item b = None)
  /\ (forall d, In d (parse_entry_links U limit soup b) ->
        s_metadata d = []
        /\ exists item link,
             In item (entry_items soup b)
             /\ has_class (lit "bg-light") (classes_of (here item)) = false
             /\ select_one_in [Last [STag (lit "a"); SHasAttr (lit "href")]] item
                = Some link
             /\ href link <> [] /\ href link <> lit "#"
             /\ s_url d = resolved (href link)).
Proof.
  intros Hb. split.
  - intros item Hc. rewrite (parse_single_entry_flat U item b Hb).
    unfold parse_simple. rewrite Hc. reflexivity.
  - intros d Hd. unfold parse_entry_links in Hd. apply collect_sound in Hd.
    destruct Hd as [item [Hin Hp]].
    rewrite (parse_single_entry_flat U item b Hb) in Hp.
    apply parse_simple_inv in Hp.
    destruct Hp as (Hc & Hm & _ & link & Hl & H1 & H2 & Hu).
    split; [exact Hm |]. exists item, link. repeat split; assumption.
Qed.

Lemma flat_listing_filter_witness :
  map s_url (parse_entry_links unicode_14 None flat_listing shiksha)
  = [ lit "https://ashtadhyayi.com/shiksha/1";
      lit "https://ashtadhyayi.com/shiksha/2" ]
  /\ forall d, In d (parse_entry_links unicode_14 None flat_listing shiksha) ->
               s_metadata d = [].
Proof.
  split; [vm_compute; reflexivity |].
  intros d Hd.
  exact (proj1 (proj2 (@flat_listing_filter unicode_14 None flat_listing shiksha
                         eq_refl) d Hd)).
Defined.

Lemma startswith_http_base (rest : str) :
  startswith (lit "http") (BASE_URL ++ rest) = true.
Proof. reflexivity. Qed.

(** X5. Every URL the listing parser returns is absolute: it starts with
    [http], whatever the book and the link target. *)
Theorem listing_urls_absolute
        (U : UnicodeTables) (limit : option Z) (soup : list node) (b : BookType)
        (d : summary) :
  In d (parse_entry_links U limit soup b) ->
  startswith (lit "http") (s_url d) = true.
Proof.
  unfold parse_entry_links. intros Hd. apply collect_sound in Hd.
  destruct Hd as [item [_ Hp]].
  destruct (flat_listed b) eqn:Hb.
  - rewrite (parse_single_entry_flat U item b Hb) in Hp.
    apply parse_simple_inv in Hp.
    destruct Hp as (_ & _ & _ & link & _ & _ & _ & ->).
    destruct (startswith (lit "/") (href link)); [apply startswith_http_base |].
    destruct (startswith (lit "http") (href link)) eqn:E;
      [exact E | apply startswith_http_base].
  - destruct b; try discriminate Hb. cbn [parse_single_entry] in Hp.
    apply parse_sutraani_inv in Hp. destruct Hp as (_ & _ & ->).
    apply startswith_http_base.
Qed.

Lemma listing_urls_absolute_witness :
  startswith (lit "http") (lit "https://ashtadhyayi.com/shiksha/2") = true.
Proof.
  refine (@listing_urls_absolute unicode_14 None flat_listing shiksha
            {| s_number := []; s_title := [];
               s_url := lit "https://ashtadhyayi.com/shiksha/2";
               s_notes := []; s_metadata := []; path_parts := None |} _).
  vm_compute. right. left. reflexivity.
Defined.

Lemma limit_reached_unlimited (limit : option Z) (n : nat) :
  unlimited limit = true -> limit_reached limit n = false.
Proof.
  destruct limit as [l|]; [| reflexivity]. cbn. intros ->. reflexivity.
Qed.

(** Without a limit the loop does not look at how many summaries it has. *)
Lemma collect_unlimited (U : UnicodeTables) (limit limit' : option Z) (b : BookType)
      (items : list located) (m n : nat) :
  unlimited limit = true -> unlimited limit' = true ->
  Listing.collect U limit b m items = Listing.collect U limit' b n items.
Proof.
  intros H H'. revert m n. induction items as [|x r IH]; intros m n; [reflexivity |].
  cbn [Listing.collect]. destruct (parse_single_entry U x b); [| apply IH].
  rewrite (limit_reached_unlimited limit (S m) H).
  rewrite (limit_reached_unlimited limit' (S n) H').
  f_equal. apply IH.
Qed.

Lemma collect_truncates (U : UnicodeTables) (l : Z) (b : BookType)
      (items : list located) (found : nat) :
  l <> 0%Z ->
  Listing.collect U (Some l) b found items
  = firstn (Nat.max 1 (Z.to_nat l - found)) (Listing.collect U None b 0 items).
Proof.
  intros Hl. revert found. induction items as [|item r IH]; intros found.
  - cbn [Listing.collect]. rewrite firstn_nil. reflexivity.
  - cbn [Listing.collect]. destruct (parse_single_entry U item b) as [d|].
    + cbn [limit_reached]. destruct (Z.eqb_spec l 0) as [? | _]; [contradiction |].
      cbn [negb andb].
      rewrite (@collect_unlimited U None None b r 1 0 eq_refl eq_refl).
      destruct (Z.leb_spec l (Z.of_nat (S found))) as [Hle | Hgt].
      * replace (Nat.max 1 (Z.to_nat l - found)) with 1%nat by lia.
        reflexivity.
      * replace (Nat.max 1 (Z.to_nat l - found))
          with (S (Nat.max 1 (Z.to_nat l - S found))) by lia.
        cbn [firstn]. f_equal. apply IH.
    + apply IH.
Qed.

(** X6. A limit cuts the listing short and changes nothing else: with a
    limit [l] that is not zero the listing parser returns the first
    [max 1 l] summaries of those it returns without a limit (one summary
    when [l] is negative), and a limit of zero is no limit. *)
Theorem limit_truncates_listing
        (U : UnicodeTables) (soup : list node) (b : BookType) (l : Z) :
  parse_entry_links U (Some l) soup b
  = if (l =? 0)%Z then parse_entry_links U None soup b
    else firstn (Nat.max 1 (Z.to_nat l)) (parse_entry_links U None soup b).
Proof.
  unfold parse_entry_links. destruct (Z.eqb_spec l 0) as [-> | Hl].
  - apply collect_unlimited; reflexivity.
  - rewrite (@collect_truncates U l b (entry_items soup b) 0 Hl).
    rewrite Nat.sub_0_r. reflexivity.
Qed.

Lemma sibling_notes_bulleted (following : list node) :
  Forall (fun n => startswith [BULLET] n = true) (sibling_notes following).
Proof.
  induction following as [|x r IH]; [constructor |].
  destruct x as [t | nm cl at_ ch]; cbn [sibling_notes]; [exact IH |].
  destruct (str_eqb nm (lit "a")); [constructor |].
  destruct (startswith [BULLET] _) eqn:E; cbn [app]; [constructor; assumption | exact IH].
Qed.

Lemma sutraani_summary_parts (U : UnicodeTables) (item : located) (d : summary) :
  parse_single_entry U item sutraani = Some d ->
  citation_only (s_metadata d)
  /\ Forall (fun n => startswith [BULLET] n = true) (s_notes d).
Proof.
  cbn [parse_single_entry]. intros H.
  split; [exact (parse_sutraani_metadata U item H) |].
  revert H. unfold parse_sutraani.
  destruct (_ && _); [| discriminate].
  destruct (href_parts _) as [|x0 [|a [|p [|s [|? ?]]]]]; try discriminate.
  destruct (_ && _); [| discriminate].
  intros H. injection H as <-. cbn [s_notes]. apply sibling_notes_bulleted.
Qed.

(** X7. A summary of the segmented-path book records the last three
    segments of its anchor's target; when the anchor has no badge its
    number is those three segments joined by dots; its metadata is empty or
    holds only a citation that contains the marker word; and each of its
    notes begins with the bullet. *)
Theorem sutraani_summary_shape (U : UnicodeTables) (item : located) (d : summary) :
  parse_single_entry U item sutraani = Some d ->
  (exists x a p s,
      href_parts (href item) = [x; a; p; s]
      /\ path_parts d = Some (a, p, s)
      /\ (select_one_in [cls "badge"; cls "font-weight-bold"] item = None ->
          s_number d = a ++ lit "." ++ p ++ lit "." ++ s))
  /\ citation_only (s_metadata d)
  /\ Forall (fun n => startswith [BULLET] n = true) (s_notes d).
Proof.
  intros H. split; [| exact (sutraani_summary_parts U item H)].
  revert H. cbn [parse_single_entry]. unfold parse_sutraani, href.
  destruct (_ && _); [| discriminate].
  destruct (href_parts _) as [|x0 [|a [|p [|s [|? ?]]]]]; try discriminate.
  destruct (_ && _); [| discriminate].
  intros H. injection H as <-. exists x0, a, p, s. cbn [path_parts s_number].
  split; [reflexivity |]. split; [reflexivity |].
  intros ->. reflexivity.
Qed.

Lemma sutraani_summary_witness :
  exists d, parse_single_entry unicode_14 first_anchor sutraani = Some d
            /\ s_number d = lit "1.1.1"
            /\ path_parts d = Some (lit "1", lit "1", lit "1").
Proof.
  eexists. split; [vm_compute; reflexivity |].
  destruct (proj1 (@sutraani_summary_shape unicode_14 first_anchor _ eq_refl))
    as (x & a & p & s & Hparts & Hpp & Hnum).
  vm_compute in Hparts. injection Hparts as <- <- <- <-.
  split; [exact (Hnum eq_refl) | exact Hpp].
Defined.

(** X8. No note of a listing summary is empty, whatever the book. *)
Theorem notes_never_empty
        (U : UnicodeTables) (limit : option Z) (soup : list node) (b : BookType)
        (d : summary) (note : str) :
  In d (parse_entry_links U limit soup b) ->
  In note (s_notes d) ->
  note <> [].
Proof.
  unfold parse_entry_links. intros Hd Hn. apply collect_sound in Hd.
  destruct Hd as [item [_ Hp]].
  destruct (flat_listed b) eqn:Hb.
  - rewrite (parse_single_entry_flat U item b Hb) in Hp.
    unfold parse_simple in Hp.
    destruct (has_class _ _); [discriminate |].
    destruct (select_one_in _ item) as [link|]; [| discriminate].
    destruct (_ || _); [discriminate |].
    injection Hp as <-. cbn [s_notes] in Hn.
    apply filter_In in Hn. apply nonempty_true, Hn.
  - destruct b; try discriminate Hb.
    destruct (sutraani_summary_parts U item Hp) as [_ Hnotes].
    rewrite Forall_forall in Hnotes. specialize (Hnotes note Hn).
    destruct note; [discriminate Hnotes | discriminate].
Qed.

Lemma notes_never_empty_witness : lit "a note" <> [].
Proof.
  refine (@notes_never_empty unicode_14 None flat_listing shiksha
            {| s_number := lit "1"; s_title := lit "one";
               s_url := lit "https://ashtadhyayi.com/shiksha/1";
               s_notes := [lit "a note"]; s_metadata := []; path_parts := None |}
            (lit "a note") _ _).
  - vm_compute. left. reflexivity.
  - left. reflexivity.
Defined.

(* ================================================================== *)
(** * More on the run *)
(* ================================================================== *)

Lemma scrape_entries_all (limit : option Z) (W : World)
      (listing : list summary) (i req : nat) :
  (forall j, (j < List.length listing)%nat -> limit_passed limit (i + j) = false) ->
  scrape_entries limit W i req listing = merge_all W i req listing.
Proof.
  revert i req. induction listing as [|d r IH]; intros i req H; [reflexivity |].
  cbn [scrape_entries merge_all].
  pose proof (H 0%nat ltac:(cbn; lia)) as H0. rewrite Nat.add_0_r in H0.
  rewrite H0. f_equal. apply IH.
  intros j Hj. replace (S i + j)%nat with (i + S j)%nat by lia.
  apply H. cbn [List.length]. lia.
Qed.

Lemma merge_all_fields (W : World) (listing : list summary) (i req : nat) :
  List.length (merge_all W i req listing) = List.length listing
  /\ map url (merge_all W i req listing) = map s_url listing
  /\ map notes (merge_all W i req listing) = map s_notes listing
  /\ map metadata (merge_all W i req listing) = map s_metadata listing.
Proof.
  revert i req. induction listing as [|d r IH]; intros i req; [repeat split |].
  destruct (IH (S i) (S req)) as (H1 & H2 & H3 & H4).
  cbn [merge_all map List.length]. rewrite H1, H2, H3, H4. repeat split.
Qed.

(** X9. With a limit that is absent or not negative, the book a run
    returns has one chapter with exactly one entry for each summary of the
    listing, in the order of the listing: the entry at position [k] is
    built from the summary at position [k] and the detail result of page
    load [k + 1], and it keeps the URL, notes and metadata of its
    summary. *)
Theorem book_entries_follow_listing
        (U : UnicodeTables) (limit : option Z) (W : World) (b : BookType)
        (book : BookInfo) :
  limit_sound limit ->
  scrape_book U limit W b = Ok book ->
  exists html ch,
    load W 0 (cfg_url (BOOK_CONFIGS b)) = Some html
    /\ chapters book = [ch]
    /\ let listing :=
         parse_entry_links U limit (listing_page limit W (BOOK_CONFIGS b) html) b in
       entries ch = merge_all W 1 1 listing
       /\ List.length (entries ch) = List.length listing
       /\ map url (entries ch) = map s_url listing
       /\ map notes (entries ch) = map s_notes listing
       /\ map metadata (entries ch) = map s_metadata listing.
Proof.
  intros Hlim. unfold scrape_book.
  destruct (negb (driver_starts W)); [discriminate |].
  destruct (load W 0 (cfg_url (BOOK_CONFIGS b))) as [html|]; [| discriminate].
  destruct (parse_main_page_header _) as [[sn hs] ft].
  intros Hbook. injection Hbook as <-.
  eexists. eexists. split; [reflexivity |]. split; [reflexivity |].
  cbv zeta. cbn [entries].
  set (listing := parse_entry_links U limit
                    (listing_page limit W (BOOK_CONFIGS b) html) b).
  assert (E : scrape_entries limit W 1 1 listing = merge_all W 1 1 listing).
  { apply scrape_entries_all. intros j Hj.
    apply (@limit_passed_sound limit (1 + j) (List.length listing)); [| lia].
    destruct limit as [l|]; [| exact I].
    destruct (Z.eq_dec l 0) as [E | E]; [left; exact E | right].
    pose proof (@collect_length U l b
                  (entry_items (listing_page (Some l) W (BOOK_CONFIGS b) html) b) 0%nat)
      as Hc.
    simpl in Hlim. cbn [Nat.add] in Hc. unfold listing, parse_entry_links. lia. }
  rewrite E. split; [reflexivity |]. apply merge_all_fields.
Qed.

Lemma book_entries_follow_listing_witness :
  exists book ch,
    scrape_book unicode_14 (Some 5%Z) (world_of flat_listing page_titled_1_1_1) shiksha
    = Ok book
    /\ chapters book = [ch]
    /\ map url (entries ch)
       = [ lit "https://ashtadhyayi.com/shiksha/1";
           lit "https://ashtadhyayi.com/shiksha/2" ].
Proof.
  destruct (scrape_book unicode_14 (Some 5%Z)
              (world_of flat_listing page_titled_1_1_1) shiksha)
    as [book | msg] eqn:E; [| vm_compute in E; discriminate E].
  destruct (@book_entries_follow_listing unicode_14 (Some 5%Z)
              (world_of flat_listing page_titled_1_1_1) shiksha book
              ltac:(simpl; lia) E)
    as (html & ch & Hload & Hc & _ & _ & Hu & _).
  exists book, ch. split; [reflexivity |]. split; [exact Hc |].
  rewrite Hu. injection Hload as <-. vm_compute. reflexivity.
Defined.

(** X11. With a negative limit the listing parser returns one summary at
    most and the book of the run has no entry at all. *)
Theorem negative_limit_empties_book
        (U : UnicodeTables) (W : World) (b : BookType) (soup : list node) (l : Z) :
  (l < 0)%Z ->
  (List.length (parse_entry_links U (Some l) soup b) <= 1)%nat
  /\ book_entries (scrape_book U (Some l) W b) = [].
Proof.
  intros Hl. split.
  - unfold parse_entry_links.
    rewrite (@collect_truncates U l b (entry_items soup b) 0) by lia.
    replace (Nat.max 1 (Z.to_nat l - 0)) with 1%nat by lia.
    destruct (Listing.collect U None b 0 (entry_items soup b)) as [|x r];
      cbn; lia.
  - unfold scrape_book. destruct (negb (driver_starts W)); [reflexivity |].
    destruct (load W 0 _) as [html|]; [| reflexivity].
    destruct (parse_main_page_header _) as [[sn hs] ft].
    cbn [book_entries chapters flat_map entries]. rewrite app_nil_r.
    destruct (parse_entry_links _ _ _ _) as [|d r]; [reflexivity |].
    cbn [scrape_entries].
    assert (E : limit_passed (Some l) 1 = true).
    { cbn [limit_passed]. destruct (Z.eqb_spec l 0); [lia |].
      cbn [negb andb]. apply Z.ltb_lt. lia. }
    rewrite E. reflexivity.
Qed.

Lemma negative_limit_witness :
  (List.length (parse_entry_links unicode_14 (Some (-1)%Z) flat_listing shiksha) <= 1)%nat
  /\ book_entries
       (scrape_book unicode_14 (Some (-1)%Z)
          (world_of flat_listing page_titled_1_1_1) shiksha) = [].
Proof.
  exact (@negative_limit_empties_book unicode_14
           (world_of flat_listing page_titled_1_1_1) shiksha flat_listing (-1)%Z
           eq_refl).
Defined.

(* ================================================================== *)
(** * More on the detail extractor *)
(* ================================================================== *)

(** X12. A detail page on which none of the regions the extractor looks for
    is found gives a result with empty content and no sections. *)
Theorem detail_without_regions (soup : list node) :
  select_one short_meaning_region soup = None ->
  select_one explanation_region soup = None ->
  select_one summary_region soup = None ->
  select commentary_regions soup = [] ->
  select_one fallback_region soup = None ->
  d_content (parse_page soup) = [] /\ d_sections (parse_page soup) = [].
Proof.
  unfold short_meaning_region, explanation_region, summary_region,
    commentary_regions, fallback_region.
  intros Hshort Hexp Hsum Hcom Hfall.
  unfold parse_page, summary_content. cbn [d_content d_sections].
  rewrite Hshort, Hexp, Hsum, Hcom, Hfall. split; reflexivity.
Qed.

Lemma detail_without_regions_witness :
  d_content (parse_page page_titled_1_1_1) = []
  /\ d_sections (parse_page page_titled_1_1_1) = [].
Proof.
  exact (@detail_without_regions page_titled_1_1_1
           eq_refl eq_refl eq_refl eq_refl eq_refl).
Defined.

Lemma split_first_found (c : char) (a b : str) :
  mem c a = false -> split_first [c] (a ++ c :: b) = (a, Some b).
Proof.
  unfold mem. induction a as [|x a IH].
  - intros _. cbn [app split_first startswith]. rewrite N.eqb_refl. reflexivity.
  - cbn [existsb app split_first startswith]. intros H.
    apply orb_false_iff in H. destruct H as [Hx Ha].
    rewrite Hx. cbn [andb]. rewrite (IH Ha). reflexivity.
Qed.

(** X13. When the text of the title element has a space in it, the number
    of the result is what stands before the first space and the title is
    what stands after it, each stripped. *)
Theorem title_split_at_first_space (soup : list node) (a b : str) :
  page_title soup = a ++ 32 :: b ->
  mem 32 a = false ->
  d_number (parse_page soup) = strip a /\ d_title (parse_page soup) = strip b.
Proof.
  intros Ht Ha.
  change (d_number (parse_page soup)) with (number_of_title (page_title soup)).
  change (d_title (parse_page soup)) with (entry_title_of (page_title soup)).
  unfold number_of_title, entry_title_of, title_parts. rewrite Ht.
  assert (Hne : nonempty (a ++ 32 :: b) = true) by (destruct a; reflexivity).
  rewrite Hne. unfold split1.
  replace (split_first (lit " ") (a ++ 32 :: b)) with (a, Some b)
    by (symmetry; exact (split_first_found 32 a b Ha)).
  split; reflexivity.
Qed.

Lemma title_split_witness :
  d_number (parse_page page_two_regions) = lit "1.1.1"
  /\ d_title (parse_page page_two_regions) = lit "vrddhir adaic".
Proof.
  exact (@title_split_at_first_space page_two_regions
           (lit "1.1.1") (lit "vrddhir adaic") eq_refl eq_refl).
Defined.

Lemma str_eqb_eq (a b : str) : str_eqb a b = true <-> a = b.
Proof.
  revert b. induction a as [|x a IH]; intros [|y b]; cbn [str_eqb];
    try (split; [discriminate | discriminate]); [split; reflexivity |].
  rewrite andb_true_iff, N.eqb_eq, IH. split.
  - intros [-> ->]. reflexivity.
  - intros E. injection E as -> ->. split; reflexivity.
Qed.

Lemma dict_set_keys (d : Dict.dict str) (k v : str) :
  keys (Dict.set d k v) = if existsb (str_eqb k) (keys d) then keys d
                          else keys d ++ [k].
Proof.
  unfold keys. induction d as [|[k' v'] r IH]; [reflexivity |].
  cbn [Dict.set map fst existsb].
  destruct (str_eqb k' k) eqn:E.
  - apply str_eqb_eq in E. subst k'.
    assert (R : str_eqb k k = true) by (apply str_eqb_eq; reflexivity).
    rewrite R. reflexivity.
  - assert (R : str_eqb k k' = false).
    { destruct (str_eqb k k') eqn:F; [| reflexivity].
      apply str_eqb_eq in F. subst k'.
      assert (T : str_eqb k k = true) by (apply str_eqb_eq; reflexivity).
      congruence. }
    rewrite R. cbn [map fst orb]. rewrite IH.
    destruct (existsb (str_eqb k) (map fst r)); reflexivity.
Qed.

Lemma existsb_str_eqb (k : str) (l : list str) :
  existsb (str_eqb k) l = false -> ~ In k l.
Proof.
  intros H Hin.
  assert (T : existsb (str_eqb k) l = true).
  { apply existsb_exists. exists k. split; [exact Hin |].
    apply str_eqb_eq. reflexivity. }
  congruence.
Qed.

Lemma dict_set_named (d : Dict.dict str) (k v : str) :
  NoDup (keys d) -> Forall (fun n => n <> []) (keys d) -> k <> [] ->
  NoDup (keys (Dict.set d k v)) /\ Forall (fun n => n <> []) (keys (Dict.set d k v)).
Proof.
  intros Hnd Hne Hk. rewrite dict_set_keys.
  destruct (existsb (str_eqb k) (keys d)) eqn:E; [split; assumption |].
  apply existsb_str_eqb in E. split.
  - apply NoDup_app; [exact Hnd | repeat constructor; intros [] |].
    intros x Hx [<- | []]. exact (E Hx).
  - apply Forall_app. split; [exact Hne | repeat constructor; exact Hk].
Qed.

Lemma add_commentary_named (d : Dict.dict str) (region : located) :
  NoDup (keys d) /\ Forall (fun n => n <> []) (keys d) ->
  NoDup (keys (add_commentary d region))
  /\ Forall (fun n => n <> []) (keys (add_commentary d region)).
Proof.
  intros [Hnd Hne]. unfold add_commentary.
  destruct (contains _ _); [split; assumption |].
  destruct (nonempty _) eqn:Hname; cbn [negb]; [| split; assumption].
  destruct (select_one_in [cls "sutra-commentary"] region) as [e|];
    [| split; assumption].
  destruct (nonempty (strip _)); [| split; assumption].
  apply dict_set_named; [exact Hnd | exact Hne | apply nonempty_true, Hname].
Qed.

Lemma add_commentary_pair (d : Dict.dict str) (region : located) :
  add_commentary d region
  = match commentary_pair region with
    | Some (name, value) => Dict.set d name value
    | None => d
    end.
Proof.
  unfold add_commentary, commentary_pair.
  destruct (contains _ _); [reflexivity |].
  destruct (select_one_in [cls "list-item-title-color"] region) as [t|];
    cbn [nonempty negb];
    destruct (select_one_in [cls "sutra-commentary"] region) as [e|];
    try reflexivity.
  - destruct (nonempty (get_text_strip (here t))); cbn [negb andb]; [| reflexivity].
    destruct (nonempty (strip _)); reflexivity.
  - destruct (negb _); reflexivity.
Qed.

Lemma str_eqb_refl (k : str) : str_eqb k k = true.
Proof. apply str_eqb_eq. reflexivity. Qed.

Lemma dict_get_set_same (d : Dict.dict str) (k v : str) :
  Dict.get (Dict.set d k v) k = Some v.
Proof.
  induction d as [|[k' v'] r IH]; cbn [Dict.set Dict.get].
  - rewrite str_eqb_refl. reflexivity.
  - destruct (str_eqb k' k) eqn:E; cbn [Dict.get]; rewrite E; [reflexivity | exact IH].
Qed.

Lemma dict_get_set_other (d : Dict.dict str) (k k' v : str) :
  k <> k' -> Dict.get (Dict.set d k v) k' = Dict.get d k'.
Proof.
  intros Hne. induction d as [|[k0 v0] r IH]; cbn [Dict.set Dict.get].
  - destruct (str_eqb k k') eqn:E; [| reflexivity].
    apply str_eqb_eq in E. contradiction.
  - destruct (str_eqb k0 k) eqn:E; cbn [Dict.get].
    + apply str_eqb_eq in E. subst k0.
      destruct (str_eqb k k') eqn:F; [| reflexivity].
      apply str_eqb_eq in F. contradiction.
    + rewrite IH. reflexivity.
Qed.

(** Regions that do not give a name leave what the name stands for. *)
Lemma fold_commentary_other (name : str) (regions : list located) (d : Dict.dict str) :
  Forall (fun r => ~ names name r) regions ->
  Dict.get (fold_left add_commentary regions d) name = Dict.get d name.
Proof.
  intros H. revert d. induction H as [|r rs Hr _ IH]; intros d; [reflexivity |].
  cbn [fold_left]. rewrite IH, add_commentary_pair.
  destruct (commentary_pair r) as [[k v]|] eqn:E; [| reflexivity].
  apply dict_get_set_other. intros ->. apply Hr. exists v. exact E.
Qed.

(** X14. The sections a detail page gives are named: no name is empty and
    no name occurs twice; when the page has summary lines, the summary
    comes first; and the value a name stands for is the one given by the
    last commentary region that gives the name, a later region replacing
    the value of an earlier one. *)
Theorem sections_are_named (soup : list node) :
  NoDup (keys (d_sections (parse_page soup)))
  /\ Forall (fun n => n <> []) (keys (d_sections (parse_page soup)))
  /\ (nonempty (summary_content soup) = true ->
      hd_error (keys (d_sections (parse_page soup))) = Some SUMMARY_KEY)
  /\ (forall before region after name value,
        select commentary_regions soup = before ++ region :: after ->
        commentary_pair region = Some (name, value) ->
        Forall (fun r => ~ names name r) after ->
        Dict.get (d_sections (parse_page soup)) name = Some value).
Proof.
  unfold parse_page. cbn [d_sections].
  change (select _ soup) with (select commentary_regions soup).
  set (regions := select commentary_regions soup).
  set (start := if nonempty (summary_content soup)
                then [(SUMMARY_KEY, summary_content soup)] else []).
  assert (Hstart : NoDup (keys start) /\ Forall (fun n => n <> []) (keys start)).
  { unfold start. destruct (nonempty (summary_content soup)); cbn.
    - split; repeat constructor; [intros [] | discriminate].
    - split; constructor. }
  assert (Hfold : forall rs d,
             NoDup (keys d) /\ Forall (fun n => n <> []) (keys d) ->
             NoDup (keys (fold_left add_commentary rs d))
             /\ Forall (fun n => n <> []) (keys (fold_left add_commentary rs d))).
  { induction rs as [|r rs IH]; intros d Hd; [exact Hd |].
    cbn [fold_left]. apply IH, add_commentary_named, Hd. }
  destruct (Hfold regions start Hstart) as [H1 H2].
  split; [exact H1 |]. split; [exact H2 |]. split.
  - intros Hsum.
    assert (Hhead : forall rs d,
               hd_error (keys d) = Some SUMMARY_KEY ->
               hd_error (keys (fold_left add_commentary rs d)) = Some SUMMARY_KEY).
    { induction rs as [|r rs IH]; intros d Hd; [exact Hd |].
      cbn [fold_left]. apply IH. unfold add_commentary.
      destruct (contains _ _); [exact Hd |].
      destruct (negb _); [exact Hd |].
      destruct (select_one_in [cls "sutra-commentary"] r) as [e|]; [| exact Hd].
      destruct (nonempty (strip _)); [| exact Hd].
      rewrite dict_set_keys.
      destruct (existsb _ (keys d)); [exact Hd |].
      destruct (keys d); [discriminate Hd | exact Hd]. }
    apply Hhead. unfold start. rewrite Hsum. reflexivity.
  - intros before region after name value Hsplit Hpair Hafter.
    rewrite Hsplit, fold_left_app. cbn [fold_left].
    rewrite (@fold_commentary_other name after _ Hafter).
    rewrite add_commentary_pair, Hpair. apply dict_get_set_same.
Qed.

Lemma sections_are_named_witness :
  hd_error (keys (d_sections (parse_page page_with_sections))) = Some SUMMARY_KEY
  /\ Dict.get (d_sections (parse_page page_two_regions)) (lit "Kashika")
     = Some (lit "second").
Proof.
  split.
  - exact (proj1 (proj2 (proj2 (sections_are_named page_with_sections))) eq_refl).
  - refine (proj2 (proj2 (proj2 (sections_are_named page_two_regions)))
              [first_region] second_region [] (lit "Kashika") (lit "second")
              eq_refl eq_refl _).
    constructor.
Defined.

(* ================================================================== *)
(** * More on the transformer *)
(* ================================================================== *)

(** X15. Whatever the fragment, the output of the transformer neither
    starts nor ends with white space, and nowhere in it does white space
    stand before one of the punctuation marks the last step closes up
    to. *)
Theorem output_is_trimmed (doc : list node) :
  strip (html_to_markdown doc) = html_to_markdown doc
  /\ solid isspace (html_to_markdown doc)
  /\ space_before_punct (html_to_markdown doc) = false.
Proof.
  unfold html_to_markdown, clean_text. split; [| split].
  - apply strip_by_idempotent.
  - apply strip_by_is_solid.
  - apply space_before_punct_strip, fix_punct_settled.
Qed.

Lemma collapse_blanks_space (s : str) (b : bool) :
  forallb isspace s = true -> forallb isspace (collapse_blanks_from b s) = true.
Proof.
  revert b. induction s as [|c r IH]; intros b; [reflexivity |].
  cbn [forallb collapse_blanks_from]. intros H.
  apply andb_true_iff in H. destruct H as [Hc Hr].
  destruct (is_blank c); [destruct b |]; cbn [forallb];
    rewrite ?Hc, (IH _ Hr); reflexivity.
Qed.

Lemma lstrip_by_all (drop : char -> bool) (s : str) :
  forallb drop s = true -> lstrip_by drop s = [].
Proof.
  induction s as [|c r IH]; [reflexivity |].
  cbn [forallb lstrip_by]. intros H. apply andb_true_iff in H.
  destruct H as [-> Hr]. exact (IH Hr).
Qed.

Lemma space_free_of (P : str) (s : str) :
  match P with [] => False | p :: _ => isspace p = false end ->
  forallb isspace s = true -> contains P s = false.
Proof.
  destruct P as [|p P]; [intros [] |]. intros Hp.
  induction s as [|c r IH]; [reflexivity |].
  cbn [forallb]. intros H. apply andb_true_iff in H. destruct H as [Hc Hr].
  rewrite contains_cons, (IH Hr), orb_false_r. cbn [startswith].
  destruct (N.eqb_spec p c) as [-> | _]; [congruence | reflexivity].
Qed.

(** A text of white space only is cleaned to nothing. *)
Lemma white_text_cleaned (t : str) : white t -> clean_text t = [].
Proof.
  unfold white, clean_text. intros H.
  pose proof (collapse_blanks_space t false H) as Hc.
  fold (collapse_blanks t) in Hc.
  rewrite (@split_absent SENTINEL (collapse_blanks t))
    by (apply space_free_of; [reflexivity | exact Hc]).
  cbn [result_paragraphs].
  assert (E : strip (collapse_blanks t) = []).
  { unfold strip, strip_by. rewrite (lstrip_by_all isspace _ Hc). reflexivity. }
  rewrite E. reflexivity.
Qed.

(** ** Trees with white space for text *)

Lemma node_induction (P : node -> Prop) :
  (forall s, P (Text s)) ->
  (forall name cls attrs ch, Forall P ch -> P (Elem name cls attrs ch)) ->
  forall n, P n.
Proof.
  intros Ht He. fix IH 1. intros [s | name cls attrs ch]; [apply Ht |].
  apply He. induction ch as [|x r IHr]; constructor; [apply IH | exact IHr].
Qed.

Lemma strings_elem (name : str) (cls : list str) (attrs : list (str * str))
      (ch : list node) :
  strings (Elem name cls attrs ch) = strings_list ch.
Proof.
  cbn [strings]. induction ch as [|x r IH]; [reflexivity |].
  cbn [strings_list]. rewrite <- IH. reflexivity.
Qed.

Lemma strings_list_all (P : str -> Prop) (l : list node) :
  Forall P (strings_list l) <-> Forall (fun n => Forall P (strings n)) l.
Proof.
  induction l as [|x r IH]; cbn [strings_list].
  - split; constructor.
  - rewrite Forall_app, Forall_cons_iff, IH. reflexivity.
Qed.

Lemma strip_white (s : str) : white s -> strip s = [].
Proof.
  intros H. unfold strip, strip_by. rewrite (lstrip_by_all isspace s H). reflexivity.
Qed.

Lemma text_of_white (l : list str) : Forall white l -> text_of_strings l = [].
Proof.
  unfold text_of_strings. induction 1 as [|s r Hs _ IH]; [reflexivity |].
  cbn [map filter]. rewrite (@strip_white s Hs). exact IH.
Qed.

Lemma white_join (sep : str) (l : list str) :
  white sep -> Forall white l -> white (join sep l).
Proof.
  unfold white. intros Hsep. induction 1 as [|s r Hs _ IH]; [reflexivity |].
  destruct r as [|s' r]; [exact Hs |].
  change (join sep (s :: s' :: r)) with (s ++ sep ++ join sep (s' :: r)).
  rewrite !forallb_app, Hs, Hsep, IH. reflexivity.
Qed.

Lemma with_text_white (fmt : str -> str) (n : node) :
  Forall white (strings n) -> with_text fmt n = None.
Proof.
  intros H. unfold with_text, get_text_strip. rewrite (@text_of_white _ H). reflexivity.
Qed.

Lemma passes_harmless : Forall (fun p => harmless (fst p) (snd p)) passes.
Proof.
  unfold passes.
  repeat (apply Forall_cons; [| try apply Forall_nil]);
    intros name cls attrs ch Hw Hrule Hsel; cbn [fst snd] in *;
    rewrite ?(@with_text_white _ _ Hw); try exact I.
  - reflexivity.
  - unfold is_rule in Hrule. rewrite Hrule in Hsel. discriminate Hsel.
  - unfold link_text, get_text_strip. rewrite (@text_of_white _ Hw). exact I.
Qed.

Lemma rewrite_white (sel : selector) (f : node -> option str) (n : node) :
  harmless sel f ->
  Forall white (strings n) -> some_element is_rule n = false ->
  Forall white (strings (rewrite sel f n))
  /\ some_element is_rule (rewrite sel f n) = false.
Proof.
  intros Hf. induction n as [s | name cls attrs ch IH] using node_induction;
    intros Hw Hr; [split; assumption |].
  cbn [some_element] in Hr. apply orb_false_iff in Hr. destruct Hr as [Hhead Hch].
  assert (Hkids : Forall white (strings_list (map (rewrite sel f) ch))
                  /\ existsb (some_element is_rule) (map (rewrite sel f) ch) = false).
  { rewrite strings_elem in Hw. apply strings_list_all in Hw.
    clear Hhead. induction ch as [|x r IHr]; [split; [constructor | reflexivity] |].
    apply Forall_cons_iff in IH. destruct IH as [IHx IHrest].
    apply Forall_cons_iff in Hw. destruct Hw as [Hx Hrest].
    cbn [existsb] in Hch. apply orb_false_iff in Hch. destruct Hch as [Cx Crest].
    destruct (IHx Hx Cx) as [Wx Rx].
    destruct (IHr IHrest Hrest Crest) as [Wr Rr].
    cbn [map strings_list existsb]. rewrite Rx, Rr.
    split; [apply Forall_app; split; assumption | reflexivity]. }
  destruct Hkids as [Wk Rk].
  assert (Hkept : Forall white (strings (Elem name cls attrs (map (rewrite sel f) ch)))
                  /\ some_element is_rule (Elem name cls attrs (map (rewrite sel f) ch))
                     = false).
  { rewrite strings_elem. cbn [some_element]. rewrite Hhead, Rk.
    split; [exact Wk | reflexivity]. }
  cbn [rewrite].
  destruct (selector_ok sel [] _) eqn:Hsel; [| exact Hkept].
  pose proof (Hf name cls attrs ch Hw Hhead Hsel) as Hout.
  destruct (f (Elem name cls attrs ch)) as [s|]; [| exact Hkept].
  split; [repeat constructor; exact Hout | reflexivity].
Qed.

Lemma rewrite_all_white (doc : list node) :
  Forall white (strings_list doc) ->
  existsb (some_element is_rule) doc = false ->
  Forall white (strings_list (rewrite_all doc)).
Proof.
  unfold rewrite_all. intros Hw Hr.
  assert (Hall : forall ps d,
             Forall (fun p => harmless (fst p) (snd p)) ps ->
             Forall white (strings_list d) ->
             existsb (some_element is_rule) d = false ->
             Forall white
               (strings_list (fold_left (fun d p => map (rewrite (fst p) (snd p)) d) ps d))).
  { induction ps as [|p ps IH]; intros d Hps Hd Hrd; [exact Hd |].
    apply Forall_cons_iff in Hps. destruct Hps as [Hp Hps].
    cbn [fold_left].
    assert (Hstep : Forall white (strings_list (map (rewrite (fst p) (snd p)) d))
                    /\ existsb (some_element is_rule)
                         (map (rewrite (fst p) (snd p)) d) = false).
    { apply strings_list_all in Hd. clear IH.
      induction d as [|x r IHd]; [split; [constructor | reflexivity] |].
      apply Forall_cons_iff in Hd. destruct Hd as [Hx Hrest].
      cbn [existsb] in Hrd. apply orb_false_iff in Hrd. destruct Hrd as [Cx Crest].
      destruct (@rewrite_white _ _ x Hp Hx Cx) as [Wx Rx].
      destruct (IHd Hrest Crest) as [Wr Rr].
      cbn [map strings_list existsb]. rewrite Rx, Rr.
      split; [apply Forall_app; split; assumption | reflexivity]. }
    destruct Hstep as [W R]. exact (IH _ Hps W R). }
  exact (Hall passes doc passes_harmless Hw Hr).
Qed.

(** X16. A fragment whose strings are white space only, or that has no
    string at all, and in which no element is a rule (an [hr] or an element
    of class [section-separator]) gives the empty string. *)
Theorem blank_fragment_gives_nothing (doc : list node) :
  Forall white (strings_list doc) ->
  existsb (some_element is_rule) doc = false ->
  html_to_markdown doc = [].
Proof.
  intros Hw Hr. unfold html_to_markdown. apply white_text_cleaned.
  unfold get_text_sep. apply white_join; [reflexivity |].
  exact (@rewrite_all_white doc Hw Hr).
Qed.

Lemma blank_fragment_witness : html_to_markdown blank_fragment = [].
Proof.
  apply blank_fragment_gives_nothing.
  - repeat constructor.
  - reflexivity.
Defined.

(** ** Derivation steps *)

Lemma format_steps_later (steps : list str) :
  format_steps false steps
  = map (fun step => ARROW :: 32 :: strip step) (filter nonblank steps).
Proof.
  induction steps as [|st r IH]; [reflexivity |].
  cbn [format_steps filter]. unfold nonblank at 1. rewrite IH.
  destruct (nonempty (strip st)); reflexivity.
Qed.

Lemma strip_keeps_free (x : char) (s : str) :
  mem x s = false -> mem x (strip s) = false.
Proof.
  intros H. apply mem_false_contains. apply mem_false_contains in H.
  destruct (contains [x] (strip s)) eqn:F; [| reflexivity].
  rewrite <- H. symmetry. exact (contains_strip_by isspace [x] s F).
Qed.

Lemma split_present (c : char) (s : str) :
  mem c s = true -> (1 < List.length (split [c] s))%nat.
Proof.
  unfold mem, split. induction s as [|x r IH]; [discriminate |].
  cbn [existsb]. rewrite split_from_cons.
  destruct (c =? x) eqn:E; cbn [orb].
  - intros _. destruct (split_from [c] 0 r). cbn [List.length]. lia.
  - intros H. specialize (IH H). destruct (split_from [c] 0 r) as [p ps].
    cbn [List.length] in *. lia.
Qed.

Lemma arrow_steps (para : str) :
  Forall (fun st => mem ARROW st = false) (split [ARROW] para).
Proof.
  assert (Hs : [ARROW] <> []) by discriminate.
  pose proof (proj1 (split_pieces Hs para)) as H.
  rewrite Forall_forall in H |- *. intros st Hst.
  apply mem_false_contains. exact (H st Hst).
Qed.

(** X17. A paragraph that has an arrow in it and does not start as a
    quotation becomes its steps, the pieces between its arrows, joined by
    blank lines: the first step stripped, when it is not blank, and then
    every later step that is not blank, stripped, with the arrow and a
    space before it; no line has another arrow in it. *)
Theorem derivation_becomes_lines (para : str) :
  mem ARROW para = true ->
  startswith (lit ">") para = false ->
  exists first rest,
    split [ARROW] para = first :: rest
    /\ rest <> []
    /\ format_paragraph para
       = join [NL; NL]
           ((if nonblank first then [strip first] else [])
            ++ map (fun step => ARROW :: 32 :: strip step) (filter nonblank rest))
    /\ Forall (fun step => mem ARROW (strip step) = false) (first :: rest).
Proof.
  intros Harrow Hquote.
  pose proof (split_present ARROW para Harrow) as Hlen.
  pose proof (arrow_steps para) as Hfree.
  unfold format_paragraph. rewrite Harrow, Hquote. cbn [negb andb].
  apply Nat.ltb_lt in Hlen. rewrite Hlen. apply Nat.ltb_lt in Hlen.
  destruct (split [ARROW] para) as [|first rest]; [cbn in Hlen; lia |].
  exists first, rest. split; [reflexivity |]. split; [| split].
  - destruct rest; [cbn in Hlen; lia | discriminate].
  - cbn [format_steps]. rewrite format_steps_later. reflexivity.
  - apply Forall_forall. intros st Hst. rewrite Forall_forall in Hfree.
    apply strip_keeps_free, Hfree, Hst.
Qed.

Lemma derivation_becomes_lines_witness :
  format_paragraph derivation_text
  = lit "bhU" ++ [NL; NL] ++ [ARROW] ++ lit " bhav a" ++ [NL; NL] ++ [ARROW]
    ++ lit " bhavati".
Proof.
  destruct (@derivation_becomes_lines derivation_text eq_refl eq_refl)
    as (first & rest & Hs & _ & Hf & _).
  vm_compute in Hs. injection Hs as <- <-. rewrite Hf. vm_compute. reflexivity.
Defined.

(** Formatting a paragraph brings in no pattern that the arrow and the
    space before a step cannot start. *)
Lemma contains_formatted_when (P para : str) :
  steady P = true ->
  (forall y, solid isspace y ->
             contains P (ARROW :: 32 :: y) = true -> contains P y = true) ->
  contains P (format_paragraph para) = true -> contains P para = true.
Proof.
  intros HP Hlead. destruct (steady_parts P HP) as (Hne & Hnl & _).
  unfold format_paragraph.
  destruct (mem ARROW para && negb (startswith (lit ">") para)); [| auto].
  destruct (1 <? List.length (split [ARROW] para))%nat; [| auto].
  intros H. apply (contains_join _ Hne Hnl) in H. destruct H as [line [Hin Hc]].
  assert (Hstep : forall steps first,
             In line (format_steps first steps) ->
             exists st, In st steps /\ contains P (strip st) = true).
  { induction steps as [|st r IH]; intros first; cbn [format_steps]; [intros [] |].
    intros Hl. apply in_app_or in Hl. destruct Hl as [Hl | Hl].
    - exists st. split; [left; reflexivity |].
      destruct (nonempty (strip st)); [| destruct Hl].
      destruct Hl as [<- | []]. destruct first; [exact Hc |].
      apply Hlead; [apply strip_by_is_solid | exact Hc].
    - destruct (IH _ Hl) as [st' [Hin' Hc']]. exists st'.
      split; [right; exact Hin' | exact Hc']. }
  destruct (Hstep _ _ Hin) as [st [Hst Hcs]].
  apply contains_strip_by in Hcs.
  assert (Hs : [ARROW] <> []) by discriminate.
  exact (proj2 (split_pieces Hs para) P st Hst Hcs).
Qed.

Lemma squeezed_text_from_text_when (P text : str) :
  steady P = true ->
  (forall y, solid isspace y ->
             contains P (ARROW :: 32 :: y) = true -> contains P y = true) ->
  contains P (squeezed_text text) = true ->
  exists q, In q (split SENTINEL (collapse_blanks text)) /\ contains P q = true.
Proof.
  intros HP Hlead H. destruct (steady_parts P HP) as (Hne & Hnl & _).
  unfold squeezed_text in H.
  apply (contains_squeezed _ _ Hne Hnl) in H.
  apply (contains_join _ Hne Hnl) in H. destruct H as [para [Hin Hc]].
  assert (Hpara : forall ps, In para (result_paragraphs ps) ->
                             exists q, In q ps /\ para = format_paragraph (strip q)).
  { induction ps as [|q r IH]; cbn [result_paragraphs]; [intros [] |].
    destruct (nonempty (strip q)).
    - intros [<- | Hr].
      + exists q. split; [left |]; reflexivity.
      + destruct (IH Hr) as [q' [Hq' E]]. exists q'. split; [right |]; assumption.
    - intros Hr. destruct (IH Hr) as [q' [Hq' E]].
      exists q'. split; [right |]; assumption. }
  destruct (Hpara _ Hin) as [q [Hq ->]].
  exists q. split; [exact Hq |].
  apply (@contains_formatted_when P (strip q) HP Hlead) in Hc.
  exact (contains_strip_by isspace P q Hc).
Qed.

(** A pattern that starts with neither the arrow nor the space. *)
Lemma lead_other (P : str) :
  match P with [] => False | p :: _ => (p =? ARROW) = false /\ (p =? 32) = false end ->
  forall y, solid isspace y ->
            contains P (ARROW :: 32 :: y) = true -> contains P y = true.
Proof.
  destruct P as [|p P]; [intros [] |]. intros [Ha Hs] y _ Hc.
  rewrite !contains_cons in Hc. cbn [startswith] in Hc.
  rewrite Ha, Hs in Hc. exact Hc.
Qed.


(** When the text has no star, the removal of empty pairs of bold markers
    has nothing to remove. *)
Lemma starless_keeps_bold (text : str) :
  mem STAR text = false ->
  remove_empty_bold (squeezed_text text) = squeezed_text text.
Proof.
  intros Hstar.
  apply remove_empty_bold_fixed, star_free_no_empty_bold, mem_false_contains.
  apply not_true_is_false. intros F.
  apply squeezed_text_from_text_when in F;
    [| reflexivity | apply lead_other; split; reflexivity].
  destruct F as [q [Hq Hc]]. apply (pieces_from_text [STAR] text q Hq) in Hc.
  rewrite (collapse_blanks_avoids STAR text eq_refl Hstar) in Hc.
  discriminate Hc.
Qed.

(** X18. When the removal of empty pairs of bold markers finds nothing to
    remove, as when the text read back after the rewriting of the tree,
    with the markers the rewriting wrote, has no star in it, the output
    holds neither the paragraph sentinel nor three newlines in a row. *)
Theorem output_has_no_sentinel (doc : list node) :
  (remove_empty_bold (squeezed_text (flattened doc)) = squeezed_text (flattened doc)
   \/ mem STAR (flattened doc) = false) ->
  contains SENTINEL (html_to_markdown doc) = false
  /\ contains NNN (html_to_markdown doc) = false.
Proof.
  unfold flattened, html_to_markdown.
  set (text := get_text_sep (lit " ") (rewrite_all doc)). intros Hbold.
  assert (Hb : remove_empty_bold (squeezed_text text) = squeezed_text text).
  { destruct Hbold as [H | Hstar]; [exact H | exact (@starless_keeps_bold _ Hstar)]. }
  rewrite clean_text_stages, Hb. split.
  - destruct (contains SENTINEL _) eqn:F; [| reflexivity].
    apply contains_strip_by in F. apply contains_fixed in F; [| reflexivity].
    apply squeezed_text_from_text_when in F;
      [| reflexivity | apply lead_other; split; reflexivity].
    destruct F as [q [Hq Hc]].
    assert (Hs : SENTINEL <> []) by discriminate.
    pose proof (proj1 (split_pieces Hs (collapse_blanks text))) as Hfree.
    rewrite Forall_forall in Hfree. rewrite (Hfree q Hq) in Hc. discriminate Hc.
  - destruct (contains NNN _) eqn:F; [| reflexivity].
    apply contains_strip_by in F. apply contains_fixed in F; [| reflexivity].
    rewrite <- F. unfold squeezed_text.
    exact (squeeze_newlines_settled _ (Nat.le_0_l 2)).
Qed.

Lemma output_has_no_sentinel_witness :
  contains SENTINEL (html_to_markdown quoted_derivation) = false
  /\ contains NNN (html_to_markdown quoted_derivation) = false.
Proof.
  exact (@output_has_no_sentinel quoted_derivation (or_intror eq_refl)).
Defined.

(* ================================================================== *)
(** * Running the transformer on its own output *)
(* ================================================================== *)

(** The output of the first pass is one paragraph for the second pass: the
    sentinels are gone.  When it has an arrow and does not start as a
    quotation, the second pass cuts it at its arrows, strips the pieces and
    joins them with the arrow and a space before each; this gives the
    output back but for a space after every arrow that a punctuation mark
    follows ([respaced]), and the last cleaning step takes that space away
    again.  The argument follows the text through the steps: the lines of
    the joined paragraphs, the pieces between their arrows, what the
    cleaning steps make of each piece, and what the second pass makes of
    the result. *)

(** ** Putting the space back after an arrow *)

Lemma respaced_cons (c : char) (r : str) :
  (c =? ARROW) = false -> respaced (c :: r) = c :: respaced r.
Proof. intros H. cbn [respaced]. rewrite H. reflexivity. Qed.

Lemma punct_not_arrow (c : char) : is_punct c = true -> (c =? ARROW) = false.
Proof.
  unfold is_punct. intros H.
  repeat (apply orb_true_iff in H; destruct H as [H | H]);
    apply N.eqb_eq in H; subst; reflexivity.
Qed.


Lemma punct_at_respaced (r : str) : punct_at (respaced r) = punct_at r.
Proof.
  destruct r as [|c r]; [reflexivity |]. cbn [respaced].
  destruct ((c =? ARROW) && punct_at r); reflexivity.
Qed.











(** ** The lines of the joined paragraphs *)




Lemma firm_nonempty (y : str) : firm y -> y <> [].
Proof. intros [(c & r & -> & _) _]. discriminate. Qed.






(** ** The joined paragraphs, cut at their arrows *)




(** ** The cleaning steps, piece by piece *)








(** *** Newlines around a firm text *)



















(** *** Stripping the cleaned text *)











(** ** The second pass over the output *)

Lemma respaced_free (a s : str) :
  mem ARROW a = false -> respaced (a ++ s) = a ++ respaced s.
Proof.
  induction a as [|c a IH]; [reflexivity |].
  change (mem ARROW (c :: a)) with ((ARROW =? c) || mem ARROW a).
  intros H. apply orb_false_iff in H. destruct H as [Hc Ha].
  cbn [app respaced]. rewrite (N.eqb_sym c ARROW), Hc. cbn [andb].
  rewrite (IH Ha). reflexivity.
Qed.

Lemma respaced_plain (a : str) : mem ARROW a = false -> respaced a = a.
Proof.
  intros H. rewrite <- (app_nil_r a) at 1. rewrite (@respaced_free a [] H).
  apply app_nil_r.
Qed.











(** ** What the first pass leaves in its output *)


(** ** The output cut at its arrows *)



(** ** The second pass *)





(* ================================================================== *)
(** * More on the pagination crawler *)
(* ================================================================== *)

Lemma iteration_last_count (limit : option Z) (current : nat) (st : Scroll.state) :
  Scroll.last_count (state_after (Scroll.iteration limit current st)) = current.
Proof.
  unfold Scroll.iteration.
  destruct (Nat.eqb_spec current (Scroll.last_count st)) as [E | E]; cbn [andb].
  - destruct (5 <=? _)%nat; cbn; [auto |].
    destruct (limit_reached limit current); cbn; auto.
  - destruct (limit_reached limit current); reflexivity.
Qed.

Lemma loop_returns_measure (limit : option Z) (counts : nat -> nat)
      (remaining : nat) (st : Scroll.state) :
  remembers counts st ->
  (0 < Scroll.scroll_count st + remaining)%nat ->
  exists k,
    Scroll.last_count (Scroll.loop limit counts remaining st) = counts k
    /\ (k <= Scroll.scroll_count (Scroll.loop limit counts remaining st) <= S k)%nat
    /\ (k < Scroll.scroll_count st + remaining)%nat.
Proof.
  revert st. induction remaining as [|r IH]; intros st Hrem Hpos; cbn [Scroll.loop].
  - unfold remembers in Hrem. destruct (Scroll.scroll_count st) as [|j] eqn:E; [lia |].
    exists j. cbn [previous_count] in Hrem. split; [exact Hrem | lia].
  - pose proof (iteration_shape limit counts st) as Hshape.
    pose proof (iteration_last_count limit (counts (Scroll.scroll_count st)) st) as Hlast.
    destruct (Scroll.iteration limit (counts (Scroll.scroll_count st)) st)
      as [st' | st']; cbn [state_after] in Hlast.
    + exists (Scroll.scroll_count st). rewrite Hshape. split; [exact Hlast | lia].
    + destruct Hshape as (Hs & Hl & _).
      destruct (IH st') as (k & Hk & Hb & Hlt).
      * unfold remembers. rewrite Hs, Hl. reflexivity.
      * lia.
      * exists k. split; [exact Hk | lia].
Qed.

(** X19. When at least one scroll is allowed, what the crawler returns is a
    count it measured: that of the turn it stopped at, or that of the last
    turn when the cap ended the loop.  When no scroll is allowed it
    measures nothing and returns zero. *)
Theorem crawler_returns_last_measure
        (limit : option Z) (counts : nat -> nat) (max_scrolls : nat) :
  ((0 < max_scrolls)%nat ->
   exists k,
     Scroll.scroll_to_load_all limit counts max_scrolls = counts k
     /\ (k < max_scrolls)%nat
     /\ (k <= Scroll.scroll_count (Scroll.run limit counts max_scrolls) <= S k)%nat)
  /\ Scroll.scroll_to_load_all limit counts 0 = 0%nat.
Proof.
  split; [| reflexivity]. intros Hpos.
  unfold Scroll.scroll_to_load_all, Scroll.run.
  destruct (@loop_returns_measure limit counts (max_scrolls - 0) Scroll.initial)
    as (k & Hk & Hb & Hlt); [reflexivity | cbn; lia |].
  exists k. cbn in Hlt. change (Scroll.scroll_count Scroll.initial) with 0%nat.
  split; [exact Hk | lia].
Qed.

Lemma crawler_returns_witness :
  exists k, Scroll.scroll_to_load_all None settling_counts 500 = settling_counts k
            /\ (k < 500)%nat
            /\ (k <= Scroll.scroll_count (Scroll.run None settling_counts 500) <= S k)%nat.
Proof.
  exact (proj1 (crawler_returns_last_measure None settling_counts 500)
               ltac:(lia)).
Defined.

Lemma loop_goes_on (limit : option Z) (counts : nat -> nat) (bound remaining : nat)
      (st : Scroll.state) :
  (forall k, (k < bound)%nat -> counts k <> previous_count counts k) ->
  (forall k, (k < bound)%nat -> limit_reached limit (counts k) = false) ->
  remembers counts st ->
  (Scroll.scroll_count st + remaining <= bound)%nat ->
  Scroll.scroll_count (Scroll.loop limit counts remaining st)
  = (Scroll.scroll_count st + remaining)%nat.
Proof.
  intros Hgrow Hlim. revert st.
  induction remaining as [|r IH]; intros st Hrem Hle; cbn [Scroll.loop]; [lia |].
  assert (Hj : (Scroll.scroll_count st < bound)%nat) by lia.
  unfold Scroll.iteration.
  destruct (Nat.eqb_spec (counts (Scroll.scroll_count st)) (Scroll.last_count st))
    as [E | E].
  - exfalso. apply (Hgrow _ Hj). rewrite E. exact Hrem.
  - cbn [andb]. rewrite (Hlim _ Hj).
    rewrite IH; cbn [Scroll.scroll_count Scroll.last_count]; [lia | | lia].
    unfold remembers. reflexivity.
Qed.

(** X20. While every turn measures a count different from that of the turn
    before and no limit is reached, the crawler does not stop early: it
    makes all the scrolls it is allowed. *)
Theorem crawler_goes_on_while_counts_change
        (limit : option Z) (counts : nat -> nat) (max_scrolls : nat) :
  (forall k, (k < max_scrolls)%nat -> counts k <> previous_count counts k) ->
  (forall k, (k < max_scrolls)%nat -> limit_reached limit (counts k) = false) ->
  Scroll.scroll_count (Scroll.run limit counts max_scrolls) = max_scrolls.
Proof.
  intros Hgrow Hlim. unfold Scroll.run.
  change (Scroll.scroll_count Scroll.initial) with 0%nat.
  rewrite (@loop_goes_on limit counts max_scrolls (max_scrolls - 0) Scroll.initial
             Hgrow Hlim eq_refl); cbn; lia.
Qed.

Lemma crawler_goes_on_witness :
  Scroll.scroll_count (Scroll.run None growing_counts 40) = 40%nat.
Proof.
  apply crawler_goes_on_while_counts_change.
  - intros k _. unfold growing_counts. destruct k; cbn [previous_count]; lia.
  - intros k _. reflexivity.
Defined.

(* ================================================================== *)
(** * Targets, numbers and names *)
(* ================================================================== *)

Lemma digits_parts (s : str) :
  digits s = true -> s <> [] /\ forallb ascii_digit s = true.
Proof.
  unfold digits. intros H. apply andb_true_iff in H. destruct H as [Hn Hd].
  split; [apply nonempty_true, Hn | exact Hd].
Qed.

Lemma digits_solid (drop : char -> bool) (s : str) :
  (forall c, ascii_digit c = true -> drop c = false) ->
  forallb ascii_digit s = true -> solid drop s.
Proof.
  intros Hdrop Hd. rewrite forallb_forall in Hd. split.
  - destruct s as [|c r]; [exact I |]. apply Hdrop, Hd. left. reflexivity.
  - destruct (rev s) as [|c r] eqn:E; [exact I |].
    apply Hdrop, Hd. apply in_rev. rewrite E. left. reflexivity.
Qed.

Lemma int_body_digits (U : UnicodeTables) (s : str) :
  digits s = true -> int_body U s = true.
Proof.
  intros H. destruct (digits_parts s H) as [Hne Hd]. clear H.
  induction s as [|c r IH]; [congruence |].
  cbn [forallb] in Hd. apply andb_true_iff in Hd. destruct Hd as [Hc Hr].
  cbn [int_body]. unfold isdecimal_char. rewrite Hc. cbn [orb andb].
  destruct r as [|d r']; [reflexivity |].
  assert (Hd : (d =? 95) = false).
  { cbn [forallb] in Hr. apply andb_true_iff in Hr. destruct Hr as [Hd _].
    unfold ascii_digit in Hd. apply andb_true_iff in Hd. destruct Hd as [_ Hd].
    apply N.leb_le in Hd. apply N.eqb_neq. lia. }
  rewrite Hd. apply IH; [discriminate | exact Hr].
Qed.

Lemma digit_count_digits (s : str) :
  forallb ascii_digit s = true -> digit_count s = List.length s.
Proof.
  unfold digit_count. induction s as [|c r IH]; [reflexivity |].
  cbn [forallb]. intros H. apply andb_true_iff in H. destruct H as [Hc Hr].
  cbn [filter]. unfold ascii_digit in Hc. apply andb_true_iff in Hc.
  destruct Hc as [_ Hhi]. apply N.leb_le in Hhi.
  destruct (N.eqb_spec c 95) as [E | _]; [lia |].
  cbn [negb List.length]. rewrite (IH Hr). reflexivity.
Qed.

Lemma int_ok_digits (U : UnicodeTables) (s : str) :
  digits s = true -> int_ok U s = short s.
Proof.
  intros H. destruct (digits_parts s H) as [Hne Hd]. unfold int_ok.
  rewrite (@strip_by_solid int_space s).
  - destruct s as [|c r]; [congruence |].
    assert (Hsign : (c =? 43) || (c =? 45) = false).
    { cbn [forallb] in Hd. apply andb_true_iff in Hd. destruct Hd as [Hc _].
      unfold ascii_digit in Hc. apply andb_true_iff in Hc. destruct Hc as [Hc _].
      apply N.leb_le in Hc.
      destruct (N.eqb_spec c 43); [lia |]. destruct (N.eqb_spec c 45); [lia |].
      reflexivity. }
    rewrite Hsign. unfold int_literal, short.
    rewrite (int_body_digits U _ H), (digit_count_digits _ Hd). reflexivity.
  - apply (@digits_solid int_space s); [| exact Hd].
    intros c Hc. unfold ascii_digit in Hc. apply andb_true_iff in Hc.
    destruct Hc as [Hlo Hhi]. apply N.leb_le in Hlo. apply N.leb_le in Hhi.
    unfold int_space, isspace.
    repeat match goal with
           | |- context [N.leb ?a ?b] => destruct (N.leb_spec a b); try lia
           | |- context [N.eqb ?a ?b] => destruct (N.eqb_spec a b); try lia
           end; reflexivity.
Qed.

Lemma rstrip_by_keeps (drop : char -> bool) (x s : str) :
  s <> [] -> solid drop s -> rstrip_by drop (x ++ s) = x ++ s.
Proof.
  intros Hne [_ Hlast]. unfold rstrip_by. rewrite rev_app_distr.
  destruct (rev s) as [|c r] eqn:E.
  - exfalso. apply Hne. apply (f_equal (@rev char)) in E.
    rewrite rev_involutive in E. exact E.
  - cbn [app lstrip_by]. cbn [solid_head] in Hlast. rewrite Hlast.
    change (c :: r ++ rev x) with ((c :: r) ++ rev x).
    rewrite <- E, <- rev_app_distr. apply rev_involutive.
Qed.

Lemma slash_not_digit (c : char) : ascii_digit c = true -> mem c (lit "/") = false.
Proof.
  unfold ascii_digit. intros H. apply andb_true_iff in H. destruct H as [Hlo _].
  apply N.leb_le in Hlo. change (mem c (lit "/")) with ((c =? 47) || false).
  destruct (N.eqb_spec c 47); [lia | reflexivity].
Qed.

(** X21. A target of the form /sutraani/a/p/s, with a, p and s runs of
    ASCII digits, splits into the book segment and the three runs and
    starts with the prefix the listing parser asks for; it passes the
    parser's filter exactly when none of the three runs is longer than the
    4300 digits the interpreter converts. *)
Theorem sutra_target_is_valid (U : UnicodeTables) (a p s : str) :
  digits a = true -> digits p = true -> digits s = true ->
  href_parts (sutra_target a p s) = [lit "sutraani"; a; p; s]
  /\ valid_sutra_href U (sutra_target a p s) = short a && short p && short s
  /\ startswith SUTRAANI_PREFIX (sutra_target a p s) = true.
Proof.
  intros Ha Hp Hs.
  destruct (digits_parts a Ha) as [_ Da], (digits_parts p Hp) as [_ Dp],
           (digits_parts s Hs) as [Ns Ds].
  assert (Hparts : href_parts (sutra_target a p s) = [lit "sutraani"; a; p; s]).
  { unfold href_parts.
    set (t := join [47] [lit "sutraani"; a; p; s]).
    assert (Hstrip : strip_chars (lit "/") (sutra_target a p s) = t).
    { change (sutra_target a p s) with (47 :: t).
      unfold strip_chars, strip_by.
      assert (Hl : lstrip_by (fun c => mem c (lit "/")) (47 :: t) = t) by reflexivity.
      rewrite Hl. unfold t. cbn [join]. rewrite !app_assoc.
      apply rstrip_by_keeps; [exact Ns |].
      apply (@digits_solid (fun c => mem c (lit "/")) s); [| exact Ds].
      exact slash_not_digit. }
    rewrite Hstrip. change (lit "/") with [47]. unfold t.
    apply split_join. repeat constructor;
      first [ reflexivity | apply digits_free_of; [reflexivity | assumption] ]. }
  split; [exact Hparts |]. split; [| reflexivity].
  unfold valid_sutra_href. rewrite Hparts.
  rewrite (int_ok_digits U a Ha), (int_ok_digits U p Hp), (int_ok_digits U s Hs).
  reflexivity.
Qed.

Lemma sutra_target_witness :
  href_parts (lit "/sutraani/1/2/15") = [lit "sutraani"; lit "1"; lit "2"; lit "15"]
  /\ valid_sutra_href unicode_14 (lit "/sutraani/1/2/15") = true
  /\ startswith SUTRAANI_PREFIX (lit "/sutraani/1/2/15") = true.
Proof.
  exact (@sutra_target_is_valid unicode_14 (lit "1") (lit "2") (lit "15")
           eq_refl eq_refl eq_refl).
Defined.

Lemma str_of_nat_nonempty (i : nat) : str_of_nat i <> [].
Proof.
  unfold str_of_nat.
  pose proof (DecimalNat.Unsigned.to_of (Nat.to_uint i)) as E.
  rewrite DecimalNat.Unsigned.of_to in E. rewrite E.
  unfold Decimal.unorm.
  destruct (Decimal.nzhead (Nat.to_uint i)); discriminate.
Qed.

(** X22. The number of an entry is empty only when the listing gave the
    entry no number and its detail page loaded with a title element that
    is missing or empty; a failed detail page never leaves the number
    empty. *)
Theorem empty_number_needs_untitled_page
        (i : nat) (data : summary) (detail : option detail) :
  number (make_entry i data detail) = [] ->
  s_number data = []
  /\ exists d, detail = Some d /\ d_number d = [].
Proof.
  unfold make_entry. cbn [number].
  destruct (s_number data) as [|c r]; cbn [nonempty]; [| discriminate].
  destruct detail as [d|].
  - intros H. split; [reflexivity |]. exists d. split; [reflexivity | exact H].
  - intros H. exfalso. exact (str_of_nat_nonempty i H).
Qed.

Lemma empty_number_witness :
  s_number (summary_numbered [] "/x") = []
  /\ exists d, Some (parse_page []) = Some d /\ d_number d = [].
Proof.
  exact (@empty_number_needs_untitled_page 4 (summary_numbered [] "/x")
           (Some (parse_page [])) eq_refl).
Defined.

(** X23. The header texts of a book are never empty and have nothing left
    to strip. *)
Theorem header_texts_are_solid
        (U : UnicodeTables) (limit : option Z) (W : World) (b : BookType)
        (text : str) :
  In text (book_header (scrape_book U limit W b)) ->
  text <> [] /\ strip text = text.
Proof.
  unfold scrape_book.
  destruct (negb (driver_starts W)); [intros [] |].
  destruct (load W 0 _) as [html|]; [| intros []].
  unfold parse_main_page_header. cbn [book_header header_shlokas].
  intros H. apply in_flat_map in H. destruct H as [item [_ H]].
  destruct (select_one_in _ item); [destruct H |].
  destruct (nonempty (get_text_strip (here item))) eqn:E; [| destruct H].
  destruct H as [<- | []].
  split; [apply nonempty_true, E | apply strip_get_text_strip].
Qed.

Lemma header_texts_witness : lit "no link" <> [] /\ strip (lit "no link") = lit "no link".
Proof.
  refine (@header_texts_are_solid unicode_14 None
            (world_of
               [ Elem (lit "div") [lit "list-group-item"; lit "text-center"; lit "bg-light"]
                   [] [ Text (lit " no link ") ] ]
               page_titled_1_1_1)
            shiksha (lit "no link") _).
  vm_compute. left. reflexivity.
Defined.

(** X24. Under the flat scheme the file names of the numbers below one
    hundred sort in the order of the numbers; from one hundred on they do
    not, the name of 100 sorting before the name of 99. *)
Theorem flat_names_sort_below_hundred (U : UnicodeTables) :
  (forall i j, (i < j)%nat -> (j < 100)%nat ->
               str_ltb (flat_name_of_nat U i) (flat_name_of_nat U j) = true)
  /\ str_ltb (flat_name_of_nat U 100) (flat_name_of_nat U 99) = true.
Proof.
  split; [| vm_compute; reflexivity].
  assert (Hall : forallb
                   (fun j => forallb
                               (fun i => str_ltb (flat_name_of_nat U i)
                                                 (flat_name_of_nat U j))
                               (seq 0 j))
                   (seq 0 100) = true) by (vm_compute; reflexivity).
  intros i j Hij Hj. rewrite forallb_forall in Hall.
  assert (Hjin : In j (seq 0 100)) by (apply in_seq; lia).
  specialize (Hall j Hjin). rewrite forallb_forall in Hall.
  apply Hall. apply in_seq. lia.
Qed.

Lemma flat_names_sort_witness :
  str_ltb (lit "entry_09.md") (lit "entry_10.md") = true.
Proof.
  exact (proj1 (flat_names_sort_below_hundred unicode_14) 9%nat 10%nat
           ltac:(lia) ltac:(lia)).
Defined.

(* ================================================================== *)
(** * The document of an entry *)
(* ================================================================== *)

Lemma make_entry_sections_nonblank (W : World) (i req : nat) (data : summary) :
  values_nonblank (sections (make_entry i data (parse_detail_page W req (s_url data)))).
Proof.
  unfold make_entry, parse_detail_page. cbn [sections].
  destruct (load W req (s_url data)) as [soup|].
  - apply parse_page_sections_nonblank.
  - constructor.
Qed.

Lemma scrape_entries_sections_nonblank (limit : option Z) (W : World)
      (entries_data : list summary) (i req : nat) (e : EntryInfo) :
  In e (scrape_entries limit W i req entries_data) ->
  values_nonblank (sections e).
Proof.
  revert i req. induction entries_data as [|d r IH]; intros i req; cbn [scrape_entries].
  - intros [].
  - destruct (limit_passed limit i); [intros [] |].
    intros [<- | H].
    + apply make_entry_sections_nonblank.
    + exact (IH _ _ H).
Qed.

Lemma book_sections_nonblank (U : UnicodeTables) (limit : option Z) (W : World)
      (b : BookType) (e : EntryInfo) :
  In e (book_entries (scrape_book U limit W b)) ->
  values_nonblank (sections e).
Proof.
  unfold scrape_book.
  destruct (negb (driver_starts W)); [intros [] |].
  destruct (load W 0 _) as [html|]; [| intros []].
  destruct (parse_main_page_header _) as [[sn hs] ft].
  cbn [book_entries chapters flat_map entries]. rewrite app_nil_r.
  apply scrape_entries_sections_nonblank.
Qed.

Lemma filter_renders_nonblank (d : Dict.dict str) :
  values_nonblank d ->
  filter renders d
  = filter (fun section => negb (startswith (lit "Additional_") (fst section))) d.
Proof.
  unfold values_nonblank. induction 1 as [|kv r Hkv _ IH]; [reflexivity |].
  cbn [filter]. unfold renders at 1. unfold nonblank in Hkv. rewrite Hkv.
  cbn [andb]. rewrite IH. reflexivity.
Qed.

(** X25. In the document written for an entry of a scraped book the test
    for blank section text never drops a section: the sections shown are
    exactly those whose name does not start with [Additional_], in the
    order of the mapping, and the document ends with their blocks followed
    by the navigation footer. *)
Theorem document_shows_named_sections
        (U : UnicodeTables) (limit : option Z) (W : World) (b : BookType)
        (e : EntryInfo) :
  In e (book_entries (scrape_book U limit W b)) ->
  rendered_sections e = named_sections e
  /\ forall book, exists front,
       create_entry_markdown e book
       = front ++ List.concat (map section_block (named_sections e)) ++ FOOTER.
Proof.
  intros H.
  assert (E : rendered_sections e = named_sections e).
  { unfold rendered_sections, named_sections.
    apply filter_renders_nonblank.
    exact (book_sections_nonblank _ _ _ _ _ H). }
  split; [exact E |].
  intros book. unfold create_entry_markdown. rewrite E.
  eexists. rewrite <- app_assoc. reflexivity.
Qed.

Lemma document_shows_named_sections_witness :
  rendered_sections
    (make_entry 1
       {| s_number := [2407; 46; 2407; 46; 2407]; s_title := lit "vrddhir adaic";
          s_url := lit "https://ashtadhyayi.com/sutraani/1/1/1";
          s_notes := [BULLET :: lit " note"];
          s_metadata := [(lit "kaumudi", KAUMUDI ++ lit " 16")];
          path_parts := Some (lit "1", lit "1", lit "1") |}
       (Some (parse_page page_with_additional)))
  = [(lit "Kashika", lit "first")].
Proof.
  refine (proj1 (@document_shows_named_sections unicode_14 None
                   (world_of listing_with_citation page_with_additional)
                   sutraani _ _)).
  vm_compute. left. reflexivity.
Defined.
